(** * The per-PLC connection engine of libplctag (src/util/plc.c)

    A shallow embedding of the generic PLC object: the request queue, the
    shared byte buffer, the registry lookup and the dispatch state machine
    with its two error policies.  The protocol layers, the request
    callbacks, the socket, the clock and the allocator are collaborators
    of plc.c; they are operations on an abstract world [W] that every
    function threads explicitly. *)

From Stdlib Require Import ZArith List Bool String Ascii Lia.
Import ListNotations.
Open Scope Z_scope.

Set Implicit Arguments.

(** ** Machine integers *)

(** [int] and [int64_t] values are kept in [Z]; arithmetic that can leave
    the range is reduced to two's complement. *)
Definition wrap (bits : Z) (z : Z) : Z :=
  let m := 2 ^ bits in
  let r := z mod m in
  if r >=? 2 ^ (bits - 1) then r - m else r.

Definition int32 (z : Z) : Z := wrap 32 z.
Definition int64 (z : Z) : Z := wrap 64 z.

(** ** Status codes *)

(** The status codes plc.c names.  [PLCTAG_ERR_OTHER] stands for every
    code of lib/libplctag.h that plc.c never tests for by name. *)
Inductive status : Type :=
| PLCTAG_STATUS_PENDING
| PLCTAG_STATUS_OK
| PLCTAG_STATUS_RETRY
| PLCTAG_ERR_BAD_GATEWAY
| PLCTAG_ERR_BUSY
| PLCTAG_ERR_NOT_FOUND
| PLCTAG_ERR_NO_MEM
| PLCTAG_ERR_NULL_PTR
| PLCTAG_ERR_OUT_OF_BOUNDS
| PLCTAG_ERR_PARTIAL
| PLCTAG_ERR_TOO_SMALL
| PLCTAG_ERR_OTHER.

Definition status_eq_dec (a b : status) : {a = b} + {a <> b}.
Proof. decide equality. Defined.

Definition status_eqb (a b : status) : bool :=
  if status_eq_dec a b then true else false.

Infix "=?s" := status_eqb (at level 70).
Notation "a <>?s b" := (negb (status_eqb a b)) (at level 70).

(** ** Constants of plc.c *)

Definition DESTROY_DISCONNECT_TIMEOUT_MS : Z := 500.
Definition DEFAULT_IDLE_TIMEOUT_MS : Z := 5000.
Definition PLC_HEARTBEAT_INTERVAL_MS : Z := 200.
Definition MAX_RETRY_INTERVAL_MS : Z := 16000.
Definition MIN_RETRY_INTERVAL_MS : Z := 1000.

(** The state functions, as the values [plc->state_func] can hold. *)
Inductive state_id : Type :=
| st_dispatch_requests
| st_reserve_space_for_tag_request
| st_build_tag_request
| st_tag_request_sent
| st_tag_response_ready
| st_start_connect
| st_build_layer_connect_request
| st_layer_connect_request_sent
| st_layer_connect_response_ready
| st_start_disconnect
| st_build_layer_disconnect_request
| st_layer_disconnect_request_sent
| st_layer_disconnect_response_ready
| st_terminate.

Definition state_id_eq_dec (a b : state_id) : {a = b} + {a <> b}.
Proof. decide equality. Defined.

Definition state_id_eqb (a b : state_id) : bool :=
  if state_id_eq_dec a b then true else false.

(** [uint8_t *]: a null pointer or the bytes it points to. *)
Definition buffer : Type := option (list Z).

(** ** Strings *)

Definition to_lower (c : ascii) : ascii :=
  let n := nat_of_ascii c in
  if ((65 <=? n) && (n <=? 90))%nat then ascii_of_nat (n + 32) else c.

(** Modelled from the spec: [str_cmp_i] (util/string.h) is not defined
    in plc.c.  It compares two strings ignoring case and answers 0 when
    they are equal, the difference of the first two characters that
    differ otherwise. *)
Fixpoint str_cmp_i (a b : string) : Z :=
  match a, b with
  | EmptyString, EmptyString => 0
  | EmptyString, String _ _ => -1
  | String _ _, EmptyString => 1
  | String x a, String y b =>
      let d := Z.of_nat (nat_of_ascii (to_lower x))
               - Z.of_nat (nat_of_ascii (to_lower y)) in
      if d =? 0 then str_cmp_i a b else d
  end.

(** ** Data model *)

Section Engine.

(** Everything outside plc.c that a call can change: layer contexts,
    tag objects, the socket, the clock, the heap. *)
Variable W : Type.

(** The attribute bag [attr] (util/attr.h). *)
Variable attr : Type.

(** What a callback hands back: the world, the buffer it wrote into,
    the two offsets it received by pointer, the request id (for the
    layer operations that take [plc_request_id *]; unused otherwise)
    and its return code. *)
Record call_result : Type := mk_call {
  res_world : W;
  res_data : buffer;
  res_start : Z;
  res_end : Z;
  res_req_id : Z;
  res_rc : status }.

(** A layer operation: it receives the buffer and its capacity, the two
    offsets by pointer and the request id (by pointer too: the id it
    leaves is [res_req_id]). *)
Definition callback : Type :=
  W -> buffer -> Z -> Z -> Z -> Z -> call_result.

(** A request callback: the same after the [void *context] of the
    request; its request id is passed by value. *)
Definition request_callback : Type :=
  W -> Z -> buffer -> Z -> Z -> Z -> Z -> call_result.

(** [struct plc_request_s] (plc.h).  [next] is the order of the queue;
    [req_addr] is the address of the object, which is what the queue
    walkers compare. *)
Record plc_request_s : Type := mk_request {
  req_addr : Z;
  context : Z;
  req_id : Z;
  build_request : request_callback;
  process_response : request_callback }.

(** Modelled from the spec: [struct plc_layer_s] is declared outside
    plc.c and plc.h.  The engine reaches the stack only through
    [plc->top_layer], by the operations of the layer interface:
    initialize, connect, disconnect, reserve_space, build_layer and
    process_response.  Each layer delegates to [next] by itself, so the
    record stands for the whole stack. *)
Record plc_layer_s : Type := mk_layer {
  initialize : W -> W * status;
  connect : W -> buffer -> Z -> Z -> Z -> call_result;
  disconnect : W -> buffer -> Z -> Z -> Z -> call_result;
  reserve_space : callback;
  build_layer : callback;
  layer_process_response : callback }.

(** [struct plc_s].  The list link [next] is the order of the registry;
    the mutex, the heartbeat timer and the dialect context are handles
    owned by their modules and live in the world. *)
Record plc_s : Type := mk_plc {
  key : string;
  is_terminating : bool;
  host : option string;
  port : Z;
  socket : option Z;
  request_list : list plc_request_s;
  current_request_id : Z;
  top_layer : plc_layer_s;
  state_func : option state_id;
  data : buffer;
  data_capacity : Z;
  payload_end : Z;
  payload_start : Z;
  retry_interval_ms : Z;
  next_retry_time : Z;
  idle_timeout_ms : Z;
  next_idle_timeout : Z;
  is_connected : bool }.

(** Field assignments [plc->f = v]. *)
Definition set_key (v : _) (p : plc_s) : plc_s :=
  mk_plc v (is_terminating p) (host p) (port p) (socket p)
    (request_list p) (current_request_id p) (top_layer p) (state_func p)
    (data p) (data_capacity p) (payload_end p) (payload_start p)
    (retry_interval_ms p) (next_retry_time p) (idle_timeout_ms p)
    (next_idle_timeout p) (is_connected p).

Definition set_is_terminating (v : _) (p : plc_s) : plc_s :=
  mk_plc (key p) v (host p) (port p) (socket p) (request_list p)
    (current_request_id p) (top_layer p) (state_func p) (data p)
    (data_capacity p) (payload_end p) (payload_start p)
    (retry_interval_ms p) (next_retry_time p) (idle_timeout_ms p)
    (next_idle_timeout p) (is_connected p).

Definition set_host (v : _) (p : plc_s) : plc_s :=
  mk_plc (key p) (is_terminating p) v (port p) (socket p) (request_list p)
    (current_request_id p) (top_layer p) (state_func p) (data p)
    (data_capacity p) (payload_end p) (payload_start p)
    (retry_interval_ms p) (next_retry_time p) (idle_timeout_ms p)
    (next_idle_timeout p) (is_connected p).

Definition set_port (v : _) (p : plc_s) : plc_s :=
  mk_plc (key p) (is_terminating p) (host p) v (socket p) (request_list p)
    (current_request_id p) (top_layer p) (state_func p) (data p)
    (data_capacity p) (payload_end p) (payload_start p)
    (retry_interval_ms p) (next_retry_time p) (idle_timeout_ms p)
    (next_idle_timeout p) (is_connected p).

Definition set_socket (v : _) (p : plc_s) : plc_s :=
  mk_plc (key p) (is_terminating p) (host p) (port p) v (request_list p)
    (current_request_id p) (top_layer p) (state_func p) (data p)
    (data_capacity p) (payload_end p) (payload_start p)
    (retry_interval_ms p) (next_retry_time p) (idle_timeout_ms p)
    (next_idle_timeout p) (is_connected p).

Definition set_request_list (v : _) (p : plc_s) : plc_s :=
  mk_plc (key p) (is_terminating p) (host p) (port p) (socket p) v
    (current_request_id p) (top_layer p) (state_func p) (data p)
    (data_capacity p) (payload_end p) (payload_start p)
    (retry_interval_ms p) (next_retry_time p) (idle_timeout_ms p)
    (next_idle_timeout p) (is_connected p).

Definition set_current_request_id (v : _) (p : plc_s) : plc_s :=
  mk_plc (key p) (is_terminating p) (host p) (port p) (socket p)
    (request_list p) v (top_layer p) (state_func p) (data p)
    (data_capacity p) (payload_end p) (payload_start p)
    (retry_interval_ms p) (next_retry_time p) (idle_timeout_ms p)
    (next_idle_timeout p) (is_connected p).

Definition set_state_func (v : _) (p : plc_s) : plc_s :=
  mk_plc (key p) (is_terminating p) (host p) (port p) (socket p)
    (request_list p) (current_request_id p) (top_layer p) v (data p)
    (data_capacity p) (payload_end p) (payload_start p)
    (retry_interval_ms p) (next_retry_time p) (idle_timeout_ms p)
    (next_idle_timeout p) (is_connected p).

Definition set_data (v : _) (p : plc_s) : plc_s :=
  mk_plc (key p) (is_terminating p) (host p) (port p) (socket p)
    (request_list p) (current_request_id p) (top_layer p) (state_func p) v
    (data_capacity p) (payload_end p) (payload_start p)
    (retry_interval_ms p) (next_retry_time p) (idle_timeout_ms p)
    (next_idle_timeout p) (is_connected p).

Definition set_data_capacity (v : _) (p : plc_s) : plc_s :=
  mk_plc (key p) (is_terminating p) (host p) (port p) (socket p)
    (request_list p) (current_request_id p) (top_layer p) (state_func p)
    (data p) v (payload_end p) (payload_start p) (retry_interval_ms p)
    (next_retry_time p) (idle_timeout_ms p) (next_idle_timeout p)
    (is_connected p).

Definition set_payload_end (v : _) (p : plc_s) : plc_s :=
  mk_plc (key p) (is_terminating p) (host p) (port p) (socket p)
    (request_list p) (current_request_id p) (top_layer p) (state_func p)
    (data p) (data_capacity p) v (payload_start p) (retry_interval_ms p)
    (next_retry_time p) (idle_timeout_ms p) (next_idle_timeout p)
    (is_connected p).

Definition set_payload_start (v : _) (p : plc_s) : plc_s :=
  mk_plc (key p) (is_terminating p) (host p) (port p) (socket p)
    (request_list p) (current_request_id p) (top_layer p) (state_func p)
    (data p) (data_capacity p) (payload_end p) v (retry_interval_ms p)
    (next_retry_time p) (idle_timeout_ms p) (next_idle_timeout p)
    (is_connected p).

Definition set_retry_interval_ms (v : _) (p : plc_s) : plc_s :=
  mk_plc (key p) (is_terminating p) (host p) (port p) (socket p)
    (request_list p) (current_request_id p) (top_layer p) (state_func p)
    (data p) (data_capacity p) (payload_end p) (payload_start p) v
    (next_retry_time p) (idle_timeout_ms p) (next_idle_timeout p)
    (is_connected p).

Definition set_next_retry_time (v : _) (p : plc_s) : plc_s :=
  mk_plc (key p) (is_terminating p) (host p) (port p) (socket p)
    (request_list p) (current_request_id p) (top_layer p) (state_func p)
    (data p) (data_capacity p) (payload_end p) (payload_start p)
    (retry_interval_ms p) v (idle_timeout_ms p) (next_idle_timeout p)
    (is_connected p).

Definition set_idle_timeout_ms (v : _) (p : plc_s) : plc_s :=
  mk_plc (key p) (is_terminating p) (host p) (port p) (socket p)
    (request_list p) (current_request_id p) (top_layer p) (state_func p)
    (data p) (data_capacity p) (payload_end p) (payload_start p)
    (retry_interval_ms p) (next_retry_time p) v (next_idle_timeout p)
    (is_connected p).

Definition set_is_connected (v : _) (p : plc_s) : plc_s :=
  mk_plc (key p) (is_terminating p) (host p) (port p) (socket p)
    (request_list p) (current_request_id p) (top_layer p) (state_func p)
    (data p) (data_capacity p) (payload_end p) (payload_start p)
    (retry_interval_ms p) (next_retry_time p) (idle_timeout_ms p)
    (next_idle_timeout p) v.

(** The collaborators of plc.c: clock, socket, allocator, attributes,
    strings, reference counts, mutexes and timers.  The socket calls
    that receive [&plc->payload_end] only arm an operation; the socket
    writes through the pointer when the operation completes, after the
    state function has returned. *)
Record Env : Type := mk_env {
  time_ms : W -> W * Z;
  event_loop_time : W -> W * Z;
  socket_create : W -> W * option Z * status;
  socket_close : W -> option Z -> W;
  socket_status : W -> option Z -> W * status;
  socket_callback_when_connection_ready :
    W -> option Z -> option string -> Z -> W * status;
  (** [(sock, cb, ctx, buffer, &len)]: arms the write of the first
      [len] bytes. *)
  socket_callback_when_write_done : W -> option Z -> buffer -> Z -> W * status;
  (** [(sock, cb, ctx, buffer, capacity, &len)]: arms a read. *)
  socket_callback_when_read_done :
    W -> option Z -> buffer -> Z -> Z -> W * status;
  (** [mem_realloc(ptr, size)]: null on failure. *)
  mem_realloc : W -> buffer -> Z -> W * buffer;
  (** [attr_get_str(attribs, name, default)] and [attr_get_int]. *)
  attr_get_str : attr -> string -> option string -> option string;
  attr_get_int : attr -> string -> Z -> Z;
  (** [str_concat(s1, ..., NULL)]: null when the allocation fails. *)
  str_concat : W -> list (option string) -> W * option string;
  (** [str_dup(str)]: whether the copy could be allocated; null comes
      back when it could not. *)
  str_dup : W -> string -> W * bool;
  (** [str_split(str, sep)]: the segments, or null. *)
  str_split : string -> string -> option (list string);
  (** [str_to_int(str, &val)] *)
  str_to_int : string -> status * Z;
  (** [rc_alloc(size, destructor)]: the address of the new object, or
      null. *)
  rc_alloc : W -> W * option Z;
  (** [rc_inc(ptr)] on a non-null pointer: whether the reference was
      acquired; the pointer comes back as it is, or null. *)
  rc_inc : W -> Z -> W * bool;
  (** [rc_dec(ptr)] of the only reference to a PLC under construction:
      the object is destroyed. *)
  rc_dec : W -> Z -> plc_s -> W;
  mutex_create : W -> W * status;
  timer_event_create : W -> W * status;
  timer_event_wake_at : W -> Z -> W * status;
  timer_event_snooze : W -> W }.

Variable env : Env.

(** ** Macros *)

(** [NEXT_STATE(state)] *)
Definition NEXT_STATE (state : state_id) (plc : plc_s) : plc_s :=
  set_state_func (Some state) plc.

(** The body of [DISCONNECT_ON_ERROR] once its condition holds: the
    state function leaves with the triple returned here. *)
Definition DISCONNECT_ON_ERROR (w : W) (plc : plc_s) : W * plc_s * status :=
  let plc := set_retry_interval_ms (int32 (retry_interval_ms plc * 2)) plc in
  let plc :=
    if retry_interval_ms plc >? MAX_RETRY_INTERVAL_MS
    then set_retry_interval_ms MAX_RETRY_INTERVAL_MS plc else plc in
  let '(w, now) := time_ms env w in
  let plc := set_next_retry_time (int64 (now + retry_interval_ms plc)) plc in
  (w, NEXT_STATE st_start_disconnect plc, PLCTAG_STATUS_PENDING).

(** [reset_plc] *)
Definition reset_plc (w : W) (plc : plc_s) : W * plc_s :=
  let w :=
    match socket plc with
    | Some _ => socket_close env w (socket plc)
    | None => w
    end in
  let '(w, _) := initialize (top_layer plc) w in
  (w, set_is_connected false plc).

(** The body of [RESET_ON_ERROR] once its condition holds. *)
Definition RESET_ON_ERROR (w : W) (plc : plc_s) : W * plc_s * status :=
  let '(w, plc) := reset_plc w plc in
  let plc := set_retry_interval_ms (int32 (retry_interval_ms plc * 2)) plc in
  let plc :=
    if retry_interval_ms plc >? MAX_RETRY_INTERVAL_MS
    then set_retry_interval_ms MAX_RETRY_INTERVAL_MS plc else plc in
  let '(w, now) := time_ms env w in
  let plc := set_next_retry_time (int64 (now + retry_interval_ms plc)) plc in
  (w, NEXT_STATE st_dispatch_requests plc, PLCTAG_STATUS_OK).

(** The body of [CONTINUE_UNLESS] and of [CHECK_TERMINATION] once their
    condition holds. *)
Definition back_to_dispatch (w : W) (plc : plc_s) : W * plc_s * status :=
  (w, NEXT_STATE st_dispatch_requests plc, PLCTAG_STATUS_PENDING).

(** ** Dispatch *)

Definition state_dispatch_requests (w : W) (plc : plc_s)
  : W * plc_s * status :=
  let '(w, now) := event_loop_time env w in
  if is_terminating plc then
    if is_connected plc
    then (w, NEXT_STATE st_start_disconnect plc, PLCTAG_STATUS_PENDING)
    else (w, NEXT_STATE st_terminate plc, PLCTAG_STATUS_OK)
  else if is_connected plc && (next_idle_timeout plc <? now) then
    (w, NEXT_STATE st_start_disconnect plc, PLCTAG_STATUS_PENDING)
  else
    let '(w, now') := event_loop_time env w in
    if next_retry_time plc >? now' then (w, plc, PLCTAG_STATUS_OK)
    else
      match request_list plc with
      | _ :: _ =>
          if negb (is_connected plc)
          then (w, NEXT_STATE st_start_connect plc, PLCTAG_STATUS_PENDING)
          else (w, NEXT_STATE st_reserve_space_for_tag_request plc,
                PLCTAG_STATUS_PENDING)
      | [] => (w, NEXT_STATE st_dispatch_requests plc, PLCTAG_STATUS_OK)
      end.

(** ** Send and receive *)

(** A callback writes through the [uint8_t *] it is given: what it left
    in the buffer stays there on every path. *)
Definition wrote (r : call_result) (plc : plc_s) : plc_s :=
  set_data (res_data r) plc.

Definition state_reserve_space_for_tag_request (w : W) (plc : plc_s)
  : W * plc_s * status :=
  let r := reserve_space (top_layer plc) w (data plc) (data_capacity plc)
             0 0 0 in
  let w := res_world r in
  let plc := wrote r plc in
  if res_rc r <>?s PLCTAG_STATUS_OK then DISCONNECT_ON_ERROR w plc
  else
    let plc := set_payload_start (res_start r) plc in
    let plc := set_payload_end (res_end r) plc in
    let plc := set_current_request_id (res_req_id r) plc in
    (w, NEXT_STATE st_build_tag_request plc, PLCTAG_STATUS_PENDING).

(** [current_request->req_id = req_id] *)
Definition set_req_id (v : Z) (r : plc_request_s) : plc_request_s :=
  mk_request (req_addr r) (context r) v (build_request r)
    (process_response r).

(** The tail of [state_build_tag_request] once [done == true]. *)
Definition send_tag_request (w : W) (plc : plc_s) (data_end : Z)
  : W * plc_s * status :=
  if is_terminating plc then back_to_dispatch w plc
  else
    let plc := set_payload_end data_end plc in
    let plc := NEXT_STATE st_tag_request_sent plc in
    let '(w, rc) :=
      socket_callback_when_write_done env w (socket plc) (data plc)
        (payload_end plc) in
    if rc <>?s PLCTAG_STATUS_OK then DISCONNECT_ON_ERROR w plc
    else (w, plc, PLCTAG_STATUS_OK).

(** The [do { ... } while(!done)] of [state_build_tag_request].
    [current_request] is the part of the queue from the request being
    packed; [packed] is the part in front of it, so that the queue is
    [packed ++ current_request] on entry to every round. *)
Fixpoint build_tag_request_loop
    (current_request packed : list plc_request_s) (w : W) (plc : plc_s)
    (data_start data_end old_data_end req_id : Z) (first_try : bool)
  : W * plc_s * status :=
  if is_terminating plc then back_to_dispatch w plc
  else
    match current_request with
    | [] =>
        (w, set_state_func (Some st_dispatch_requests) plc,
         PLCTAG_STATUS_PENDING)
    | request :: rest =>
        let r := build_request request w (context request) (data plc)
                   (data_capacity plc) data_start data_end req_id in
        let w := res_world r in
        let plc := wrote r plc in
        let data_start := res_start r in
        let data_end := res_end r in
        let rc := res_rc r in
        if (rc <>?s PLCTAG_STATUS_OK) && (rc <>?s PLCTAG_ERR_TOO_SMALL)
        then DISCONNECT_ON_ERROR w plc
        else if (rc =?s PLCTAG_ERR_TOO_SMALL) && first_try
        then DISCONNECT_ON_ERROR w plc
        else
          let data_end :=
            if rc =?s PLCTAG_ERR_TOO_SMALL then old_data_end
            else data_end in
          let old_data_end :=
            if rc =?s PLCTAG_ERR_TOO_SMALL then old_data_end
            else data_end in
          let request := set_req_id req_id request in
          let plc := set_request_list (packed ++ request :: rest) plc in
          let r := build_layer (top_layer plc) w (data plc)
                     (data_capacity plc) data_start data_end req_id in
          let w := res_world r in
          let plc := wrote r plc in
          let data_start := res_start r in
          let data_end := res_end r in
          let req_id := res_req_id r in
          let rc := res_rc r in
          if (rc <>?s PLCTAG_STATUS_OK) && (rc <>?s PLCTAG_STATUS_PENDING)
          then DISCONNECT_ON_ERROR w plc
          else if rc =?s PLCTAG_STATUS_OK
          then send_tag_request w plc data_end
          else
            match rest with
            | _ :: _ =>
                build_tag_request_loop rest (packed ++ [request]) w plc
                  data_start data_end old_data_end req_id false
            | [] => send_tag_request w plc old_data_end
            end
    end.

Definition state_build_tag_request (w : W) (plc : plc_s)
  : W * plc_s * status :=
  build_tag_request_loop (request_list plc) [] w plc
    (payload_start plc) (payload_end plc) (payload_end plc)
    (current_request_id plc) true.

Definition state_tag_request_sent (w : W) (plc : plc_s)
  : W * plc_s * status :=
  let '(w, rc) := socket_status env w (socket plc) in
  if rc =?s PLCTAG_STATUS_PENDING then (w, plc, PLCTAG_STATUS_OK)
  else if rc <>?s PLCTAG_STATUS_OK then DISCONNECT_ON_ERROR w plc
  else
    let r := reserve_space (top_layer plc) w (data plc) (data_capacity plc)
               0 0 0 in
    let w := res_world r in
    let plc := wrote r plc in
    if res_rc r <>?s PLCTAG_STATUS_OK then DISCONNECT_ON_ERROR w plc
    else
      let plc := NEXT_STATE st_tag_response_ready plc in
      let plc := set_payload_start 0 plc in
      let plc := set_payload_end 0 plc in
      let '(w, rc) :=
        socket_callback_when_read_done env w (socket plc) (data plc)
          (data_capacity plc) (payload_end plc) in
      if rc <>?s PLCTAG_STATUS_OK then DISCONNECT_ON_ERROR w plc
      else (w, plc, PLCTAG_STATUS_OK).

(** [done] is initialised to [true] and no statement of the function
    assigns [false] to it, so the body of its [do { ... } while(!done)]
    runs once. *)
Definition state_tag_response_ready (w : W) (plc : plc_s)
  : W * plc_s * status :=
  if is_terminating plc then back_to_dispatch w plc
  else
    let '(w, rc) := socket_status env w (socket plc) in
    if rc =?s PLCTAG_STATUS_PENDING then (w, plc, PLCTAG_STATUS_OK)
    else if rc <>?s PLCTAG_STATUS_OK then DISCONNECT_ON_ERROR w plc
    else
      let r := layer_process_response (top_layer plc) w (data plc)
                 (data_capacity plc) 0 (payload_end plc) 0 in
      let w := res_world r in
      let plc := wrote r plc in
      let data_start := res_start r in
      let data_end := res_end r in
      let resp_id := res_req_id r in
      let rc := res_rc r in
      if (rc <>?s PLCTAG_STATUS_OK) && (rc <>?s PLCTAG_ERR_PARTIAL)
      then DISCONNECT_ON_ERROR w plc
      else if rc =?s PLCTAG_ERR_PARTIAL then
        let plc := NEXT_STATE st_tag_response_ready plc in
        let '(w, rc) :=
          socket_callback_when_read_done env w (socket plc) (data plc)
            (data_capacity plc) (payload_end plc) in
        if rc <>?s PLCTAG_STATUS_OK then DISCONNECT_ON_ERROR w plc
        else (w, plc, PLCTAG_STATUS_OK)
      else
        match request_list plc with
        | request :: rest =>
            if resp_id =? req_id request then
              let plc := set_request_list rest plc in
              let r := process_response request w (context request)
                         (data plc) (data_capacity plc) data_start
                         data_end (req_id request) in
              let w := res_world r in
              let plc := wrote r plc in
              if res_rc r <>?s PLCTAG_STATUS_OK
              then DISCONNECT_ON_ERROR w plc
              else (w, NEXT_STATE st_dispatch_requests plc,
                    PLCTAG_STATUS_PENDING)
            else (w, NEXT_STATE st_dispatch_requests plc,
                  PLCTAG_STATUS_PENDING)
        | [] => (w, NEXT_STATE st_dispatch_requests plc,
                 PLCTAG_STATUS_PENDING)
        end.

(** ** Connect *)

Definition state_start_connect (w : W) (plc : plc_s)
  : W * plc_s * status :=
  if is_terminating plc then back_to_dispatch w plc
  else
    let '(w, now) := event_loop_time env w in
    if next_retry_time plc >? now then back_to_dispatch w plc
    else if is_connected plc then back_to_dispatch w plc
    else
      let '(w, plc, rc) :=
        match socket plc with
        | None =>
            let '(w, sock, rc) := socket_create env w in
            (w, set_socket sock plc, rc)
        | Some _ => (w, plc, PLCTAG_STATUS_OK)
        end in
      if rc <>?s PLCTAG_STATUS_OK then RESET_ON_ERROR w plc
      else
        let '(w, rc) := initialize (top_layer plc) w in
        if rc <>?s PLCTAG_STATUS_OK then DISCONNECT_ON_ERROR w plc
        else
          let plc := NEXT_STATE st_build_layer_connect_request plc in
          let '(w, rc) :=
            socket_callback_when_connection_ready env w (socket plc)
              (host plc) (port plc) in
          if rc <>?s PLCTAG_STATUS_OK then DISCONNECT_ON_ERROR w plc
          else (w, plc, PLCTAG_STATUS_OK).

(** A layer operation that is handed [&plc->payload_start] and
    [&plc->payload_end]. *)
Definition wrote_payload (r : call_result) (plc : plc_s) : plc_s :=
  set_payload_end (res_end r) (set_payload_start (res_start r) (wrote r plc)).

Definition state_build_layer_connect_request (w : W) (plc : plc_s)
  : W * plc_s * status :=
  if is_terminating plc then back_to_dispatch w plc
  else
    let '(w, rc) := socket_status env w (socket plc) in
    if rc =?s PLCTAG_STATUS_PENDING then (w, plc, PLCTAG_STATUS_OK)
    else if rc <>?s PLCTAG_STATUS_OK then DISCONNECT_ON_ERROR w plc
    else
      let plc := set_payload_start 0 plc in
      let plc := set_payload_end 0 plc in
      let r := connect (top_layer plc) w (data plc) (data_capacity plc)
                 (payload_start plc) (payload_end plc) in
      let w := res_world r in
      let plc := wrote_payload r plc in
      let rc := res_rc r in
      if (rc <>?s PLCTAG_STATUS_OK) && (rc <>?s PLCTAG_STATUS_PENDING)
      then DISCONNECT_ON_ERROR w plc
      else if rc =?s PLCTAG_STATUS_OK then
        let plc := set_is_connected true plc in
        (w, NEXT_STATE st_dispatch_requests plc, PLCTAG_STATUS_OK)
      else
        let r := build_layer (top_layer plc) w (data plc)
                   (data_capacity plc) (payload_start plc)
                   (payload_end plc) (current_request_id plc) in
        let w := res_world r in
        let plc := wrote_payload r plc in
        let plc := set_current_request_id (res_req_id r) plc in
        if res_rc r <>?s PLCTAG_STATUS_OK then DISCONNECT_ON_ERROR w plc
        else
          let plc := NEXT_STATE st_layer_connect_request_sent plc in
          let '(w, rc) :=
            socket_callback_when_write_done env w (socket plc) (data plc)
              (payload_end plc) in
          if rc <>?s PLCTAG_STATUS_OK then DISCONNECT_ON_ERROR w plc
          else (w, plc, PLCTAG_STATUS_OK).

Definition state_layer_connect_request_sent (w : W) (plc : plc_s)
  : W * plc_s * status :=
  if is_terminating plc then back_to_dispatch w plc
  else
    let '(w, rc) := socket_status env w (socket plc) in
    if rc =?s PLCTAG_STATUS_PENDING then (w, plc, PLCTAG_STATUS_OK)
    else if rc <>?s PLCTAG_STATUS_OK then DISCONNECT_ON_ERROR w plc
    else
      let plc := set_payload_start 0 plc in
      let plc := set_payload_end 0 plc in
      let plc := NEXT_STATE st_layer_connect_response_ready plc in
      let '(w, rc) :=
        socket_callback_when_read_done env w (socket plc) (data plc)
          (data_capacity plc) (payload_end plc) in
      if rc <>?s PLCTAG_STATUS_OK then DISCONNECT_ON_ERROR w plc
      else (w, plc, PLCTAG_STATUS_OK).

Definition state_layer_connect_response_ready (w : W) (plc : plc_s)
  : W * plc_s * status :=
  if is_terminating plc then back_to_dispatch w plc
  else
    let '(w, rc) := socket_status env w (socket plc) in
    if rc =?s PLCTAG_STATUS_PENDING then (w, plc, PLCTAG_STATUS_OK)
    else if rc <>?s PLCTAG_STATUS_OK then DISCONNECT_ON_ERROR w plc
    else
      let r := layer_process_response (top_layer plc) w (data plc)
                 (data_capacity plc) 0 (payload_end plc)
                 (current_request_id plc) in
      let w := res_world r in
      let plc := wrote r plc in
      let plc := set_current_request_id (res_req_id r) plc in
      let rc := res_rc r in
      if rc =?s PLCTAG_ERR_PARTIAL then (w, plc, PLCTAG_STATUS_OK)
      else if rc =?s PLCTAG_STATUS_RETRY then
        (w, NEXT_STATE st_build_layer_connect_request plc,
         PLCTAG_STATUS_PENDING)
      else if rc <>?s PLCTAG_STATUS_OK then DISCONNECT_ON_ERROR w plc
      else (w, plc, rc).

(** ** Disconnect *)

Definition state_start_disconnect (w : W) (plc : plc_s)
  : W * plc_s * status :=
  if negb (is_connected plc) then back_to_dispatch w plc
  else
    let plc := set_payload_start 0 plc in
    let plc := set_payload_end 0 plc in
    (w, NEXT_STATE st_build_layer_disconnect_request plc,
     PLCTAG_STATUS_PENDING).

Definition state_build_layer_disconnect_request (w : W) (plc : plc_s)
  : W * plc_s * status :=
  let r := disconnect (top_layer plc) w (data plc) (data_capacity plc)
             0 (data_capacity plc) in
  let w := res_world r in
  let plc := wrote r plc in
  let data_start := res_start r in
  let data_end := res_end r in
  let rc := res_rc r in
  if (rc <>?s PLCTAG_STATUS_OK) && (rc <>?s PLCTAG_STATUS_PENDING)
  then RESET_ON_ERROR w plc
  else if rc =?s PLCTAG_STATUS_OK then
    (w, set_is_connected false plc, rc)
  else
    let r := build_layer (top_layer plc) w (data plc) (data_capacity plc)
               data_start data_end 0 in
    let w := res_world r in
    let plc := wrote r plc in
    let data_end := res_end r in
    if res_rc r <>?s PLCTAG_STATUS_OK then RESET_ON_ERROR w plc
    else
      let plc := set_payload_start 0 plc in
      let plc := set_payload_end data_end plc in
      let plc := NEXT_STATE st_layer_disconnect_request_sent plc in
      let '(w, rc) :=
        socket_callback_when_write_done env w (socket plc) (data plc)
          (payload_end plc) in
      if rc <>?s PLCTAG_STATUS_OK then RESET_ON_ERROR w plc
      else (w, plc, PLCTAG_STATUS_OK).

Definition state_layer_disconnect_request_sent (w : W) (plc : plc_s)
  : W * plc_s * status :=
  let '(w, rc) := socket_status env w (socket plc) in
  if rc =?s PLCTAG_STATUS_PENDING then (w, plc, PLCTAG_STATUS_OK)
  else if rc <>?s PLCTAG_STATUS_OK then RESET_ON_ERROR w plc
  else
    let plc := set_payload_start 0 plc in
    let plc := set_payload_end 0 plc in
    let plc := NEXT_STATE st_layer_disconnect_response_ready plc in
    let '(w, rc) :=
      socket_callback_when_read_done env w (socket plc) (data plc)
        (data_capacity plc) (payload_end plc) in
    if rc <>?s PLCTAG_STATUS_OK then RESET_ON_ERROR w plc
    else (w, plc, PLCTAG_STATUS_OK).

Definition state_layer_disconnect_response_ready (w : W) (plc : plc_s)
  : W * plc_s * status :=
  let '(w, rc) := socket_status env w (socket plc) in
  if rc =?s PLCTAG_STATUS_PENDING then (w, plc, PLCTAG_STATUS_OK)
  else if rc <>?s PLCTAG_STATUS_OK then RESET_ON_ERROR w plc
  else
    let r := layer_process_response (top_layer plc) w (data plc)
               (data_capacity plc) 0 (payload_end plc)
               (current_request_id plc) in
    let w := res_world r in
    let plc := wrote r plc in
    let plc := set_current_request_id (res_req_id r) plc in
    let rc := res_rc r in
    if rc =?s PLCTAG_ERR_PARTIAL then
      let plc := NEXT_STATE st_layer_disconnect_response_ready plc in
      let '(w, rc) :=
        socket_callback_when_read_done env w (socket plc) (data plc)
          (data_capacity plc) (payload_end plc) in
      if rc <>?s PLCTAG_STATUS_OK then RESET_ON_ERROR w plc
      else (w, plc, PLCTAG_STATUS_OK)
    else if (rc <>?s PLCTAG_STATUS_OK) && (rc <>?s PLCTAG_STATUS_PENDING)
    then RESET_ON_ERROR w plc
    else if rc =?s PLCTAG_STATUS_PENDING then
      (w, NEXT_STATE st_build_layer_disconnect_request plc,
       PLCTAG_STATUS_PENDING)
    else (w, set_is_connected false plc, rc).

Definition state_terminate (w : W) (plc : plc_s) : W * plc_s * status :=
  (w, plc, PLCTAG_STATUS_OK).

(** ** The state runner *)

(** [plc->state_func(plc)] *)
Definition run_state (s : state_id) : W -> plc_s -> W * plc_s * status :=
  match s with
  | st_dispatch_requests => state_dispatch_requests
  | st_reserve_space_for_tag_request => state_reserve_space_for_tag_request
  | st_build_tag_request => state_build_tag_request
  | st_tag_request_sent => state_tag_request_sent
  | st_tag_response_ready => state_tag_response_ready
  | st_start_connect => state_start_connect
  | st_build_layer_connect_request => state_build_layer_connect_request
  | st_layer_connect_request_sent => state_layer_connect_request_sent
  | st_layer_connect_response_ready => state_layer_connect_response_ready
  | st_start_disconnect => state_start_disconnect
  | st_build_layer_disconnect_request =>
      state_build_layer_disconnect_request
  | st_layer_disconnect_request_sent => state_layer_disconnect_request_sent
  | st_layer_disconnect_response_ready =>
      state_layer_disconnect_response_ready
  | st_terminate => state_terminate
  end.

(** [plc_state_runner]: [do { rc = plc->state_func(plc); } while(rc ==
    PLCTAG_STATUS_PENDING)].  The loop has no bound in the source; the
    model runs at most [fuel] state functions and answers [None] when
    that was not enough to reach a state function that yields, or when
    [state_func] is null. *)
Fixpoint plc_state_runner (fuel : nat) (w : W) (plc : plc_s)
  : option (W * plc_s) :=
  match fuel, state_func plc with
  | S fuel, Some s =>
      let '(w, plc, rc) := run_state s w plc in
      if rc =?s PLCTAG_STATUS_PENDING then plc_state_runner fuel w plc
      else Some (w, plc)
  | _, _ => None
  end.

Definition in_dispatch (plc : plc_s) : bool :=
  match state_func plc with
  | Some s => state_id_eqb s st_dispatch_requests
  | None => false
  end.

(** ** The API of plc.h *)

(** [plc_p]: null or a PLC. *)
Definition plc_p : Type := option plc_s.

Definition plc_initialize (w : W) (plc : plc_p) : W * plc_p * status :=
  match plc with
  | None => (w, None, PLCTAG_ERR_NULL_PTR)
  | Some plc =>
      let '(w, plc) := reset_plc w plc in
      (w, Some plc, PLCTAG_STATUS_OK)
  end.

(** The getters return an [int] that is either the value or a status
    code. *)
Definition plc_get_idle_timeout (plc : plc_p) : status + Z :=
  match plc with
  | None => inl PLCTAG_ERR_NULL_PTR
  | Some plc => inr (idle_timeout_ms plc)
  end.

Definition plc_set_idle_timeout (plc : plc_p) (timeout_ms : Z)
  : plc_p * (status + Z) :=
  match plc with
  | None => (None, inl PLCTAG_ERR_NULL_PTR)
  | Some plc =>
      if (timeout_ms <? 0) || (timeout_ms >? 5000)
      then (Some plc, inl PLCTAG_ERR_OUT_OF_BOUNDS)
      else (Some (set_idle_timeout_ms timeout_ms plc),
            inr (idle_timeout_ms plc))
  end.

Definition plc_get_buffer_size (plc : plc_p) : status + Z :=
  match plc with
  | None => inl PLCTAG_ERR_NULL_PTR
  | Some plc => inr (payload_end plc)
  end.

Definition plc_set_buffer_size (w : W) (plc : plc_p) (buffer_size : Z)
  : W * plc_p * status :=
  match plc with
  | None => (w, None, PLCTAG_ERR_NULL_PTR)
  | Some plc =>
      if buffer_size <=? 0 then (w, Some plc, PLCTAG_ERR_TOO_SMALL)
      else if buffer_size >? data_capacity plc then
        let '(w, d) := mem_realloc env w (data plc) buffer_size in
        let plc := set_data d plc in
        match d with
        | None => (w, Some plc, PLCTAG_ERR_NO_MEM)
        | Some _ =>
            (w, Some (set_data_capacity buffer_size plc), PLCTAG_STATUS_OK)
        end
      else (w, Some plc, PLCTAG_STATUS_OK)
  end.

(** The walker of [plc_start_request] and [plc_stop_request] stops at
    the object whose address is [request]. *)
Fixpoint queued (request : Z) (l : list plc_request_s) : bool :=
  match l with
  | [] => false
  | r :: l => if req_addr r =? request then true else queued request l
  end.

(** The critical block of [plc_start_request], with the [rc] it leaves. *)
Definition plc_start_request_block (fuel : nat) (w : W) (plc : plc_s)
    (request client : Z) (build_request_callback
    process_response_callback : request_callback)
  : option (W * plc_s * status) :=
  if queued request (request_list plc)
  then Some (w, plc, PLCTAG_ERR_BUSY)
  else
    let r := mk_request request client (-1) build_request_callback
               process_response_callback in
    let plc := set_request_list (request_list plc ++ [r]) plc in
    if in_dispatch plc then
      match plc_state_runner fuel w plc with
      | Some (w, plc) => Some (w, plc, PLCTAG_STATUS_OK)
      | None => None
      end
    else Some (w, plc, PLCTAG_STATUS_OK).

(** [plc_start_request]: [rc] is logged, the function ends in
    [return PLCTAG_STATUS_OK;]. *)
Definition plc_start_request (fuel : nat) (w : W) (plc : plc_s)
    (request client : Z) (build_request_callback
    process_response_callback : request_callback)
  : option (W * plc_s * status) :=
  match plc_start_request_block fuel w plc request client
          build_request_callback process_response_callback with
  | Some (w, plc, _) => Some (w, plc, PLCTAG_STATUS_OK)
  | None => None
  end.

(** [*walker = request->next] at the first object whose address is
    [request]. *)
Fixpoint unlink (request : Z) (l : list plc_request_s)
  : option (list plc_request_s) :=
  match l with
  | [] => None
  | r :: l =>
      if req_addr r =? request then Some l
      else option_map (cons r) (unlink request l)
  end.

Definition plc_stop_request (plc : plc_s) (request : Z) : plc_s * status :=
  match unlink request (request_list plc) with
  | Some l => (set_request_list l plc, PLCTAG_STATUS_OK)
  | None => (plc, PLCTAG_ERR_NOT_FOUND)
  end.

(** ** The registry *)

(** A null [top_layer].  Calling through it is undefined in C; here
    such a call changes nothing and answers [PLCTAG_ERR_NULL_PTR]. *)
Definition null_layer : plc_layer_s :=
  let f : callback := fun w d _ s e id =>
    mk_call w d s e id PLCTAG_ERR_NULL_PTR in
  mk_layer (fun w => (w, PLCTAG_ERR_NULL_PTR))
    (fun w d c s e => f w d c s e 0) (fun w d c s e => f w d c s e 0)
    f f f.

(** Modelled from the spec: [rc_alloc] is not defined in plc.c, and the
    spec only says that a new PLC is allocated.  The object is taken
    zero-filled; plc.c relies on that, it reads [plc->socket],
    [plc->request_list], [plc->data_capacity] and the timing fields
    without having assigned them. *)
Definition blank_plc : plc_s :=
  mk_plc "" false None 0 None [] 0 null_layer None None 0 0 0 0 0 0 0 false.

(** The registry [plc_list]: the PLCs in list order, each with its
    address. *)
Definition registry : Type := list (Z * plc_s).

(** The [for] loop of [plc_get] that walks [plc_list]. *)
Fixpoint plc_get_find (plc_key : string) (l : registry)
  : option (Z * plc_s) :=
  match l with
  | [] => None
  | (a, plc) :: l =>
      if negb (str_cmp_i plc_key (key plc) =? 0) then Some (a, plc)
      else plc_get_find plc_key l
  end.

(** The port part of [plc_get]: [host_segments[1]], when present and
    not empty, overrides [default_port]. *)
Definition plc_get_port (host_segments : list string) (port : Z)
  : option Z :=
  match nth_error host_segments 1 with
  | Some p =>
      if Z.of_nat (String.length p) =? 0 then Some port
      else
        let '(rc, port) := str_to_int env p in
        if rc <>?s PLCTAG_STATUS_OK then None
        else if (port <=? 0) || (port >? 65535) then None
        else Some port
  | None => Some port
  end.

(** The branch of [plc_get] that makes a new PLC.  The dialect
    constructor receives the attribute bag by pointer: what it leaves
    in the bag is what [plc_get] reads from there on.  [plc->host] is
    what [str_dup] returns; plc.c does not look at it.

    On the error paths the PLC is released with [rc_dec].  That runs
    the destructor [plc_rc_destroy], which is not part of this model:
    it calls [reset_plc], and with that through [plc->top_layer], which
    is null as long as no layer was pushed.  What is left after these
    paths is what [rc_dec] of the environment says; the properties of
    [plc_get] below speak of the other paths. *)
Definition plc_get_create (w : W) (plc_list : registry) (plc_key : string)
    (attribs : attr)
    (constructor : W -> plc_s -> attr -> W * plc_s * attr * status)
  : W * registry * status * option Z :=
  let '(w, a) := rc_alloc env w in
  match a with
  | None => (w, plc_list, PLCTAG_ERR_NO_MEM, None)
  | Some a =>
  let plc := set_key plc_key blank_plc in
  let '(w, rc) := mutex_create env w in
  if rc <>?s PLCTAG_STATUS_OK then (rc_dec env w a plc, plc_list, rc, None)
  else
  let '(w, plc, attribs, rc) := constructor w plc attribs in
  if rc <>?s PLCTAG_STATUS_OK then (rc_dec env w a plc, plc_list, rc, None)
  else
  let bad_gateway :=
    (rc_dec env w a plc, plc_list, PLCTAG_ERR_BAD_GATEWAY, None) in
  let port := attr_get_int env attribs "default_port" 0 in
  match attr_get_str env attribs "gateway" None with
  | None => bad_gateway
  | Some host_args =>
  if Z.of_nat (String.length host_args) =? 0 then bad_gateway
  else
  match str_split env host_args ":" with
  | None => bad_gateway
  | Some host_segments =>
  match nth_error host_segments 0 with
  | None => bad_gateway
  | Some h =>
  if Z.of_nat (String.length h) =? 0 then bad_gateway
  else
  let '(w, copied) := str_dup env w h in
  let plc := set_host (if copied then Some h else None) plc in
  match plc_get_port host_segments port with
  | None => (rc_dec env w a plc, plc_list, PLCTAG_ERR_BAD_GATEWAY, None)
  | Some port =>
  let plc :=
    set_idle_timeout_ms
      (attr_get_int env attribs "idle_timeout_ms" DEFAULT_IDLE_TIMEOUT_MS)
      plc in
  let '(w, rc) := timer_event_create env w in
  if rc <>?s PLCTAG_STATUS_OK then (rc_dec env w a plc, plc_list, rc, None)
  else
  let '(w, now) := time_ms env w in
  let '(w, rc) :=
    timer_event_wake_at env w (int64 (now + PLC_HEARTBEAT_INTERVAL_MS)) in
  if rc <>?s PLCTAG_STATUS_OK
  then (rc_dec env (timer_event_snooze env w) a plc, plc_list, rc, None)
  else
  let plc := set_port port plc in
  let plc := set_state_func (Some st_dispatch_requests) plc in
  (w, (a, plc) :: plc_list, PLCTAG_STATUS_OK, Some a)
  end end end end end.

(** [plc_get]: the registry after the call, the return code and
    [*plc_return]. *)
Definition plc_get (w : W) (plc_list : registry) (plc_type : string)
    (attribs : attr)
    (constructor : W -> plc_s -> attr -> W * plc_s * attr * status)
  : W * registry * status * option Z :=
  match attr_get_str env attribs "gateway" None with
  | None => (w, plc_list, PLCTAG_ERR_BAD_GATEWAY, None)
  | Some gateway =>
      if Z.of_nat (String.length gateway) =? 0
      then (w, plc_list, PLCTAG_ERR_BAD_GATEWAY, None)
      else
        let path := attr_get_str env attribs "path" (Some "NO_PATH"%string) in
        let '(w, plc_key) :=
          str_concat env w
            [Some plc_type; Some "/"%string; Some gateway;
             Some "/"%string; path] in
        match plc_key with
        | None => (w, plc_list, PLCTAG_ERR_NO_MEM, None)
        | Some plc_key =>
            match plc_get_find plc_key plc_list with
            | Some (a, _) =>
                let '(w, got) := rc_inc env w a in
                if got then (w, plc_list, PLCTAG_STATUS_OK, Some a)
                else plc_get_create w plc_list plc_key attribs constructor
            | None =>
                plc_get_create w plc_list plc_key attribs constructor
            end
        end
  end.

End Engine.

Arguments blank_plc {W}.
Arguments null_layer {W}.

(** ** A simulated environment

    A world that can be run: a clock, an address counter and a log of
    the calls that left plc.c.  The socket, the mutex and the timers
    always succeed; strings and attributes are plain. *)
Module Sim.

Inductive event : Type :=
| EvSocketCreate
| EvSocketClose
| EvConnectArmed
| EvWriteArmed (len : Z)
| EvReadArmed
| EvInitialize
| EvLayer (data_start data_end : Z)
| EvBuildRequest (client : Z) (rc : status)
| EvProcessResponse (client data_start data_end req_num : Z).

Record world : Type := mk_world {
  now : Z;
  next_addr : Z;
  log : list event }.

Definition record (e : event) (w : world) : world :=
  mk_world (now w) (next_addr w) (log w ++ [e]).

Definition attrs : Type := list (string * string).

Fixpoint get_str (a : attrs) (name : string) (default : option string)
  : option string :=
  match a with
  | [] => default
  | (k, v) :: a => if String.eqb k name then Some v else get_str a name default
  end.

Fixpoint parse_digits (s : string) (acc : Z) : option Z :=
  match s with
  | EmptyString => Some acc
  | String c s =>
      let n := Z.of_nat (nat_of_ascii c) in
      if (48 <=? n) && (n <=? 57) then parse_digits s (10 * acc + (n - 48))
      else None
  end.

Definition to_int (s : string) : status * Z :=
  match s with
  | EmptyString => (PLCTAG_ERR_OTHER, 0)
  | _ =>
      match parse_digits s 0 with
      | Some v => (PLCTAG_STATUS_OK, v)
      | None => (PLCTAG_ERR_OTHER, 0)
      end
  end.

Definition get_int (a : attrs) (name : string) (default : Z) : Z :=
  match get_str a name None with
  | Some s =>
      match to_int s with
      | (PLCTAG_STATUS_OK, v) => v
      | _ => default
      end
  | None => default
  end.

Fixpoint split_on (c : ascii) (s : string) : list string :=
  match s with
  | EmptyString => [EmptyString]
  | String x s =>
      if Ascii.eqb x c then EmptyString :: split_on c s
      else
        match split_on c s with
        | h :: t => String x h :: t
        | [] => [String x EmptyString]
        end
  end.

Definition split (s sep : string) : option (list string) :=
  match sep with
  | String c EmptyString => Some (split_on c s)
  | _ => None
  end.

Fixpoint concat (l : list (option string)) : string :=
  match l with
  | Some s :: l => (s ++ concat l)%string
  | _ => EmptyString
  end.

(** [mem_realloc]: the old bytes, cut or filled with zeros to [size]. *)
Definition realloc (d : buffer) (size : Z) : buffer :=
  let old := match d with Some l => l | None => [] end in
  let n := Z.to_nat size in
  Some (firstn n old ++ repeat 0 (n - List.length old)).

Definition env : Env world attrs :=
  mk_env
    (fun w => (w, now w))
    (fun w => (w, now w))
    (fun w => (record EvSocketCreate w, Some 1, PLCTAG_STATUS_OK))
    (fun w _ => record EvSocketClose w)
    (fun w _ => (w, PLCTAG_STATUS_OK))
    (fun w _ _ _ => (record EvConnectArmed w, PLCTAG_STATUS_OK))
    (fun w _ _ len => (record (EvWriteArmed len) w, PLCTAG_STATUS_OK))
    (fun w _ _ _ _ => (record EvReadArmed w, PLCTAG_STATUS_OK))
    (fun w d size => (w, realloc d size))
    get_str get_int
    (fun w l => (w, Some (concat l)))
    (fun w _ => (w, true))
    split to_int
    (fun w => (mk_world (now w) (next_addr w + 1) (log w),
               Some (next_addr w)))
    (fun w _ => (w, true))
    (fun w _ _ => w)
    (fun w => (w, PLCTAG_STATUS_OK))
    (fun w => (w, PLCTAG_STATUS_OK))
    (fun w _ => (w, PLCTAG_STATUS_OK))
    (fun w => w).

(** The same environment with an allocator that is out of memory. *)
Definition env_no_mem : Env world attrs :=
  mk_env (time_ms env) (event_loop_time env) (socket_create env)
    (socket_close env) (socket_status env)
    (socket_callback_when_connection_ready env)
    (socket_callback_when_write_done env)
    (socket_callback_when_read_done env)
    (fun w _ _ => (w, None))
    get_str get_int (str_concat env) (str_dup env) split to_int
    (rc_alloc env)
    (rc_inc env) (rc_dec env) (mutex_create env) (timer_event_create env)
    (timer_event_wake_at env) (timer_event_snooze env).

(** A layer stack given by what each operation answers from the
    capacity, the offsets and the request id it receives. *)
Definition layer
    (on_connect on_disconnect : Z -> Z -> Z -> Z * Z * status)
    (on_reserve on_build on_response : Z -> Z -> Z -> Z -> Z * Z * Z * status)
  : plc_layer_s world :=
  let op2 f : world -> buffer -> Z -> Z -> Z -> call_result world :=
    fun w d cap s e =>
      let '(s', e', rc) := f cap s e in
      mk_call (record (EvLayer s' e') w) d s' e' 0 rc in
  let op3 f : callback world :=
    fun w d cap s e id =>
      let '(s', e', id', rc) := f cap s e id in
      mk_call (record (EvLayer s' e') w) d s' e' id' rc in
  mk_layer (fun w => (record EvInitialize w, PLCTAG_STATUS_OK))
    (op2 on_connect) (op2 on_disconnect)
    (op3 on_reserve) (op3 on_build) (op3 on_response).

(** A request that needs [size] bytes: it fills [data_start ..
    data_start + size) and leaves [data_end] behind them, or answers
    [PLCTAG_ERR_TOO_SMALL]. *)
Definition build_bytes (size : Z) : request_callback world :=
  fun w client d cap s e id =>
    if s + size <=? e
    then mk_call (record (EvBuildRequest client PLCTAG_STATUS_OK) w)
           d s (s + size) id PLCTAG_STATUS_OK
    else mk_call (record (EvBuildRequest client PLCTAG_ERR_TOO_SMALL) w)
           d s e id PLCTAG_ERR_TOO_SMALL.

(** A response handler that accepts whatever slice it is given. *)
Definition accept_response : request_callback world :=
  fun w client d cap s e id =>
    mk_call (record (EvProcessResponse client s e id) w) d s e id
      PLCTAG_STATUS_OK.

Definition request (addr id size : Z) : plc_request_s world :=
  mk_request addr addr id (build_bytes size) accept_response.

Definition start : world := mk_world 1000 1 [].

(** The same world when the clock reads [t]. *)
Definition at_time (t : Z) (w : world) : world :=
  mk_world t (next_addr w) (log w).

End Sim.

(** ** Scenarios *)
Module Scenario.

Import Sim.

(** A one-layer stack with a 4-byte header.  It reserves [4 .. capacity),
    lets the next request start where the last one ended and always
    answers that another request may be packed; of a received frame it
    hands over the bytes after the header as the response to request 7. *)
Definition packing_layer : plc_layer_s world :=
  layer (fun cap s e => (s, e, PLCTAG_STATUS_OK))
    (fun cap s e => (s, e, PLCTAG_STATUS_OK))
    (fun cap s e id => (4, cap, 7, PLCTAG_STATUS_OK))
    (fun cap s e id => (e, cap, id + 1, PLCTAG_STATUS_PENDING))
    (fun cap s e id => (4, e, 7, PLCTAG_STATUS_OK)).

(** The same stack reading a frame that packs two responses: it hands
    over the first one, [4 .. 14), and answers that more remain. *)
Definition packed_response_layer : plc_layer_s world :=
  layer (fun cap s e => (s, e, PLCTAG_STATUS_OK))
    (fun cap s e => (s, e, PLCTAG_STATUS_OK))
    (fun cap s e id => (4, cap, 7, PLCTAG_STATUS_OK))
    (fun cap s e id => (e, cap, id + 1, PLCTAG_STATUS_PENDING))
    (fun cap s e id => (4, 14, 7, PLCTAG_STATUS_PENDING)).

(** A connected PLC with a buffer of [capacity] bytes. *)
Definition plc (top : plc_layer_s world) (queue : list (plc_request_s world))
    (state : state_id) (capacity idle_deadline : Z) : plc_s world :=
  mk_plc "ab2/10.0.0.1/1,0" false (Some "10.0.0.1"%string) 44818 (Some 1)
    queue 0 top
    (Some state) (Some (repeat 0 (Z.to_nat capacity))) capacity 0 0 0 0
    5000 idle_deadline true.

(** Dispatch with a request queued, no connection, and a retry time
    that lies 1000 ms ahead of the clock. *)
Definition waiting_for_retry : plc_s world :=
  set_next_retry_time 2000
    (set_is_connected false
       (plc packing_layer [request 101 (-1) 10] st_dispatch_requests 64 0)).

(** Three requests of 10, 60 and 10 bytes before a 64-byte buffer, space
    reserved. *)
Definition three_requests : plc_s world :=
  set_current_request_id 7
    (set_payload_end 64
       (set_payload_start 4
          (plc packing_layer
             [request 101 (-1) 10; request 102 (-1) 60;
              request 103 (-1) 10]
             st_build_tag_request 64 6000))).

(** One request of 40 bytes before a 20-byte buffer, space reserved. *)
Definition one_large_request : plc_s world :=
  set_current_request_id 7
    (set_payload_end 20
       (set_payload_start 4
          (plc packing_layer [request 101 (-1) 40] st_build_tag_request
             20 6000))).

(** A frame of 24 bytes has arrived for the two requests in flight. *)
Definition two_in_flight (top : plc_layer_s world) (idle_deadline : Z)
  : plc_s world :=
  set_payload_end 24
    (plc top [request 101 7 10; request 102 8 10] st_tag_response_ready
       64 idle_deadline).

(** A stack that reserves [10 .. capacity) and reports a finished frame
    as [0 .. 5); every offset it answers is cut to the capacity. *)
Definition short_frame_layer : plc_layer_s world :=
  layer (fun cap s e => (0, 0, PLCTAG_STATUS_OK))
    (fun cap s e => (0, 0, PLCTAG_STATUS_OK))
    (fun cap s e id => (Z.min 10 cap, cap, 7, PLCTAG_STATUS_OK))
    (fun cap s e id => (0, Z.min 5 cap, id, PLCTAG_STATUS_OK))
    (fun cap s e id => (0, 0, id, PLCTAG_STATUS_OK)).

(** A request that reports its bytes as [10 .. 14), cut to the capacity. *)
Definition fixed_request (addr : Z) : plc_request_s world :=
  mk_request addr addr (-1)
    (fun w c d cap s e id =>
       mk_call (record (EvBuildRequest c PLCTAG_STATUS_OK) w) d
         (Z.min 10 cap) (Z.min 14 cap) id PLCTAG_STATUS_OK)
    (fun w c d cap s e id => mk_call w d 0 0 id PLCTAG_STATUS_OK).

(** That request before a 64-byte buffer, [10 .. 64) reserved. *)
Definition short_frame : plc_s world :=
  set_current_request_id 7
    (set_payload_end 64
       (set_payload_start 10
          (plc short_frame_layer [fixed_request 101] st_build_tag_request
             64 6000))).

(** The same with nothing reserved yet: the payload is [0 .. 0). *)
Definition short_frame_unreserved : plc_s world :=
  plc short_frame_layer [fixed_request 101] st_build_tag_request 64 6000.

(** The registry with one PLC, at address 50, that was made for type
    ab2, gateway 10.0.0.1 and path 1,0. *)
Definition one_plc : registry world :=
  [(50, plc packing_layer [] st_dispatch_requests 64 0)].

Definition same_attribs : attrs :=
  [("gateway", "10.0.0.1"); ("path", "1,0")]%string.

Definition other_attribs : attrs :=
  [("gateway", "10.0.0.2"); ("path", "1,0")]%string.

(** A dialect constructor that pushes the one-layer stack and leaves
    the attribute bag as it is. *)
Definition constructor (w : world) (p : plc_s world) (a : attrs)
  : world * plc_s world * attrs * status :=
  (w,
   mk_plc (key p) (is_terminating p) (host p) (port p) (socket p)
     (request_list p) (current_request_id p) packing_layer (state_func p)
     (data p) (data_capacity p) (payload_end p) (payload_start p)
     (retry_interval_ms p) (next_retry_time p) (idle_timeout_ms p)
     (next_idle_timeout p) (is_connected p),
   a,
   PLCTAG_STATUS_OK).

(** The addresses and keys of a registry, in list order. *)
Definition keys (l : registry world) : list (Z * string) :=
  map (fun e => (fst e, key (snd e))) l.

End Scenario.

(** * Properties *)

Lemma status_eqb_eq (a b : status) : status_eqb a b = true <-> a = b.
Proof.
  unfold status_eqb; destruct (status_eq_dec a b); split; intros;
    congruence.
Qed.

Lemma status_eqb_refl (a : status) : status_eqb a a = true.
Proof. now apply status_eqb_eq. Qed.

Lemma status_eqb_neq (a b : status) : a <> b -> status_eqb a b = false.
Proof.
  intros H; unfold status_eqb; destruct (status_eq_dec a b); congruence.
Qed.

(** Splits the goal along the innermost [match] of the goal. *)
Ltac break_match :=
  match goal with
  | |- context [match ?x with _ => _ end] =>
      lazymatch x with
      | context [match _ with _ => _ end] => fail
      | _ => destruct x eqn:?
      end
  end.

(** ** The two error policies *)

(** What both policies do to [retry_interval_ms]. *)
Definition backoff (retry_interval : Z) : Z :=
  let r := int32 (retry_interval * 2) in
  if r >? MAX_RETRY_INTERVAL_MS then MAX_RETRY_INTERVAL_MS else r.

Section Policies.

Variables (W attr : Type) (env : Env W attr).

Lemma DISCONNECT_ON_ERROR_retry (w : W) (plc : plc_s W) :
  retry_interval_ms (snd (fst (DISCONNECT_ON_ERROR env w plc)))
  = backoff (retry_interval_ms plc).
Proof.
  unfold DISCONNECT_ON_ERROR, backoff; cbn.
  destruct (int32 (retry_interval_ms plc * 2) >? MAX_RETRY_INTERVAL_MS);
    destruct (time_ms env w); reflexivity.
Qed.

Lemma RESET_ON_ERROR_retry (w : W) (plc : plc_s W) :
  retry_interval_ms (snd (fst (RESET_ON_ERROR env w plc)))
  = backoff (retry_interval_ms plc).
Proof.
  unfold RESET_ON_ERROR, reset_plc, backoff.
  destruct (initialize (top_layer plc) _) as [w1 rc]; cbn.
  destruct (int32 (retry_interval_ms plc * 2) >? MAX_RETRY_INTERVAL_MS);
    destruct (time_ms env w1); reflexivity.
Qed.

(** A run of consecutive errors: [true] is handled by
    [DISCONNECT_ON_ERROR], [false] by [RESET_ON_ERROR]. *)
Fixpoint consecutive_errors (policies : list bool) (w : W) (plc : plc_s W)
  : W * plc_s W :=
  match policies with
  | [] => (w, plc)
  | p :: policies =>
      let '(w, plc, _) :=
        if p : bool then DISCONNECT_ON_ERROR env w plc
        else RESET_ON_ERROR env w plc in
      consecutive_errors policies w plc
  end.

Lemma consecutive_errors_retry (policies : list bool) :
  forall w plc,
    retry_interval_ms (snd (consecutive_errors policies w plc))
    = Nat.iter (List.length policies) backoff (retry_interval_ms plc).
Proof.
  induction policies as [|p policies IH]; intros w plc; [reflexivity|].
  cbn [consecutive_errors List.length].
  rewrite Nat.iter_succ_r.
  destruct p.
  - pose proof (DISCONNECT_ON_ERROR_retry w plc) as E.
    destruct (DISCONNECT_ON_ERROR env w plc) as [[w1 plc1] rc].
    rewrite IH; cbn in E; now rewrite E.
  - pose proof (RESET_ON_ERROR_retry w plc) as E.
    destruct (RESET_ON_ERROR env w plc) as [[w1 plc1] rc].
    rewrite IH; cbn in E; now rewrite E.
Qed.

End Policies.

Lemma backoff_doubles (r : Z) :
  0 <= r <= MAX_RETRY_INTERVAL_MS ->
  backoff r = Z.min (2 * r) MAX_RETRY_INTERVAL_MS.
Proof.
  unfold backoff, int32, wrap, MAX_RETRY_INTERVAL_MS; intros H.
  rewrite Z.mod_small by (change (2 ^ 32) with 4294967296; lia).
  change (2 ^ (32 - 1)) with 2147483648.
  destruct (r * 2 >=? 2147483648) eqn:E1; [lia|].
  destruct (r * 2 >? 16000) eqn:E2; lia.
Qed.

Lemma backoff_in_range (r : Z) :
  500 <= r <= MAX_RETRY_INTERVAL_MS ->
  MIN_RETRY_INTERVAL_MS <= backoff r <= MAX_RETRY_INTERVAL_MS.
Proof.
  intros H; rewrite backoff_doubles by lia.
  unfold MIN_RETRY_INTERVAL_MS, MAX_RETRY_INTERVAL_MS in *; lia.
Qed.

Lemma backoff_iter_zero (n : nat) : Nat.iter n backoff 0 = 0.
Proof.
  induction n as [|n IH]; [reflexivity|].
  rewrite Nat.iter_succ, IH; reflexivity.
Qed.

(** C5 (the code departs from the claim).  Neither policy applies the
    floor [MIN_RETRY_INTERVAL_MS]: a PLC whose [retry_interval_ms] is 0,
    the value of a new PLC, keeps 0 through every run of consecutive
    errors, whichever of the two policies handles each of them, so the
    interval is outside [1000, 16000] and no back-off takes place. *)
Theorem C5_retry_interval_stays_zero :
  forall (W attr : Type) (env : Env W attr) (policies : list bool)
         (w : W) (plc : plc_s W),
    retry_interval_ms plc = 0 ->
    retry_interval_ms (snd (consecutive_errors env policies w plc)) = 0
    /\ retry_interval_ms (@blank_plc W) = 0
    /\ ~ (MIN_RETRY_INTERVAL_MS <= 0 <= MAX_RETRY_INTERVAL_MS).
Proof.
  intros W attr env policies w plc H.
  rewrite consecutive_errors_retry, H, backoff_iter_zero.
  repeat split. unfold MIN_RETRY_INTERVAL_MS; lia.
Qed.

Lemma C5_retry_interval_stays_zero_witness :
  retry_interval_ms
    (snd (consecutive_errors Sim.env [true; false; true] Sim.start
            Scenario.waiting_for_retry)) = 0
  /\ retry_interval_ms (@blank_plc Sim.world) = 0
  /\ ~ (MIN_RETRY_INTERVAL_MS <= 0 <= MAX_RETRY_INTERVAL_MS).
Proof.
  apply (C5_retry_interval_stays_zero Sim.env [true; false; true] Sim.start
           Scenario.waiting_for_retry).
  reflexivity.
Defined.

(** ** Dispatch *)

(** The decision of [dispatch] in the words of the claim, from the clock
    reading [now]: the next state and whether the engine re-enters
    ([PLCTAG_STATUS_PENDING]) or yields ([PLCTAG_STATUS_OK]). *)
Definition claimed_dispatch {W : Type} (now : Z) (plc : plc_s W)
  : option state_id * status :=
  if is_terminating plc then
    if is_connected plc then (Some st_start_disconnect, PLCTAG_STATUS_PENDING)
    else (Some st_terminate, PLCTAG_STATUS_OK)
  else if is_connected plc && (next_idle_timeout plc <? now) then
    (Some st_start_disconnect, PLCTAG_STATUS_PENDING)
  else
    match request_list plc with
    | _ :: _ =>
        if is_connected plc
        then (Some st_reserve_space_for_tag_request, PLCTAG_STATUS_PENDING)
        else (Some st_start_connect, PLCTAG_STATUS_PENDING)
    | [] => (Some st_dispatch_requests, PLCTAG_STATUS_OK)
    end.

(** What [state_dispatch_requests] leaves: next state and return code. *)
Definition dispatch_outcome {W attr : Type} (env : Env W attr) (w : W)
    (plc : plc_s W) : option state_id * status :=
  let '(_, plc', rc) := state_dispatch_requests env w plc in
  (state_func plc', rc).

(** C7, as stated, fails: with a request queued, no connection and
    [next_retry_time] 1000 ms ahead of the clock, the claim sends the
    engine to [start_connect]; the code stays in [dispatch] and yields. *)
Lemma C7_counterexample :
  dispatch_outcome Sim.env Sim.start Scenario.waiting_for_retry
  = (Some st_dispatch_requests, PLCTAG_STATUS_OK)
  /\ claimed_dispatch (Sim.now Sim.start) Scenario.waiting_for_retry
     = (Some st_start_connect, PLCTAG_STATUS_PENDING)
  /\ dispatch_outcome Sim.env Sim.start Scenario.waiting_for_retry
     <> claimed_dispatch (Sim.now Sim.start) Scenario.waiting_for_retry.
Proof. repeat split; vm_compute; congruence. Qed.

(** C7, amended.  From [dispatch], with [now] and [now'] the two readings
    of the event-loop clock the function takes: terminating and connected
    goes to [start_disconnect]; terminating and not connected to
    [terminate] (yield); connected with [next_idle_timeout < now] to
    [start_disconnect]; otherwise, while [next_retry_time > now'], the
    engine stays where it is and yields whatever is queued; otherwise a
    non-empty queue goes to [start_connect] when not connected and to
    [reserve_space] when connected; otherwise the engine stays in
    [dispatch] and yields.  Only [state_func] changes. *)
Theorem C7_dispatch_next_state :
  forall (W attr : Type) (env : Env W attr) (w : W) (plc : plc_s W),
    let now := snd (event_loop_time env w) in
    let now' := snd (event_loop_time env (fst (event_loop_time env w))) in
    let plc' := snd (fst (state_dispatch_requests env w plc)) in
    let rc := snd (state_dispatch_requests env w plc) in
    let goes s r := plc' = NEXT_STATE s plc /\ rc = r in
    (is_terminating plc = true -> is_connected plc = true ->
     goes st_start_disconnect PLCTAG_STATUS_PENDING)
    /\ (is_terminating plc = true -> is_connected plc = false ->
        goes st_terminate PLCTAG_STATUS_OK)
    /\ (is_terminating plc = false -> is_connected plc = true ->
        next_idle_timeout plc < now ->
        goes st_start_disconnect PLCTAG_STATUS_PENDING)
    /\ (is_terminating plc = false ->
        (is_connected plc = false \/ now <= next_idle_timeout plc) ->
        (now' < next_retry_time plc ->
         plc' = plc /\ rc = PLCTAG_STATUS_OK)
        /\ (next_retry_time plc <= now' -> request_list plc <> [] ->
            is_connected plc = false ->
            goes st_start_connect PLCTAG_STATUS_PENDING)
        /\ (next_retry_time plc <= now' -> request_list plc <> [] ->
            is_connected plc = true ->
            goes st_reserve_space_for_tag_request PLCTAG_STATUS_PENDING)
        /\ (next_retry_time plc <= now' -> request_list plc = [] ->
            goes st_dispatch_requests PLCTAG_STATUS_OK)).
Proof.
  intros W attr env w plc; cbv zeta.
  unfold state_dispatch_requests.
  destruct (event_loop_time env w) as [w1 now]; cbn [fst snd].
  destruct (event_loop_time env w1) as [w2 now']; cbn [fst snd].
  rewrite Z.gtb_ltb.
  destruct (Z.ltb_spec (next_idle_timeout plc) now);
    destruct (Z.ltb_spec now' (next_retry_time plc));
    destruct (is_terminating plc), (is_connected plc), (request_list plc);
    cbn [andb negb fst snd];
    repeat match goal with
      | |- _ /\ _ => split
      | |- _ -> _ => intro
      | H : _ \/ _ |- _ => destruct H
      end;
    try discriminate; try lia; try congruence; reflexivity.
Qed.

Lemma C7_dispatch_next_state_witness :
  snd (fst (state_dispatch_requests Sim.env Sim.start
              Scenario.waiting_for_retry)) = Scenario.waiting_for_retry
  /\ snd (state_dispatch_requests Sim.env Sim.start
            Scenario.waiting_for_retry) = PLCTAG_STATUS_OK.
Proof.
  destruct (C7_dispatch_next_state Sim.env Sim.start
              Scenario.waiting_for_retry) as (_ & _ & _ & H).
  destruct (H eq_refl (or_introl eq_refl)) as (H1 & _).
  apply H1; reflexivity.
Defined.

(** ** The buffer *)

(** A sequence of calls to [plc_set_buffer_size] on one PLC. *)
Fixpoint set_buffer_sizes {W attr : Type} (env : Env W attr)
    (sizes : list Z) (w : W) (plc : plc_s W) : W * plc_s W :=
  match sizes with
  | [] => (w, plc)
  | n :: sizes =>
      match plc_set_buffer_size env w (Some plc) n with
      | (w, Some plc, _) => set_buffer_sizes env sizes w plc
      | (w, None, _) => (w, plc)
      end
  end.

Section Buffer.

Variables (W attr : Type) (env : Env W attr).

Lemma plc_set_buffer_size_capacity (w : W) (plc : plc_s W) (n : Z) :
  exists w' plc' rc,
    plc_set_buffer_size env w (Some plc) n = (w', Some plc', rc)
    /\ data_capacity plc <= data_capacity plc'
    /\ payload_start plc' = payload_start plc
    /\ payload_end plc' = payload_end plc.
Proof.
  unfold plc_set_buffer_size.
  destruct (n <=? 0); [exists w, plc, PLCTAG_ERR_TOO_SMALL; repeat split; lia|].
  destruct (Z.gtb_spec n (data_capacity plc)) as [Hgt|Hle].
  - destruct (mem_realloc env w (data plc) n) as [w' [d|]].
    + eexists _, _, _; split; [reflexivity|]; cbn; repeat split; lia.
    + eexists _, _, _; split; [reflexivity|]; cbn; repeat split; lia.
  - exists w, plc, PLCTAG_STATUS_OK; repeat split; lia.
Qed.

(** When the reallocation fails the call answers [PLCTAG_ERR_NO_MEM];
    the capacity is as before and [plc->data] is null. *)
Lemma plc_set_buffer_size_no_mem (w w' : W) (plc : plc_s W) (n : Z) :
  0 < n -> data_capacity plc < n ->
  mem_realloc env w (data plc) n = (w', None) ->
  plc_set_buffer_size env w (Some plc) n
  = (w', Some (set_data None plc), PLCTAG_ERR_NO_MEM).
Proof.
  intros Hn Hc E; unfold plc_set_buffer_size.
  destruct (Z.leb_spec n 0); [lia|].
  destruct (Z.gtb_spec n (data_capacity plc)); [|lia].
  now rewrite E.
Qed.

Lemma set_buffer_sizes_capacity (sizes : list Z) :
  forall w plc,
    data_capacity plc <= data_capacity (snd (set_buffer_sizes env sizes w plc)).
Proof.
  induction sizes as [|n sizes IH]; intros w plc; cbn [set_buffer_sizes].
  - cbn; lia.
  - destruct (plc_set_buffer_size_capacity w plc n)
      as (w' & plc' & rc & E & Hcap & _).
    rewrite E. specialize (IH w' plc'). lia.
Qed.

End Buffer.

(** C9, as stated, fails.  A new PLC has capacity 0; asked for 8 bytes
    while the allocator is out of memory, [plc_set_buffer_size] answers
    [PLCTAG_ERR_NO_MEM] and the capacity is still 0, not 8. *)
Lemma C9_counterexample :
  data_capacity (@blank_plc Sim.world) < 8
  /\ (let '(_, p', rc) :=
        plc_set_buffer_size Sim.env_no_mem Sim.start (Some blank_plc) 8 in
      rc = PLCTAG_ERR_NO_MEM
      /\ option_map (@data_capacity _) p' = Some 0
      /\ option_map (@data_capacity _) p' <> Some 8).
Proof. vm_compute; repeat split; discriminate. Qed.

(** C9, amended.  [plc_set_buffer_size] answers [PLCTAG_ERR_TOO_SMALL]
    and changes nothing for a size that is not positive; for a positive
    size within the capacity it answers ok and changes nothing, neither
    capacity nor contents; for a size above the capacity it reallocates:
    when that succeeds the buffer is the reallocated block, the capacity
    is exactly the size asked for and the answer is ok, when it fails
    the answer is [PLCTAG_ERR_NO_MEM] and the capacity is as before; and
    over any sequence of calls, whatever the allocator answers, the
    capacity never decreases. *)
Theorem C9_plc_set_buffer_size :
  forall (W attr : Type) (env : Env W attr) (w : W) (plc : plc_s W) (n : Z),
    (n <= 0 ->
     plc_set_buffer_size env w (Some plc) n
     = (w, Some plc, PLCTAG_ERR_TOO_SMALL))
    /\ (0 < n <= data_capacity plc ->
        plc_set_buffer_size env w (Some plc) n
        = (w, Some plc, PLCTAG_STATUS_OK))
    /\ (data_capacity plc < n -> 0 < n ->
        forall w' d, mem_realloc env w (data plc) n = (w', Some d) ->
        plc_set_buffer_size env w (Some plc) n
        = (w', Some (set_data_capacity n (set_data (Some d) plc)),
           PLCTAG_STATUS_OK)
        /\ data_capacity (set_data_capacity n (set_data (Some d) plc)) = n)
    /\ (data_capacity plc < n -> 0 < n ->
        forall w', mem_realloc env w (data plc) n = (w', None) ->
        exists plc',
          plc_set_buffer_size env w (Some plc) n
          = (w', Some plc', PLCTAG_ERR_NO_MEM)
          /\ data_capacity plc' = data_capacity plc)
    /\ (forall sizes w0,
        data_capacity plc
        <= data_capacity (snd (set_buffer_sizes env sizes w0 plc))).
Proof.
  intros W attr env w plc n; unfold plc_set_buffer_size.
  split; [|split; [|split; [|split]]].
  - intros H. destruct (Z.leb_spec n 0); [reflexivity|lia].
  - intros H. destruct (Z.leb_spec n 0); [lia|].
    destruct (Z.gtb_spec n (data_capacity plc)); [lia|reflexivity].
  - intros Hc Hn w' d E.
    destruct (Z.leb_spec n 0); [lia|].
    destruct (Z.gtb_spec n (data_capacity plc)); [|lia].
    rewrite E; split; reflexivity.
  - intros Hc Hn w' E.
    destruct (Z.leb_spec n 0); [lia|].
    destruct (Z.gtb_spec n (data_capacity plc)); [|lia].
    rewrite E; eexists; split; reflexivity.
  - intros sizes w0; apply set_buffer_sizes_capacity.
Qed.

Lemma C9_plc_set_buffer_size_witness :
  plc_set_buffer_size Sim.env Sim.start (Some blank_plc) 8
  = (Sim.start,
     Some (set_data_capacity 8
             (set_data (Some [0; 0; 0; 0; 0; 0; 0; 0]) blank_plc)),
     PLCTAG_STATUS_OK)
  /\ data_capacity
       (set_data_capacity 8
          (set_data (Some [0; 0; 0; 0; 0; 0; 0; 0]) (@blank_plc Sim.world)))
     = 8.
Proof.
  destruct (C9_plc_set_buffer_size Sim.env Sim.start blank_plc 8)
    as (_ & _ & H & _).
  apply H; [vm_compute; reflexivity | lia | reflexivity].
Defined.

(** C10.  [plc_get_buffer_size] answers [payload_end], not the capacity:
    after a [plc_set_buffer_size] to [n] that grew the buffer, the
    capacity is [n] and the getter still answers the [payload_end] of
    before the call.  That differs from [n] whenever [payload_end] was
    within the old capacity, as on a new PLC, where it is 0. *)
Theorem C10_get_buffer_size_is_payload_end :
  forall (W attr : Type) (env : Env W attr) (w w' : W)
         (plc plc' : plc_s W) (n : Z),
    data_capacity plc < n ->
    plc_set_buffer_size env w (Some plc) n
    = (w', Some plc', PLCTAG_STATUS_OK) ->
    data_capacity plc' = n
    /\ plc_get_buffer_size (Some plc') = inr (payload_end plc)
    /\ (payload_end plc <= data_capacity plc ->
        plc_get_buffer_size (Some plc') <> inr n)
    /\ payload_end (@blank_plc W) = 0.
Proof.
  intros W attr env w w' plc plc' n Hlt; unfold plc_set_buffer_size.
  destruct (Z.leb_spec n 0); [discriminate|].
  destruct (Z.gtb_spec n (data_capacity plc)); [|lia].
  destruct (mem_realloc env w (data plc) n) as [w1 [d|]]; [|discriminate].
  intros E; injection E as <- <-; cbn.
  repeat split. intros Hz E; injection E as E; lia.
Qed.

Lemma C10_get_buffer_size_is_payload_end_witness :
  data_capacity
    (set_data_capacity 8
       (set_data (Some [0; 0; 0; 0; 0; 0; 0; 0]) (@blank_plc Sim.world))) = 8
  /\ plc_get_buffer_size
       (Some (set_data_capacity 8
                (set_data (Some [0; 0; 0; 0; 0; 0; 0; 0])
                   (@blank_plc Sim.world))))
     = inr (payload_end (@blank_plc Sim.world))
  /\ (payload_end (@blank_plc Sim.world)
      <= data_capacity (@blank_plc Sim.world) ->
      plc_get_buffer_size
        (Some (set_data_capacity 8
                 (set_data (Some [0; 0; 0; 0; 0; 0; 0; 0])
                    (@blank_plc Sim.world))))
      <> inr 8)
  /\ payload_end (@blank_plc Sim.world) = 0.
Proof.
  apply (@C10_get_buffer_size_is_payload_end _ _ Sim.env Sim.start Sim.start
           blank_plc _ 8).
  - vm_compute; reflexivity.
  - reflexivity.
Defined.

(** ** The request queue *)

(** How many objects of the queue have the address [request]. *)
Fixpoint occurrences {W : Type} (request : Z) (l : list (plc_request_s W))
  : nat :=
  match l with
  | [] => O
  | r :: l =>
      if req_addr r =? request then S (occurrences request l)
      else occurrences request l
  end.

Section Queue.

Variables (W attr : Type) (env : Env W attr).

Lemma queued_occurrences (request : Z) (l : list (plc_request_s W)) :
  queued request l = false <-> occurrences request l = O.
Proof.
  induction l as [|r l IH]; cbn; [tauto|].
  destruct (req_addr r =? request); [split; discriminate|exact IH].
Qed.

Lemma occurrences_app (request : Z) (l1 l2 : list (plc_request_s W)) :
  occurrences request (l1 ++ l2)
  = (occurrences request l1 + occurrences request l2)%nat.
Proof.
  induction l1 as [|r l1 IH]; cbn; [reflexivity|].
  destruct (req_addr r =? request); cbn; now rewrite IH.
Qed.

(** A request that is not queued, on a PLC that is not in [dispatch]
    (so that the state runner is not entered): it is linked at the tail
    with [req_id] -1 and is then in the queue once. *)
Lemma plc_start_request_appends (fuel : nat) (w : W) (plc : plc_s W)
    (request client : Z) (b p : request_callback W) :
  queued request (request_list plc) = false ->
  in_dispatch plc = false ->
  let r := mk_request request client (-1) b p in
  let plc' := set_request_list (request_list plc ++ [r]) plc in
  plc_start_request env fuel w plc request client b p
  = Some (w, plc', PLCTAG_STATUS_OK)
  /\ occurrences request (request_list plc') = 1%nat.
Proof.
  intros Hq Hd; cbv zeta.
  unfold plc_start_request, plc_start_request_block.
  rewrite Hq. unfold in_dispatch in *. cbn [state_func set_request_list].
  rewrite Hd. split; [reflexivity|].
  unfold set_request_list; cbn [request_list]. rewrite occurrences_app.
  apply queued_occurrences in Hq; rewrite Hq; cbn.
  now rewrite Z.eqb_refl.
Qed.

(** The addresses of the queue, in order. *)
Definition addrs (p : plc_s W) : list Z := map (@req_addr W) (request_list p).

Lemma occurrences_addrs (request : Z) (l l' : list (plc_request_s W)) :
  map (@req_addr W) l = map (@req_addr W) l' ->
  occurrences request l = occurrences request l'.
Proof.
  revert l'; induction l as [|r l IH]; intros [|r' l']; cbn;
    try discriminate; [reflexivity|].
  intros E; injection E as E1 E2. rewrite E1, (IH l' E2); reflexivity.
Qed.

(** The states the runner can pass through, re-entering on pending, once
    it has been started in [dispatch]. *)
Definition runs_from_dispatch (s : state_id) : bool :=
  match s with
  | st_dispatch_requests | st_reserve_space_for_tag_request
  | st_build_tag_request | st_start_connect | st_start_disconnect
  | st_build_layer_disconnect_request => true
  | _ => false
  end.

(** Same queue addresses, and a pending return leaves a state of
    [runs_from_dispatch]. *)
Definition keeps_queue (p : plc_s W) (result : W * plc_s W * status) : Prop :=
  addrs (snd (fst result)) = addrs p
  /\ (snd result = PLCTAG_STATUS_PENDING ->
      exists s, state_func (snd (fst result)) = Some s
                /\ runs_from_dispatch s = true).

Lemma DISCONNECT_ON_ERROR_keeps_queue (w : W) (p p0 : plc_s W) :
  addrs p = addrs p0 -> keeps_queue p0 (DISCONNECT_ON_ERROR env w p).
Proof.
  intros E; unfold keeps_queue, DISCONNECT_ON_ERROR.
  repeat break_match; cbn; (split; [exact E|]);
    intros _; exists st_start_disconnect; split; reflexivity.
Qed.

Lemma RESET_ON_ERROR_keeps_queue (w : W) (p p0 : plc_s W) :
  addrs p = addrs p0 -> keeps_queue p0 (RESET_ON_ERROR env w p).
Proof.
  intros E; unfold keeps_queue, RESET_ON_ERROR, reset_plc.
  repeat break_match; cbn; (split; [exact E|]); discriminate.
Qed.

Lemma send_tag_request_keeps_queue (w : W) (p p0 : plc_s W) (data_end : Z) :
  addrs p = addrs p0 -> keeps_queue p0 (send_tag_request env w p data_end).
Proof.
  intros E; unfold send_tag_request, back_to_dispatch.
  destruct (is_terminating p).
  - split; [exact E|]; intros _; exists st_dispatch_requests;
      split; reflexivity.
  - destruct (socket_callback_when_write_done _ _ _ _ _) as [w1 rc].
    destruct (rc <>?s PLCTAG_STATUS_OK).
    + apply DISCONNECT_ON_ERROR_keeps_queue; exact E.
    + split; [exact E|]; discriminate.
Qed.

Lemma build_tag_request_loop_keeps_queue (current : list (plc_request_s W)) :
  forall packed w p p0 data_start data_end old_data_end id first_try,
    addrs p = addrs p0 ->
    addrs p = map (@req_addr W) (packed ++ current) ->
    keeps_queue p0
      (build_tag_request_loop env current packed w p data_start data_end
         old_data_end id first_try).
Proof.
  induction current as [|request rest IH];
    intros packed w p p0 data_start data_end old_data_end id first_try E Ep;
    cbn [build_tag_request_loop]; unfold back_to_dispatch.
  - destruct (is_terminating p);
      (split; [exact E|]); intros _; exists st_dispatch_requests;
      split; reflexivity.
  - destruct (is_terminating p);
      [split; [exact E|]; intros _; exists st_dispatch_requests;
       split; reflexivity|].
    set (r := build_request request w (context request) (data p)
                (data_capacity p) data_start data_end id).
    assert (addrs (set_request_list (packed ++ set_req_id id request :: rest)
                     (wrote r p)) = addrs p0) as E1.
    { rewrite <- E, Ep; unfold addrs; cbn.
      rewrite !map_app; reflexivity. }
    destruct ((res_rc r <>?s PLCTAG_STATUS_OK)
              && (res_rc r <>?s PLCTAG_ERR_TOO_SMALL));
      [apply DISCONNECT_ON_ERROR_keeps_queue; exact E|].
    destruct ((res_rc r =?s PLCTAG_ERR_TOO_SMALL) && first_try);
      [apply DISCONNECT_ON_ERROR_keeps_queue; exact E|].
    match goal with
    | |- context [build_layer ?l ?a ?b ?c ?d ?e ?f] =>
        set (r2 := build_layer l a b c d e f)
    end.
    destruct ((res_rc r2 <>?s PLCTAG_STATUS_OK)
              && (res_rc r2 <>?s PLCTAG_STATUS_PENDING));
      [apply DISCONNECT_ON_ERROR_keeps_queue; exact E1|].
    destruct (res_rc r2 =?s PLCTAG_STATUS_OK);
      [apply send_tag_request_keeps_queue; exact E1|].
    destruct rest as [|r3 rest];
      [apply send_tag_request_keeps_queue; exact E1|].
    apply IH; [exact E1|].
    unfold addrs; cbn. rewrite <- app_assoc; reflexivity.
Qed.

Lemma run_state_keeps_queue (s : state_id) (w : W) (p : plc_s W) :
  runs_from_dispatch s = true -> keeps_queue p (run_state env s w p).
Proof.
  destruct s; try discriminate; intros _; cbn [run_state].
  - unfold state_dispatch_requests, keeps_queue.
    repeat break_match; cbn; (split; [reflexivity|]); try discriminate;
      intros _; eexists; split; reflexivity.
  - unfold state_reserve_space_for_tag_request.
    break_match; [now apply DISCONNECT_ON_ERROR_keeps_queue|].
    split; [reflexivity|]; intros _; eexists; split; reflexivity.
  - now apply build_tag_request_loop_keeps_queue.
  - unfold state_start_connect, back_to_dispatch.
    repeat break_match;
      try (now apply DISCONNECT_ON_ERROR_keeps_queue);
      try (apply RESET_ON_ERROR_keeps_queue;
           first [ reflexivity
                 | match goal with
                   | H : _ = (_, ?q, _) |- addrs ?q = _ =>
                       injection H as <- <- <-; reflexivity
                   end ]);
      (split; [reflexivity|]); try discriminate;
      intros _; eexists; split; reflexivity.
  - unfold state_start_disconnect, back_to_dispatch.
    break_match; (split; [reflexivity|]); intros _; eexists;
      split; reflexivity.
  - unfold state_build_layer_disconnect_request.
    repeat break_match;
      try (now apply RESET_ON_ERROR_keeps_queue);
      (split; [reflexivity|]); try discriminate.
    match goal with
    | H : (?rc =?s PLCTAG_STATUS_OK) = true |- _ =>
        apply status_eqb_eq in H; cbn; rewrite H; discriminate
    end.
Qed.

Lemma plc_state_runner_keeps_queue (fuel : nat) :
  forall w p w' p' s,
    state_func p = Some s -> runs_from_dispatch s = true ->
    plc_state_runner env fuel w p = Some (w', p') ->
    addrs p' = addrs p.
Proof.
  induction fuel as [|fuel IH]; intros w p w' p' s Hs Hr; [discriminate|].
  cbn [plc_state_runner]; rewrite Hs.
  pose proof (run_state_keeps_queue s w p Hr) as [Ha Hp].
  destruct (run_state env s w p) as [[w1 p1] rc]; cbn [fst snd] in *.
  destruct (rc =?s PLCTAG_STATUS_PENDING) eqn:E.
  - apply status_eqb_eq in E. destruct (Hp E) as (s1 & Hs1 & Hr1).
    intros H; rewrite (IH _ _ _ _ _ Hs1 Hr1 H); exact Ha.
  - intros H; injection H as <- <-; exact Ha.
Qed.

(** A request that is not queued, on any PLC: whenever the call returns
    (the state runner it may enter comes to a yield), the answer is ok,
    the queue is the old one with the request at the tail, and the
    request is in it once. *)
Lemma plc_start_request_queues_once (fuel : nat) (w w' : W)
    (plc plc' : plc_s W) (request client : Z) (b p : request_callback W)
    (rc : status) :
  queued request (request_list plc) = false ->
  plc_start_request env fuel w plc request client b p = Some (w', plc', rc) ->
  rc = PLCTAG_STATUS_OK
  /\ addrs plc' = addrs plc ++ [request]
  /\ occurrences request (request_list plc') = 1%nat.
Proof.
  intros Hq; unfold plc_start_request, plc_start_request_block; rewrite Hq.
  set (q := set_request_list _ plc).
  assert (addrs q = addrs plc ++ [request]) as Eq
    by (unfold addrs, q; cbn; rewrite map_app; reflexivity).
  assert (forall q', addrs q' = addrs q ->
                     occurrences request (request_list q') = 1%nat) as Hocc.
  { intros q' E. rewrite (occurrences_addrs request _ (request_list q) E).
    unfold q; cbn. rewrite occurrences_app.
    apply queued_occurrences in Hq; rewrite Hq; cbn.
    now rewrite Z.eqb_refl. }
  unfold in_dispatch. destruct (state_func q) as [s|] eqn:Es.
  - unfold state_id_eqb.
    destruct (state_id_eq_dec s st_dispatch_requests) as [->|Hne].
    + destruct (plc_state_runner env fuel w q) as [[w1 p1]|] eqn:Er;
        [|discriminate].
      intros H; injection H as <- <- <-.
      pose proof (plc_state_runner_keeps_queue fuel w q Es eq_refl Er) as Ea.
      repeat split; [congruence|now apply Hocc].
    + intros H; injection H as <- <- <-.
      repeat split; [exact Eq|now apply Hocc].
  - intros H; injection H as <- <- <-.
    repeat split; [exact Eq|now apply Hocc].
Qed.

End Queue.

(** C6 (the code departs from the claim).  For a request that is already
    in the queue the critical block of [plc_start_request] sets [rc] to
    [PLCTAG_ERR_BUSY] and leaves the PLC as it is, but the function
    returns [PLCTAG_STATUS_OK]: the caller is never told busy. *)
Theorem C6_start_request_busy_returns_ok :
  forall (W attr : Type) (env : Env W attr) (fuel : nat) (w : W)
         (plc : plc_s W) (request client : Z) (b p : request_callback W),
    queued request (request_list plc) = true ->
    plc_start_request_block env fuel w plc request client b p
    = Some (w, plc, PLCTAG_ERR_BUSY)
    /\ plc_start_request env fuel w plc request client b p
       = Some (w, plc, PLCTAG_STATUS_OK)
    /\ PLCTAG_STATUS_OK <> PLCTAG_ERR_BUSY.
Proof.
  intros W attr env fuel w plc request client b p H.
  unfold plc_start_request, plc_start_request_block; rewrite H.
  repeat split; discriminate.
Qed.

Lemma C6_start_request_busy_returns_ok_witness :
  plc_start_request_block Sim.env 0 Sim.start Scenario.waiting_for_retry
    101 5 (Sim.build_bytes 10) Sim.accept_response
  = Some (Sim.start, Scenario.waiting_for_retry, PLCTAG_ERR_BUSY)
  /\ plc_start_request Sim.env 0 Sim.start Scenario.waiting_for_retry
       101 5 (Sim.build_bytes 10) Sim.accept_response
     = Some (Sim.start, Scenario.waiting_for_retry, PLCTAG_STATUS_OK)
  /\ PLCTAG_STATUS_OK <> PLCTAG_ERR_BUSY.
Proof.
  apply (C6_start_request_busy_returns_ok Sim.env 0 Sim.start
           Scenario.waiting_for_retry 101 5 (Sim.build_bytes 10)
           Sim.accept_response).
  reflexivity.
Defined.

(** ** The registry *)

Lemma plc_get_find_differs {W : Type} (k : string) (l : registry W)
    (a : Z) (p : plc_s W) :
  plc_get_find k l = Some (a, p) -> str_cmp_i k (key p) <> 0.
Proof.
  induction l as [|[a0 p0] l IH]; cbn; [discriminate|].
  destruct (Z.eqb_spec (str_cmp_i k (key p0)) 0) as [E|E]; cbn.
  - exact IH.
  - intros H; injection H as <- <-; exact E.
Qed.

Lemma plc_get_find_all_equal {W : Type} (k : string) (l : registry W) :
  Forall (fun e => str_cmp_i k (key (snd e)) = 0) l ->
  plc_get_find k l = None.
Proof.
  induction 1 as [|[a p] l E _ IH]; cbn; [reflexivity|].
  cbn in E; rewrite E; exact IH.
Qed.

(** C2 (the code departs from the claim).  The loop of [plc_get] leaves
    at the first PLC whose key differs from the search key.  With one
    PLC registered under ab2/10.0.0.1/1,0: a call for the same type,
    gateway and path (the keys compare equal) finds nothing, makes a
    second PLC and links it in front of the first; a call for gateway
    10.0.0.2 (the keys differ) is handed the PLC of 10.0.0.1, and no PLC
    is made. *)
Theorem C2_plc_get_lookup_inverted :
  (let '(_, l, rc, ret) :=
     plc_get Sim.env Sim.start Scenario.one_plc "AB2"
       Scenario.same_attribs Scenario.constructor in
   rc = PLCTAG_STATUS_OK /\ ret = Some 1
   /\ Scenario.keys l
      = [(1, "AB2/10.0.0.1/1,0"); (50, "ab2/10.0.0.1/1,0")]%string)
  /\ str_cmp_i "AB2/10.0.0.1/1,0" "ab2/10.0.0.1/1,0" = 0
  /\ (let '(_, l, rc, ret) :=
        plc_get Sim.env Sim.start Scenario.one_plc "ab2"
          Scenario.other_attribs Scenario.constructor in
      rc = PLCTAG_STATUS_OK /\ ret = Some 50 /\ l = Scenario.one_plc)
  /\ str_cmp_i "ab2/10.0.0.2/1,0" "ab2/10.0.0.1/1,0" <> 0.
Proof. vm_compute. repeat split; discriminate. Qed.

(** ** What no state function touches *)

(** The fields that the state machine only reads. *)
Definition frame {W : Type} (p p' : plc_s W) : Prop :=
  next_idle_timeout p' = next_idle_timeout p
  /\ idle_timeout_ms p' = idle_timeout_ms p
  /\ data_capacity p' = data_capacity p
  /\ top_layer p' = top_layer p.

Section Frame.

Variables (W attr : Type) (env : Env W attr).

Lemma frame_refl (p : plc_s W) : frame p p.
Proof. repeat split. Qed.

Lemma frame_trans (p q r : plc_s W) : frame p q -> frame q r -> frame p r.
Proof.
  unfold frame; intros (A1 & A2 & A3 & A4) (B1 & B2 & B3 & B4).
  repeat split; congruence.
Qed.

Lemma DISCONNECT_ON_ERROR_frame (w : W) (p : plc_s W) :
  frame p (snd (fst (DISCONNECT_ON_ERROR env w p))).
Proof.
  unfold DISCONNECT_ON_ERROR; repeat break_match; repeat split.
Qed.

Lemma RESET_ON_ERROR_frame (w : W) (p : plc_s W) :
  frame p (snd (fst (RESET_ON_ERROR env w p))).
Proof.
  unfold RESET_ON_ERROR, reset_plc; repeat break_match; repeat split.
Qed.

Lemma send_tag_request_frame (w : W) (p : plc_s W) (data_end : Z) :
  frame p (snd (fst (send_tag_request env w p data_end))).
Proof.
  unfold send_tag_request, back_to_dispatch.
  destruct (is_terminating p); [repeat split|].
  destruct (socket_callback_when_write_done _ _ _ _ _) as [w1 rc].
  destruct (rc <>?s PLCTAG_STATUS_OK); [|repeat split].
  eapply frame_trans; [|apply DISCONNECT_ON_ERROR_frame]. repeat split.
Qed.

Lemma build_tag_request_loop_frame (current : list (plc_request_s W)) :
  forall packed w p data_start data_end old_data_end id first_try,
    frame p
      (snd (fst (build_tag_request_loop env current packed w p data_start
                   data_end old_data_end id first_try))).
Proof.
  induction current as [|request rest IH]; intros; cbn [build_tag_request_loop].
  - unfold back_to_dispatch; destruct (is_terminating p); repeat split.
  - unfold back_to_dispatch; destruct (is_terminating p); [repeat split|].
    repeat match goal with
      | |- context [if ?b then _ else _] => destruct b
      end;
      try (eapply frame_trans; [|apply DISCONNECT_ON_ERROR_frame];
           repeat split; fail);
      try (eapply frame_trans; [|apply send_tag_request_frame];
           repeat split; fail);
      (eapply frame_trans; [|apply IH]; repeat split).
Qed.

Lemma run_state_frame (s : state_id) (w : W) (p : plc_s W) :
  frame p (snd (fst (run_state env s w p))).
Proof.
  destruct s; cbn [run_state];
    try apply build_tag_request_loop_frame;
    unfold state_dispatch_requests, state_reserve_space_for_tag_request,
      state_tag_request_sent, state_tag_response_ready, state_start_connect,
      state_build_layer_connect_request, state_layer_connect_request_sent,
      state_layer_connect_response_ready, state_start_disconnect,
      state_build_layer_disconnect_request,
      state_layer_disconnect_request_sent,
      state_layer_disconnect_response_ready, state_terminate,
      back_to_dispatch;
    repeat break_match;
    try (repeat split; fail);
    try (eapply frame_trans; [|apply DISCONNECT_ON_ERROR_frame];
         repeat split; fail);
    try (eapply frame_trans; [|apply RESET_ON_ERROR_frame];
         repeat split; fail).
Qed.

End Frame.

(** ** Responses *)

(** What [tag_resp_ready] does with the answer of the stack, the PLC not
    terminating and the socket read done: an ok response for the head of
    the queue unlinks the head and runs its [process_response] on the
    slice; an ok response for another request id is dropped and the
    queue stays; partial arms the read again and yields; pending takes
    the path of an error. *)
Lemma state_tag_response_ready_cases {W attr : Type} (env : Env W attr)
    (w w1 : W) (plc : plc_s W) :
  is_terminating plc = false ->
  socket_status env w (socket plc) = (w1, PLCTAG_STATUS_OK) ->
  let r := layer_process_response (top_layer plc) w1 (data plc)
             (data_capacity plc) 0 (payload_end plc) 0 in
  let result := state_tag_response_ready env w plc in
  (res_rc r = PLCTAG_STATUS_OK ->
   forall request rest, request_list plc = request :: rest ->
     (res_req_id r = req_id request ->
      let r' := process_response request (res_world r) (context request)
                  (res_data r) (data_capacity plc) (res_start r) (res_end r)
                  (req_id request) in
      res_rc r' = PLCTAG_STATUS_OK ->
      result
      = (res_world r',
         NEXT_STATE st_dispatch_requests
           (wrote r' (set_request_list rest (wrote r plc))),
         PLCTAG_STATUS_PENDING))
     /\ (res_req_id r <> req_id request ->
         result
         = (res_world r, NEXT_STATE st_dispatch_requests (wrote r plc),
            PLCTAG_STATUS_PENDING)))
  /\ (res_rc r = PLCTAG_ERR_PARTIAL ->
      forall w2,
        socket_callback_when_read_done env (res_world r) (socket plc)
          (res_data r) (data_capacity plc) (payload_end plc)
        = (w2, PLCTAG_STATUS_OK) ->
        result
        = (w2, NEXT_STATE st_tag_response_ready (wrote r plc),
           PLCTAG_STATUS_OK))
  /\ (res_rc r = PLCTAG_STATUS_PENDING ->
      result = DISCONNECT_ON_ERROR env (res_world r) (wrote r plc)).
Proof.
  intros Ht Hs r result; subst result.
  unfold state_tag_response_ready; rewrite Ht, Hs; fold r.
  split; [|split].
  - intros Hok request rest Hq; rewrite Hok; cbn.
    unfold wrote at 1; cbn [request_list set_data]; rewrite Hq.
    split.
    + intros Eid Hr'. apply Z.eqb_eq in Eid; rewrite Eid.
      cbn [data data_capacity set_request_list wrote set_data].
      now rewrite Hr'.
    + intros Eid. apply Z.eqb_neq in Eid; now rewrite Eid.
  - intros Hp w2 E; rewrite Hp; cbn.
    unfold NEXT_STATE, wrote in *; cbn in *. now rewrite E.
  - intros Hp; rewrite Hp; reflexivity.
Qed.

(** C3 (the code departs from the claim).  No state function assigns
    [next_idle_timeout]; in particular a response that was processed
    successfully leaves it as it was.  With the idle deadline at 1001, a
    response is delivered to its request at time 1000 with an idle
    timeout of 5000 ms: the deadline is still 1001, not 6000, and the
    dispatch that runs at time 1002 starts an idle disconnect. *)
Theorem C3_next_idle_timeout_never_updated :
  (forall (W attr : Type) (env : Env W attr) (s : state_id) (w : W)
          (plc : plc_s W),
      next_idle_timeout (snd (fst (run_state env s w plc)))
      = next_idle_timeout plc)
  /\ (let '(w1, plc1, rc1) :=
        state_tag_response_ready Sim.env Sim.start
          (Scenario.two_in_flight Scenario.packing_layer 1001) in
      Sim.log w1 = [Sim.EvLayer 4 24; Sim.EvProcessResponse 101 4 24 7]
      /\ rc1 = PLCTAG_STATUS_PENDING
      /\ state_func plc1 = Some st_dispatch_requests
      /\ is_connected plc1 = true
      /\ Sim.now w1 + idle_timeout_ms plc1 = 6000
      /\ next_idle_timeout plc1 = 1001
      /\ dispatch_outcome Sim.env (Sim.at_time 1002 w1) plc1
         = (Some st_start_disconnect, PLCTAG_STATUS_PENDING)).
Proof.
  split.
  - intros; apply run_state_frame.
  - vm_compute; repeat split.
Qed.

(** C1 (the code departs from the claim).  One entry into
    [tag_resp_ready] takes at most one request off the queue, whatever
    the layers answer.  With two requests in flight and a frame that
    packs both responses: when the stack hands over the first response
    and answers pending (more remain), the engine treats it as an error,
    no request callback runs, the queue keeps both requests and the
    engine backs off into [start_disconnect]; when the stack answers ok
    for the first response, the head's callback runs on [4 .. 24) and the
    engine leaves for [dispatch] with the second request still queued. *)
Theorem C1_one_response_per_entry :
  (forall (W attr : Type) (env : Env W attr) (w : W) (plc : plc_s W),
      (List.length (request_list plc)
       <= S (List.length
               (request_list
                  (snd (fst (state_tag_response_ready env w plc))))))%nat)
  /\ (let '(w1, plc1, rc1) :=
        state_tag_response_ready Sim.env Sim.start
          (Scenario.two_in_flight Scenario.packed_response_layer 6000) in
      Sim.log w1 = [Sim.EvLayer 4 14]
      /\ map (@req_addr _) (request_list plc1) = [101; 102]
      /\ state_func plc1 = Some st_start_disconnect
      /\ rc1 = PLCTAG_STATUS_PENDING)
  /\ (let '(w1, plc1, rc1) :=
        state_tag_response_ready Sim.env Sim.start
          (Scenario.two_in_flight Scenario.packing_layer 6000) in
      Sim.log w1 = [Sim.EvLayer 4 24; Sim.EvProcessResponse 101 4 24 7]
      /\ map (@req_addr _) (request_list plc1) = [102]
      /\ state_func plc1 = Some st_dispatch_requests
      /\ rc1 = PLCTAG_STATUS_PENDING).
Proof.
  split; [|vm_compute; repeat split].
  intros W attr env w plc.
  unfold state_tag_response_ready, DISCONNECT_ON_ERROR, back_to_dispatch.
  repeat break_match; cbn in *; try lia;
    match goal with
    | H : request_list plc = _ |- _ => rewrite H; cbn; lia
    end.
Qed.

(** ** Packing requests *)

Section Packing.

Variables (W attr : Type) (env : Env W attr).

(** What the disconnect-and-back-off policy leaves: the only call that
    leaves plc.c is the one to the clock. *)
Lemma DISCONNECT_ON_ERROR_outcome (w : W) (plc : plc_s W) :
  let '(w', plc', rc) := DISCONNECT_ON_ERROR env w plc in
  w' = fst (time_ms env w)
  /\ state_func plc' = Some st_start_disconnect
  /\ rc = PLCTAG_STATUS_PENDING
  /\ retry_interval_ms plc' = backoff (retry_interval_ms plc)
  /\ next_retry_time plc'
     = int64 (snd (time_ms env w) + backoff (retry_interval_ms plc))
  /\ payload_start plc' = payload_start plc
  /\ payload_end plc' = payload_end plc
  /\ request_list plc' = request_list plc.
Proof.
  unfold DISCONNECT_ON_ERROR, backoff; cbn.
  destruct (int32 (retry_interval_ms plc * 2) >? MAX_RETRY_INTERVAL_MS);
    destruct (time_ms env w); cbn; repeat split.
Qed.

(** What sending leaves when the PLC is not terminating and the socket
    takes the write. *)
Lemma send_tag_request_outcome (w : W) (plc : plc_s W) (data_end : Z) :
  is_terminating plc = false ->
  snd (socket_callback_when_write_done env w (socket plc) (data plc) data_end)
  = PLCTAG_STATUS_OK ->
  let '(w', plc', rc) := send_tag_request env w plc data_end in
  w' = fst (socket_callback_when_write_done env w (socket plc) (data plc)
              data_end)
  /\ state_func plc' = Some st_tag_request_sent
  /\ payload_end plc' = data_end
  /\ rc = PLCTAG_STATUS_OK.
Proof.
  intros Ht; unfold send_tag_request; rewrite Ht; cbn.
  destruct (socket_callback_when_write_done _ _ _ _ _) as [w1 rc]; cbn.
  intros ->; cbn; repeat split.
Qed.

(** *** Requests that fit

    Where [state_build_tag_request] stands between two rounds of its
    loop: the locals [data_start], [data_end], [old_data_end] and
    [req_id], and the requests of the queue that the loop has behind
    it. *)
Record filling : Type := mk_filling {
  f_world : W;
  f_plc : plc_s W;
  f_packed : list (plc_request_s W);
  f_start : Z;
  f_end : Z;
  f_old_end : Z;
  f_id : Z }.

(** The locals as the function initialises them. *)
Definition on_entry (w : W) (plc : plc_s W) : filling :=
  mk_filling w plc [] (payload_start plc) (payload_end plc)
    (payload_end plc) (current_request_id plc).

(** A round that packs [request] into the frame and leaves room for
    more: [build_request] answers ok, [build_layer] answers pending.
    [rest] is the queue behind [request]. *)
Definition fitting_round (request : plc_request_s W)
    (rest : list (plc_request_s W)) (f : filling) : option filling :=
  let plc := f_plc f in
  let r := build_request request (f_world f) (context request) (data plc)
             (data_capacity plc) (f_start f) (f_end f) (f_id f) in
  if res_rc r =?s PLCTAG_STATUS_OK then
    let request := set_req_id (f_id f) request in
    let plc := set_request_list (f_packed f ++ request :: rest)
                 (wrote r plc) in
    let r2 := build_layer (top_layer plc) (res_world r) (data plc)
                (data_capacity plc) (res_start r) (res_end r) (f_id f) in
    if res_rc r2 =?s PLCTAG_STATUS_PENDING then
      Some (mk_filling (res_world r2) (wrote r2 plc)
              (f_packed f ++ [request]) (res_start r2) (res_end r2)
              (res_end r) (res_req_id r2))
    else None
  else None.

(** The requests of [fitted] are packed one after the other, with
    [rest] queued behind them. *)
Fixpoint fitting_rounds (fitted rest : list (plc_request_s W))
    (f : filling) : option filling :=
  match fitted with
  | [] => Some f
  | request :: fitted =>
      match fitting_round request (fitted ++ rest) f with
      | Some f => fitting_rounds fitted rest f
      | None => None
      end
  end.

(** The loop, resumed where [f] stands. *)
Definition resume (current : list (plc_request_s W)) (f : filling)
    (first_try : bool) : W * plc_s W * status :=
  build_tag_request_loop env current (f_packed f) (f_world f) (f_plc f)
    (f_start f) (f_end f) (f_old_end f) (f_id f) first_try.

Lemma fitting_round_resume (request : plc_request_s W)
    (rest : list (plc_request_s W)) (f f' : filling) (first_try : bool) :
  is_terminating (f_plc f) = false ->
  rest <> [] ->
  fitting_round request rest f = Some f' ->
  resume (request :: rest) f first_try = resume rest f' false
  /\ is_terminating (f_plc f') = false
  /\ data_capacity (f_plc f') = data_capacity (f_plc f)
  /\ top_layer (f_plc f') = top_layer (f_plc f)
  /\ socket (f_plc f') = socket (f_plc f)
  /\ retry_interval_ms (f_plc f') = retry_interval_ms (f_plc f)
  /\ payload_end (f_plc f') = payload_end (f_plc f).
Proof.
  intros Ht Hrest; unfold fitting_round, resume.
  cbn [build_tag_request_loop]; rewrite Ht.
  set (r := build_request request (f_world f) (context request)
              (data (f_plc f)) (data_capacity (f_plc f)) (f_start f)
              (f_end f) (f_id f)).
  destruct (res_rc r =?s PLCTAG_STATUS_OK) eqn:Er; [|discriminate].
  apply status_eqb_eq in Er; rewrite Er.
  replace (PLCTAG_STATUS_OK <>?s PLCTAG_STATUS_OK) with false
    by reflexivity.
  replace (PLCTAG_STATUS_OK =?s PLCTAG_ERR_TOO_SMALL) with false
    by reflexivity.
  cbn [andb data wrote set_data set_request_list top_layer data_capacity].
  set (r2 := build_layer (top_layer (f_plc f)) (res_world r) (res_data r)
               (data_capacity (f_plc f)) (res_start r) (res_end r)
               (f_id f)).
  destruct (res_rc r2 =?s PLCTAG_STATUS_PENDING) eqn:Er2; [|discriminate].
  apply status_eqb_eq in Er2; rewrite Er2.
  replace (PLCTAG_STATUS_PENDING <>?s PLCTAG_STATUS_PENDING) with false
    by reflexivity.
  replace (PLCTAG_STATUS_PENDING =?s PLCTAG_STATUS_OK) with false
    by reflexivity.
  rewrite andb_false_r.
  intros [= <-]; cbn [f_plc f_world f_packed f_start f_end f_old_end f_id].
  destruct rest as [|r3 rest]; [congruence|].
  repeat split; exact Ht.
Qed.

Lemma fitting_rounds_resume (fitted : list (plc_request_s W)) :
  forall (request : plc_request_s W) (rest : list (plc_request_s W))
         (f f' : filling) (first_try : bool),
    is_terminating (f_plc f) = false ->
    fitting_rounds fitted (request :: rest) f = Some f' ->
    resume (fitted ++ request :: rest) f first_try
    = resume (request :: rest) f'
        (match fitted with [] => first_try | _ :: _ => false end)
    /\ is_terminating (f_plc f') = false
    /\ data_capacity (f_plc f') = data_capacity (f_plc f)
    /\ top_layer (f_plc f') = top_layer (f_plc f)
    /\ socket (f_plc f') = socket (f_plc f)
    /\ retry_interval_ms (f_plc f') = retry_interval_ms (f_plc f)
    /\ payload_end (f_plc f') = payload_end (f_plc f).
Proof.
  induction fitted as [|r1 fitted IH];
    intros request rest f f' first_try Ht; cbn [fitting_rounds app].
  - intros [= <-]; repeat split; exact Ht.
  - destruct (fitting_round r1 (fitted ++ request :: rest) f) as [f1|] eqn:E1;
      [|discriminate].
    intros E.
    assert (fitted ++ request :: rest <> []) as Hne
      by (destruct fitted; discriminate).
    destruct (fitting_round_resume r1 f first_try Ht Hne E1)
      as (R1 & T1 & C1 & L1 & S1 & I1 & P1).
    destruct (IH request rest f1 f' false T1 E)
      as (R2 & T2 & C2 & L2 & S2 & I2 & P2).
    rewrite R1, R2. repeat split; try congruence.
    destruct fitted; reflexivity.
Qed.

End Packing.

(** Whether the log shows no [build_request] after one that answered
    [PLCTAG_ERR_TOO_SMALL]. *)
Fixpoint sends_after_too_small (l : list Sim.event) : bool :=
  match l with
  | [] => true
  | Sim.EvBuildRequest _ PLCTAG_ERR_TOO_SMALL :: l =>
      forallb (fun e => match e with
                        | Sim.EvBuildRequest _ _ => false
                        | _ => true
                        end) l
  | _ :: l => sends_after_too_small l
  end.


(** The first request of [Scenario.three_requests] fits, the second,
    which is the last of the queue, does not. *)
Definition small_then_large : plc_s Sim.world :=
  set_request_list [Sim.request 101 (-1) 10; Sim.request 102 (-1) 60]
    Scenario.three_requests.



(** ** The payload markers *)

Definition ordered (cap s e : Z) : Prop := 0 <= s /\ s <= e /\ e <= cap.

(** (I2), with the marker known to be non-negative. *)
Definition buffer_inv {W : Type} (p : plc_s W) : Prop :=
  ordered (data_capacity p) (payload_start p) (payload_end p).

(** A call kept its offsets within a buffer of [cap] bytes. *)
Definition in_bounds {W : Type} (cap : Z) (r : call_result W) : Prop :=
  ordered cap (res_start r) (res_end r).

(** A layer stack that is called with a buffer of [cap] bytes keeps the
    offsets it is handed within the bounds of that buffer. *)
Definition layer_keeps_bounds {W : Type} (cap : Z) (l : plc_layer_s W)
  : Prop :=
  forall w d s e id, ordered cap s e ->
    in_bounds cap (connect l w d cap s e)
    /\ in_bounds cap (disconnect l w d cap s e)
    /\ in_bounds cap (reserve_space l w d cap s e id)
    /\ in_bounds cap (build_layer l w d cap s e id)
    /\ in_bounds cap (layer_process_response l w d cap s e id).

Definition request_keeps_bounds {W : Type} (cap : Z) (r : plc_request_s W)
  : Prop :=
  forall w c d s e id, ordered cap s e ->
    in_bounds cap (build_request r w c d cap s e id)
    /\ in_bounds cap (process_response r w c d cap s e id).

(** The hypothesis of the claim: every layer and request callback of the
    PLC, called with the buffer of the PLC, keeps the offsets it is
    handed within the buffer bounds. *)
Definition callbacks_keep_bounds {W : Type} (p : plc_s W) : Prop :=
  layer_keeps_bounds (data_capacity p) (top_layer p)
  /\ Forall (request_keeps_bounds (data_capacity p)) (request_list p).

(** Offsets from [lo] on, in order, within a buffer of [cap] bytes. *)
Definition in_window (lo cap s e : Z) : Prop := lo <= s /\ s <= e /\ e <= cap.

(** [build_request] and [build_layer] keep to the payload window that
    was reserved, [payload_start .. data_capacity]: handed offsets in
    the window they answer offsets in the window, in order.
    [build_layer] is held to that also when the two offsets it is
    handed are not in order: after a too small answer the engine hands
    it the start that the request left with the end of the request
    before. *)
Definition builds_keep_window {W : Type} (p : plc_s W) : Prop :=
  let lo := payload_start p in
  let cap := data_capacity p in
  (forall w d s e id, lo <= s <= cap -> lo <= e <= cap ->
     let r := build_layer (top_layer p) w d cap s e id in
     in_window lo cap (res_start r) (res_end r))
  /\ Forall (fun request =>
               forall w c d s e id, in_window lo cap s e ->
                 let r := build_request request w c d cap s e id in
                 in_window lo cap (res_start r) (res_end r))
       (request_list p).

Section Markers.

Variables (W attr : Type) (env : Env W attr).

(** What can happen to a PLC from one state boundary to the next. *)
Inductive plc_event : Type :=
(** [plc_state_runner] calls [plc->state_func]. *)
| RunsState (w : W)
(** A socket operation that was armed with [plc->data] and
    [&plc->payload_end] completes: the socket has filled the buffer
    and stores a length through the pointer. *)
| SocketStores (d : buffer) (len : Z)
(** [plc_set_buffer_size] *)
| SetsBufferSize (w : W) (buffer_size : Z)
(** [plc_start_request] or [plc_stop_request] relinks the queue. *)
| Relinks (l : list (plc_request_s W)).

Definition happens (e : plc_event) (p : plc_s W) : plc_s W :=
  match e with
  | RunsState w =>
      match state_func p with
      | Some s => snd (fst (run_state env s w p))
      | None => p
      end
  | SocketStores d len => set_payload_end len (set_data d p)
  | SetsBufferSize w buffer_size =>
      match plc_set_buffer_size env w (Some p) buffer_size with
      | (_, Some p', _) => p'
      | (_, None, _) => p
      end
  | Relinks l => set_request_list l p
  end.

(** The PLC after the events of [es], first to last. *)
Definition run (es : list plc_event) (p : plc_s W) : plc_s W :=
  fold_left (fun p e => happens e p) es p.

(** What is supposed of an event of a run: of a state function,
    the hypothesis on the callbacks and, in [build_tag_req], that they
    keep to the reserved window; of the socket, that the length it
    stores lies between [payload_start] and the capacity. *)
Definition permitted (e : plc_event) (p : plc_s W) : Prop :=
  match e with
  | RunsState _ =>
      callbacks_keep_bounds p
      /\ (state_func p = Some st_build_tag_request -> builds_keep_window p)
  | SocketStores _ len => payload_start p <= len <= data_capacity p
  | SetsBufferSize _ _ | Relinks _ => True
  end.

Fixpoint permitted_run (es : list plc_event) (p : plc_s W) : Prop :=
  match es with
  | [] => True
  | e :: es => permitted e p /\ permitted_run es (happens e p)
  end.

Lemma layer_bounds (cap : Z) (l : plc_layer_s W) :
  layer_keeps_bounds cap l ->
  (forall w d s e, ordered cap s e -> in_bounds cap (connect l w d cap s e))
  /\ (forall w d s e, ordered cap s e ->
      in_bounds cap (disconnect l w d cap s e))
  /\ (forall w d s e id, ordered cap s e ->
      in_bounds cap (reserve_space l w d cap s e id))
  /\ (forall w d s e id, ordered cap s e ->
      in_bounds cap (build_layer l w d cap s e id))
  /\ (forall w d s e id, ordered cap s e ->
      in_bounds cap (layer_process_response l w d cap s e id)).
Proof.
  intros H; repeat split; intros; try apply (H w d s e 0 H0);
    apply (H w d s e id H0).
Qed.

Lemma DISCONNECT_ON_ERROR_inv (w : W) (p : plc_s W) :
  buffer_inv p -> buffer_inv (snd (fst (DISCONNECT_ON_ERROR env w p))).
Proof.
  unfold DISCONNECT_ON_ERROR, buffer_inv; repeat break_match; cbn; tauto.
Qed.

Lemma RESET_ON_ERROR_inv (w : W) (p : plc_s W) :
  buffer_inv p -> buffer_inv (snd (fst (RESET_ON_ERROR env w p))).
Proof.
  unfold RESET_ON_ERROR, reset_plc, buffer_inv; repeat break_match; cbn;
    tauto.
Qed.

Lemma send_tag_request_inv (w : W) (p : plc_s W) (data_end : Z) :
  buffer_inv p ->
  payload_start p <= data_end <= data_capacity p ->
  buffer_inv (snd (fst (send_tag_request env w p data_end))).
Proof.
  intros Hi Hd; unfold send_tag_request, back_to_dispatch.
  destruct (is_terminating p); [exact Hi|].
  destruct (socket_callback_when_write_done _ _ _ _ _) as [w1 rc].
  assert (buffer_inv (NEXT_STATE st_tag_request_sent
                        (set_payload_end data_end p))) as Hi'
    by (unfold buffer_inv, ordered in *; cbn; lia).
  destruct (rc <>?s PLCTAG_STATUS_OK);
    [apply DISCONNECT_ON_ERROR_inv|]; exact Hi'.
Qed.

(** The loop keeps [data_start], [data_end] and [old_data_end] in the
    reserved window. *)
Lemma build_tag_request_loop_inv (current : list (plc_request_s W)) :
  forall packed w p data_start data_end old_data_end id first_try,
    (forall w d s e id,
       payload_start p <= s <= data_capacity p ->
       payload_start p <= e <= data_capacity p ->
       let r := build_layer (top_layer p) w d (data_capacity p) s e id in
       in_window (payload_start p) (data_capacity p) (res_start r)
         (res_end r)) ->
    Forall (fun request =>
              forall w c d s e id,
                in_window (payload_start p) (data_capacity p) s e ->
                let r := build_request request w c d (data_capacity p) s e
                           id in
                in_window (payload_start p) (data_capacity p) (res_start r)
                  (res_end r))
      current ->
    buffer_inv p ->
    in_window (payload_start p) (data_capacity p) data_start data_end ->
    (first_try = false ->
     payload_start p <= old_data_end <= data_capacity p) ->
    buffer_inv
      (snd (fst (build_tag_request_loop env current packed w p data_start
                   data_end old_data_end id first_try))).
Proof.
  induction current as [|request rest IH];
    intros packed w p data_start data_end old_data_end id first_try
      Hle Hre Hi Hw Hold;
    cbn [build_tag_request_loop]; unfold back_to_dispatch.
  - destruct (is_terminating p); exact Hi.
  - destruct (is_terminating p); [exact Hi|].
    inversion Hre as [|? ? Hreq Hre']; subst.
    set (r := build_request request w (context request) (data p)
                (data_capacity p) data_start data_end id).
    assert (in_window (payload_start p) (data_capacity p) (res_start r)
              (res_end r)) as Hb by (apply Hreq, Hw).
    unfold in_window in Hb, Hw.
    destruct ((res_rc r <>?s PLCTAG_STATUS_OK)
              && (res_rc r <>?s PLCTAG_ERR_TOO_SMALL));
      [apply DISCONNECT_ON_ERROR_inv; exact Hi|].
    destruct (res_rc r =?s PLCTAG_ERR_TOO_SMALL) eqn:Ets; cbn [andb].
    + destruct first_try; [apply DISCONNECT_ON_ERROR_inv; exact Hi|].
      specialize (Hold eq_refl).
      cbn [data wrote set_data set_request_list top_layer data_capacity].
      set (r2 := build_layer (top_layer p) (res_world r) (res_data r)
                   (data_capacity p) (res_start r) old_data_end id).
      assert (in_window (payload_start p) (data_capacity p) (res_start r2)
                (res_end r2)) as Hb2 by (apply Hle; lia).
      unfold in_window in Hb2.
      destruct ((res_rc r2 <>?s PLCTAG_STATUS_OK)
                && (res_rc r2 <>?s PLCTAG_STATUS_PENDING));
        [apply DISCONNECT_ON_ERROR_inv; exact Hi|].
      destruct (res_rc r2 =?s PLCTAG_STATUS_OK).
      * apply send_tag_request_inv; [exact Hi|cbn; lia].
      * destruct rest as [|r3 rest].
        -- apply send_tag_request_inv; [exact Hi|cbn; lia].
        -- apply IH; try assumption; intros _; cbn; lia.
    + cbn [data wrote set_data set_request_list top_layer data_capacity].
      set (r2 := build_layer (top_layer p) (res_world r) (res_data r)
                   (data_capacity p) (res_start r) (res_end r) id).
      assert (in_window (payload_start p) (data_capacity p) (res_start r2)
                (res_end r2)) as Hb2 by (apply Hle; lia).
      unfold in_window in Hb2.
      destruct ((res_rc r2 <>?s PLCTAG_STATUS_OK)
                && (res_rc r2 <>?s PLCTAG_STATUS_PENDING));
        [apply DISCONNECT_ON_ERROR_inv; exact Hi|].
      destruct (res_rc r2 =?s PLCTAG_STATUS_OK).
      * apply send_tag_request_inv; [exact Hi|cbn; lia].
      * destruct rest as [|r3 rest].
        -- apply send_tag_request_inv; [exact Hi|cbn; lia].
        -- apply IH; try assumption; intros _; cbn; lia.
Qed.

Lemma run_state_inv (s : state_id) (w : W) (p : plc_s W) :
  callbacks_keep_bounds p ->
  (s = st_build_tag_request -> builds_keep_window p) ->
  buffer_inv p ->
  buffer_inv (snd (fst (run_state env s w p))).
Proof.
  intros [Hl Hr] Hwin Hi.
  destruct (layer_bounds Hl) as (Hc & Hd & Hres & Hbl & Hpr).
  assert (0 <= data_capacity p) as Hcap
    by (unfold buffer_inv, ordered in Hi; lia).
  destruct s; cbn [run_state];
    try (destruct (Hwin eq_refl) as [Hle Hre];
         apply build_tag_request_loop_inv; try assumption;
         [unfold buffer_inv, ordered, in_window in *; lia|discriminate]);
    clear Hwin;
    unfold state_dispatch_requests, state_reserve_space_for_tag_request,
      state_tag_request_sent, state_tag_response_ready, state_start_connect,
      state_build_layer_connect_request, state_layer_connect_request_sent,
      state_layer_connect_response_ready, state_start_disconnect,
      state_build_layer_disconnect_request,
      state_layer_disconnect_request_sent,
      state_layer_disconnect_response_ready, state_terminate,
      DISCONNECT_ON_ERROR, RESET_ON_ERROR, reset_plc, back_to_dispatch;
    repeat break_match;
    unfold buffer_inv, NEXT_STATE, wrote_payload, wrote in *; cbn;
    repeat match goal with
      | |- context [res_end ?r] =>
          lazymatch goal with
          | _ : in_bounds (data_capacity p) r |- _ => fail
          | _ =>
              assert (in_bounds (data_capacity p) r)
                by (first [apply Hc | apply Hd | apply Hres | apply Hbl
                          | apply Hpr];
                    unfold in_bounds, ordered in *; lia)
          end
      end;
    unfold in_bounds, ordered in *; lia.
Qed.

Lemma happens_inv (e : plc_event) (p : plc_s W) :
  buffer_inv p -> permitted e p -> buffer_inv (happens e p).
Proof.
  intros Hi; destruct e as [w|d len|w n|l]; cbn [happens permitted].
  - intros [Hc Hwin]. destruct (state_func p) as [s|] eqn:Es; [|exact Hi].
    apply run_state_inv; [exact Hc| |exact Hi].
    intros ->; apply Hwin; reflexivity.
  - intros Hlen; unfold buffer_inv, ordered in *; cbn; lia.
  - intros _.
    destruct (plc_set_buffer_size_capacity env w p n)
      as (w' & p' & rc & E & Hc & Hs & He).
    rewrite E; unfold buffer_inv, ordered in *; lia.
  - intros _; exact Hi.
Qed.

Lemma run_inv (es : list plc_event) :
  forall p, buffer_inv p -> permitted_run es p -> buffer_inv (run es p).
Proof.
  induction es as [|e es IH]; intros p Hi; cbn [run fold_left permitted_run];
    [trivial|].
  intros [He Hes]; apply IH; [apply happens_inv; assumption|exact Hes].
Qed.

Lemma permitted_run_firstn (n : nat) :
  forall es p, permitted_run es p -> permitted_run (firstn n es) p.
Proof.
  induction n as [|n IH]; intros [|e es] p; cbn; try tauto.
  intros [He Hes]; split; [exact He|apply IH, Hes].
Qed.

End Markers.

Arguments SocketStores {W} d len.

Lemma short_frame_layer_keeps_bounds (cap : Z) :
  layer_keeps_bounds cap Scenario.short_frame_layer.
Proof.
  intros w d s e id Ho; unfold in_bounds, ordered in *; cbn.
  repeat split; lia.
Qed.

Lemma fixed_request_keeps_bounds (cap addr : Z) :
  request_keeps_bounds cap (Scenario.fixed_request addr).
Proof.
  intros w c d s e id Ho; unfold in_bounds, ordered in *; cbn.
  repeat split; lia.
Qed.


(** *** A run with a header reserved *)

Module Framed.

Import Sim.

(** The one-layer stack of [Scenario.packing_layer], which reserves a
    4-byte header; of a received frame it hands over the bytes after
    the header, and nothing of a frame that is shorter than the
    header. *)
Definition layer : plc_layer_s world :=
  Sim.layer (fun cap s e => (s, e, PLCTAG_STATUS_OK))
    (fun cap s e => (s, e, PLCTAG_STATUS_OK))
    (fun cap s e id => (4, cap, 7, PLCTAG_STATUS_OK))
    (fun cap s e id => (e, cap, id + 1, PLCTAG_STATUS_PENDING))
    (fun cap s e id => (Z.min 4 e, e, 7, PLCTAG_STATUS_OK)).

(** A connected PLC in [dispatch] with one request of 10 bytes queued
    before a 64-byte buffer. *)
Definition waiting : plc_s world :=
  Scenario.plc layer [request 101 (-1) 10] st_dispatch_requests 64 6000.

(** From [dispatch] through [reserve_space], where [4 .. 64) is
    reserved, and [build_tag_req], where 14 bytes are sent; the write
    completes; [tag_req_sent] arms the read; a frame of 24 bytes
    arrives; [tag_resp_ready] hands it to the request. *)
Definition exchange : list (plc_event world) :=
  [RunsState start; RunsState start; RunsState start;
   SocketStores (Some (repeat 0 64%nat)) 14;
   RunsState start;
   SocketStores (Some (repeat 1 64%nat)) 24;
   RunsState start].

(** The state and the two markers at a boundary. *)
Definition markers (p : plc_s world) : option state_id * Z * Z :=
  (state_func p, payload_start p, payload_end p).

End Framed.

Lemma framed_layer_keeps_bounds (cap : Z) :
  4 <= cap -> layer_keeps_bounds cap Framed.layer.
Proof.
  intros Hcap w d s e id Ho; unfold in_bounds, ordered in *; cbn.
  repeat split; lia.
Qed.

Lemma build_bytes_keeps_bounds (cap addr c id size : Z) :
  0 <= size ->
  request_keeps_bounds cap
    (mk_request addr c id (Sim.build_bytes size) Sim.accept_response).
Proof.
  intros Hsize w c0 d s e id0 Ho; unfold in_bounds, ordered in *; cbn.
  unfold Sim.build_bytes.
  destruct (Z.leb_spec (s + size) e); cbn; repeat split; lia.
Qed.

Lemma framed_builds_keep_window (p : plc_s Sim.world) (addr c id size : Z) :
  0 <= size ->
  top_layer p = Framed.layer ->
  request_list p
  = [mk_request addr c id (Sim.build_bytes size) Sim.accept_response] ->
  builds_keep_window p.
Proof.
  intros Hsize Hl Hq; unfold builds_keep_window; rewrite Hl, Hq.
  cbv zeta; split.
  - intros w d s e id0 Hs He; unfold in_window; cbn; lia.
  - apply Forall_cons; [|apply Forall_nil].
    intros w c0 d s e id0 Hw; unfold in_window in *; cbn.
    unfold Sim.build_bytes.
    destruct (Z.leb_spec (s + size) e); cbn; lia.
Qed.

(** The boundaries of the exchange: the header is reserved from the
    second to the fourth. *)
Lemma framed_exchange_markers :
  map (fun n => Framed.markers
                  (run Sim.env (firstn n Framed.exchange) Framed.waiting))
    [0; 1; 2; 3; 4; 5; 6; 7]%nat
  = [(Some st_dispatch_requests, 0, 0);
     (Some st_reserve_space_for_tag_request, 0, 0);
     (Some st_build_tag_request, 4, 64);
     (Some st_tag_request_sent, 4, 14);
     (Some st_tag_request_sent, 4, 14);
     (Some st_tag_response_ready, 0, 0);
     (Some st_tag_response_ready, 0, 24);
     (Some st_dispatch_requests, 0, 24)].
Proof. vm_compute; reflexivity. Qed.



(** * The byte access macros of plc.h *)

(** A value cast to an unsigned type of [bits] bits. *)
Definition uint (bits z : Z) : Z := z mod 2 ^ bits.

(** [buffer[offset]] as an rvalue.  Outside the array C's behaviour is
    undefined; the model reads 0 there. *)
Definition get_byte (bytes : list Z) (offset : Z) : Z :=
  if offset <? 0 then 0 else nth (Z.to_nat offset) bytes 0.

Fixpoint put_nth (n : nat) (v : Z) (l : list Z) : list Z :=
  match l, n with
  | [], _ => []
  | _ :: l, O => v :: l
  | x :: l, S n => x :: put_nth n v l
  end.

(** [buffer[offset] = v].  Outside the array C's behaviour is undefined;
    the model stores nothing there. *)
Definition put_byte (bytes : list Z) (offset v : Z) : list Z :=
  if offset <? 0 then bytes else put_nth (Z.to_nat offset) v bytes.

(** How a macro leaves: control falls through to the next statement, or
    the macro has assigned [rc] and left the enclosing loop by [break].
    Either way the variables it names hold what [a] says. *)
Inductive outcome (A : Type) : Type :=
| Next (a : A)
| Break (rc : status) (a : A).

Definition and_then {A : Type} (o : outcome A) (f : A -> outcome A)
  : outcome A :=
  match o with
  | Next a => f a
  | Break rc a => Break rc a
  end.

(** The store every setter repeats:
    [if(offset < capacity) { if(buffer) { buffer[offset] = v; } }
     else { rc = PLCTAG_ERR_OUT_OF_BOUNDS; break; } (offset)++]
    on the pair of [buffer] and [offset]. *)
Definition try_put (capacity v : Z) (st : buffer * Z) : outcome (buffer * Z) :=
  let '(buf, offset) := st in
  if offset <? capacity
  then Next (option_map (fun b => put_byte b offset v) buf, offset + 1)
  else Break PLCTAG_ERR_OUT_OF_BOUNDS st.

Definition TRY_SET_BYTE (buf : buffer) (capacity offset val : Z)
  : outcome (buffer * Z) :=
  try_put capacity (uint 8 (uint 32 val)) (buf, offset).

Definition TRY_SET_U16_LE (buf : buffer) (capacity offset val : Z)
  : outcome (buffer * Z) :=
  let v := uint 16 val in
  and_then (try_put capacity (uint 8 (Z.land v 255)) (buf, offset))
    (try_put capacity (uint 8 (Z.land (Z.shiftr v 8) 255))).

Definition TRY_SET_U32_LE (buf : buffer) (capacity offset val : Z)
  : outcome (buffer * Z) :=
  let v := uint 32 val in
  and_then
    (and_then
       (and_then (try_put capacity (uint 8 (Z.land v 255)) (buf, offset))
          (try_put capacity (uint 8 (Z.land (Z.shiftr v 8) 255))))
       (try_put capacity (uint 8 (Z.land (Z.shiftr v 16) 255))))
    (try_put capacity (uint 8 (Z.land (Z.shiftr v 24) 255))).

Definition TRY_SET_U64_LE (buf : buffer) (capacity offset val : Z)
  : outcome (buffer * Z) :=
  let v := uint 64 val in
  and_then
    (and_then
       (and_then
          (and_then
             (and_then
                (and_then
                   (and_then
                      (try_put capacity (uint 8 (Z.land v 255))
                         (buf, offset))
                      (try_put capacity (uint 8 (Z.land (Z.shiftr v 8) 255))))
                   (try_put capacity (uint 8 (Z.land (Z.shiftr v 16) 255))))
                (try_put capacity (uint 8 (Z.land (Z.shiftr v 24) 255))))
             (try_put capacity (uint 8 (Z.land (Z.shiftr v 32) 255))))
          (try_put capacity (uint 8 (Z.land (Z.shiftr v 40) 255))))
       (try_put capacity (uint 8 (Z.land (Z.shiftr v 48) 255))))
    (try_put capacity (uint 8 (Z.land (Z.shiftr v 56) 255))).

(** The integer type of the lvalue [val] that a getter assigns to. *)
Inductive int_type : Type :=
| int8_t | uint8_t | int16_t | uint16_t
| int32_t | uint32_t | int64_t | uint64_t.

Definition is_signed (t : int_type) : bool :=
  match t with
  | int8_t | int16_t | int32_t | int64_t => true
  | uint8_t | uint16_t | uint32_t | uint64_t => false
  end.

Definition width (t : int_type) : Z :=
  match t with
  | int8_t | uint8_t => 8
  | int16_t | uint16_t => 16
  | int32_t | uint32_t => 32
  | int64_t | uint64_t => 64
  end.

(** A value converted to the signed type of [bits] bits.  For a value
    that the type cannot represent C leaves the result to the
    implementation; the model wraps, as two's complement targets do. *)
Definition sint (bits z : Z) : Z :=
  let u := uint bits z in
  if u <? 2 ^ (bits - 1) then u else u - 2 ^ bits.

(** The conversion that an assignment to an lvalue of type [t] makes.
    [val = e] leaves [convert t e] in [val], and [val |= e] leaves
    [convert t (Z.lor val e)]: whatever the type in which C computes
    the [|], it is at least as wide as the narrower operand and the
    bits that [t] keeps are those of the two's complement [Z.lor]. *)
Definition convert (t : int_type) (z : Z) : Z :=
  if is_signed t then sint (width t) z else uint (width t) z.

(** The load every getter repeats, on the pair of [offset] and [val]:
    [if(offset < capacity) { if(buffer) { val = f(val, buffer[offset]); } }
     else { rc = PLCTAG_ERR_OUT_OF_BOUNDS; break; } (offset)++]. *)
Definition try_get (buf : buffer) (capacity : Z) (f : Z -> Z -> Z)
    (st : Z * Z) : outcome (Z * Z) :=
  let '(offset, val) := st in
  if offset <? capacity
  then Next (offset + 1,
             match buf with
             | Some b => f val (get_byte b offset)
             | None => val
             end)
  else Break PLCTAG_ERR_OUT_OF_BOUNDS st.

(** The right-hand sides [(uintN_t)buffer[offset]] and
    [val | (uintN_t)(((uintN_t)buffer[offset]) << shift)]. *)
Definition load (bits : Z) (val byte : Z) : Z := uint bits (uint bits byte).

Definition load_or (bits shift : Z) (val byte : Z) : Z :=
  Z.lor val (uint bits (Z.shiftl (uint bits byte) shift)).

(** The assignment of a right-hand side to [val], of type [t]. *)
Definition assign (t : int_type) (rhs : Z -> Z -> Z) : Z -> Z -> Z :=
  fun val byte => convert t (rhs val byte).

Definition TRY_GET_BYTE (t : int_type) (buf : buffer)
    (capacity offset val : Z) : outcome (Z * Z) :=
  try_get buf capacity (assign t (fun _ byte => byte)) (offset, val).

(** In the 16-bit getter the byte is widened to [unsigned int] before
    the shift and the result cast to [uint16_t]. *)
Definition TRY_GET_U16_LE (t : int_type) (buf : buffer)
    (capacity offset val : Z) : outcome (Z * Z) :=
  and_then
    (try_get buf capacity (assign t (fun _ byte => uint 16 byte))
       (offset, val))
    (try_get buf capacity
       (assign t
          (fun val byte =>
             Z.lor val (uint 16 (Z.shiftl (uint 32 byte) 8))))).

Definition TRY_GET_U32_LE (t : int_type) (buf : buffer)
    (capacity offset val : Z) : outcome (Z * Z) :=
  and_then
    (and_then
       (and_then (try_get buf capacity (assign t (load 32)) (offset, val))
          (try_get buf capacity (assign t (load_or 32 8))))
       (try_get buf capacity (assign t (load_or 32 16))))
    (try_get buf capacity (assign t (load_or 32 24))).

Definition TRY_GET_U64_LE (t : int_type) (buf : buffer)
    (capacity offset val : Z) : outcome (Z * Z) :=
  and_then
    (and_then
       (and_then
          (and_then
             (and_then
                (and_then
                   (and_then
                      (try_get buf capacity (assign t (load 64)) (offset, val))
                      (try_get buf capacity (assign t (load_or 64 8))))
                   (try_get buf capacity (assign t (load_or 64 16))))
                (try_get buf capacity (assign t (load_or 64 24))))
             (try_get buf capacity (assign t (load_or 64 32))))
          (try_get buf capacity (assign t (load_or 64 40))))
       (try_get buf capacity (assign t (load_or 64 48))))
    (try_get buf capacity (assign t (load_or 64 56))).

(** ** Properties of the byte access macros *)

Lemma put_nth_length (n : nat) (v : Z) (l : list Z) :
  List.length (put_nth n v l) = List.length l.
Proof.
  revert n; induction l as [|x l IH]; intros [|n]; cbn; auto.
Qed.

Lemma nth_put_nth_same (n : nat) (v d : Z) (l : list Z) :
  (n < List.length l)%nat -> nth n (put_nth n v l) d = v.
Proof.
  revert n; induction l as [|x l IH]; intros [|n]; cbn; intros H;
    try lia; auto. apply IH; lia.
Qed.

Lemma nth_put_nth_other (n m : nat) (v d : Z) (l : list Z) :
  n <> m -> nth m (put_nth n v l) d = nth m l d.
Proof.
  revert n m; induction l as [|x l IH]; intros [|n] [|m]; cbn; intros H;
    try congruence; auto.
Qed.

Lemma put_byte_length (l : list Z) (o v : Z) :
  List.length (put_byte l o v) = List.length l.
Proof.
  unfold put_byte; destruct (o <? 0); [reflexivity|apply put_nth_length].
Qed.

Lemma get_put_same (l : list Z) (o v : Z) :
  0 <= o < Z.of_nat (List.length l) -> get_byte (put_byte l o v) o = v.
Proof.
  intros H; unfold get_byte, put_byte.
  destruct (Z.ltb_spec o 0); [lia|]. apply nth_put_nth_same; lia.
Qed.

Lemma get_put_other (l : list Z) (o o' v : Z) :
  o <> o' -> get_byte (put_byte l o v) o' = get_byte l o'.
Proof.
  intros H; unfold get_byte, put_byte.
  destruct (Z.ltb_spec o' 0); [reflexivity|].
  destruct (Z.ltb_spec o 0); [reflexivity|].
  apply nth_put_nth_other; lia.
Qed.

(** Decides the comparisons of offsets against the capacity, one store
    or load after the other. *)
Ltac walk :=
  repeat (cbn [and_then try_put try_get option_map fst snd];
          match goal with
          | |- context [?a <? ?b] => destruct (Z.ltb_spec a b); try lia
          end);
  cbn [and_then try_put try_get option_map fst snd].

(** Closes [c (x, o1) = c (x', o2)] with [x'] still to be chosen and
    the two offsets equal by arithmetic. *)
Ltac same_place :=
  eexists;
  match goal with
  | |- _ (_, ?o1) = _ (_, ?o2) => replace o2 with o1 by lia
  | |- _ (?o1, _) = _ (?o2, _) => replace o2 with o1 by lia
  end;
  reflexivity.

(** A setter of [width] bytes falls through exactly when [offset + width
    <= capacity], with the offset [width] further; otherwise it breaks
    with [PLCTAG_ERR_OUT_OF_BOUNDS] and the offset stopped at the
    capacity (or where it was, when already beyond). *)
Definition setter_bounds (width : Z)
    (set : buffer -> Z -> Z -> Z -> outcome (buffer * Z)) : Prop :=
  forall buf capacity offset val,
    (offset + width <= capacity ->
     exists buf', set buf capacity offset val = Next (buf', offset + width))
    /\ (capacity < offset + width ->
        exists buf',
          set buf capacity offset val
          = Break PLCTAG_ERR_OUT_OF_BOUNDS (buf', Z.max offset capacity)).

(** The four setters check every byte against the capacity: a store of
    1, 2, 4 or 8 bytes goes through exactly when it fits. *)
Theorem setters_check_bounds :
  setter_bounds 1 TRY_SET_BYTE /\ setter_bounds 2 TRY_SET_U16_LE
  /\ setter_bounds 4 TRY_SET_U32_LE /\ setter_bounds 8 TRY_SET_U64_LE.
Proof.
  repeat split; intros H;
    unfold TRY_SET_BYTE, TRY_SET_U16_LE, TRY_SET_U32_LE, TRY_SET_U64_LE;
    cbv zeta; walk; same_place.
Qed.

Definition getter_bounds (width : Z)
    (get : buffer -> Z -> Z -> Z -> outcome (Z * Z)) : Prop :=
  forall buf capacity offset val,
    (offset + width <= capacity ->
     exists val', get buf capacity offset val = Next (offset + width, val'))
    /\ (capacity < offset + width ->
        exists val',
          get buf capacity offset val
          = Break PLCTAG_ERR_OUT_OF_BOUNDS (Z.max offset capacity, val')).

(** The four getters check every byte against the capacity: a load of
    1, 2, 4 or 8 bytes goes through exactly when it fits, whatever the
    type of the lvalue. *)
Theorem getters_check_bounds :
  forall t : int_type,
    getter_bounds 1 (TRY_GET_BYTE t) /\ getter_bounds 2 (TRY_GET_U16_LE t)
    /\ getter_bounds 4 (TRY_GET_U32_LE t)
    /\ getter_bounds 8 (TRY_GET_U64_LE t).
Proof.
  intros t; repeat split; intros H;
    unfold TRY_GET_BYTE, TRY_GET_U16_LE, TRY_GET_U32_LE, TRY_GET_U64_LE;
    walk; same_place.
Qed.

(** The buffer a setter leaves, whichever way it leaves. *)
Definition buffer_after (o : outcome (buffer * Z)) : buffer :=
  match o with
  | Next (b, _) | Break _ (b, _) => b
  end.

(** Where a macro leaves the offset, and how. *)
Definition place {A : Type} (offset_of : A -> Z) (o : outcome A)
  : outcome Z :=
  match o with
  | Next a => Next (offset_of a)
  | Break rc a => Break rc (offset_of a)
  end.

(** A setter of [width] bytes keeps the length of the array and every
    byte outside [offset .. offset + width) and every byte from
    [capacity] on, also when it breaks half way. *)
Definition setter_frame (width : Z)
    (set : buffer -> Z -> Z -> Z -> outcome (buffer * Z)) : Prop :=
  forall bytes capacity offset val,
    0 <= offset ->
    exists bytes',
      buffer_after (set (Some bytes) capacity offset val) = Some bytes'
      /\ List.length bytes' = List.length bytes
      /\ forall i, i < offset \/ offset + width <= i \/ capacity <= i ->
                   get_byte bytes' i = get_byte bytes i.

(** The four setters write only the bytes they are asked to write, and
    none at or after the capacity. *)
Theorem setters_write_in_place :
  setter_frame 1 TRY_SET_BYTE /\ setter_frame 2 TRY_SET_U16_LE
  /\ setter_frame 4 TRY_SET_U32_LE /\ setter_frame 8 TRY_SET_U64_LE.
Proof.
  repeat split;
    intros bytes capacity offset val H0;
    unfold TRY_SET_BYTE, TRY_SET_U16_LE, TRY_SET_U32_LE, TRY_SET_U64_LE;
    cbv zeta; walk; cbn [buffer_after];
    (eexists; split; [reflexivity|]; split;
     [ now rewrite ?put_byte_length
     | intros i Hi; repeat rewrite get_put_other by lia; reflexivity ]).
Qed.

(** With a null buffer a setter stores nothing and a getter leaves [val]
    alone; both move the offset, and break, as they do on an array. *)
Definition setter_dry_run
    (set : buffer -> Z -> Z -> Z -> outcome (buffer * Z)) : Prop :=
  forall bytes capacity offset val,
    buffer_after (set None capacity offset val) = None
    /\ place snd (set None capacity offset val)
       = place snd (set (Some bytes) capacity offset val).

Definition getter_dry_run
    (get : buffer -> Z -> Z -> Z -> outcome (Z * Z)) : Prop :=
  forall bytes capacity offset val,
    (exists offset', get None capacity offset val = Next (offset', val)
                     \/ get None capacity offset val
                        = Break PLCTAG_ERR_OUT_OF_BOUNDS (offset', val))
    /\ place fst (get None capacity offset val)
       = place fst (get (Some bytes) capacity offset val).

(** A null buffer turns every setter and getter into a count of the
    bytes it needs. *)
Theorem null_buffer_is_a_dry_run :
  (setter_dry_run TRY_SET_BYTE /\ setter_dry_run TRY_SET_U16_LE
   /\ setter_dry_run TRY_SET_U32_LE /\ setter_dry_run TRY_SET_U64_LE)
  /\ (forall t : int_type,
        getter_dry_run (TRY_GET_BYTE t) /\ getter_dry_run (TRY_GET_U16_LE t)
        /\ getter_dry_run (TRY_GET_U32_LE t)
        /\ getter_dry_run (TRY_GET_U64_LE t)).
Proof.
  split; [|intros t]; repeat split;
    unfold TRY_SET_BYTE, TRY_SET_U16_LE, TRY_SET_U32_LE, TRY_SET_U64_LE,
      TRY_GET_BYTE, TRY_GET_U16_LE, TRY_GET_U32_LE, TRY_GET_U64_LE;
    cbv zeta; walk; cbn; try reflexivity;
    eexists; first [left; reflexivity | right; reflexivity].
Qed.

(** Reduces an equation between bit patterns of [v] to the bit [n],
    once [n] is known to lie in one byte. *)
Ltac bit_of v n :=
  unfold load, load_or, uint;
  change 255 with (Z.ones 8);
  repeat rewrite Z.land_ones by lia;
  repeat first
    [ rewrite Z.lor_spec
    | rewrite Z.testbit_mod_pow2 by lia
    | rewrite Z.shiftl_spec by lia
    | match goal with
      | |- context [Z.testbit (Z.shiftr ?a ?k) ?m] =>
          rewrite (Z.shiftr_spec a k m) by lia
      | |- context [Z.testbit ?a ?m] =>
          rewrite (Z.testbit_neg_r a m) by lia
      end ];
  repeat match goal with
    | |- context [Z.testbit v ?m] =>
        lazymatch m with
        | n => fail
        | _ => replace m with n by lia
        end
    end;
  repeat match goal with
    | |- context [?a <? ?b] =>
        first [ replace (a <? b) with true by (symmetry; apply Z.ltb_lt; lia)
              | replace (a <? b) with false
                  by (symmetry; apply Z.ltb_ge; lia) ]
    end;
  cbn [andb orb]; rewrite ?andb_false_r, ?orb_false_r; reflexivity.

Lemma join_u16 (v : Z) :
  let x := uint 16 v in
  Z.lor (uint 16 (uint 8 (Z.land x 255)))
    (uint 16 (Z.shiftl (uint 32 (uint 8 (Z.land (Z.shiftr x 8) 255))) 8))
  = x.
Proof.
  cbv zeta; apply Z.bits_inj'; intros n Hn.
  assert (n < 8 \/ 8 <= n < 16 \/ 16 <= n) as [H|[H|H]] by lia;
    bit_of v n.
Qed.

Lemma join_u32 (v : Z) :
  let x := uint 32 v in
  load_or 32 24
    (load_or 32 16
       (load_or 32 8 (load 32 0 (uint 8 (Z.land x 255)))
          (uint 8 (Z.land (Z.shiftr x 8) 255)))
       (uint 8 (Z.land (Z.shiftr x 16) 255)))
    (uint 8 (Z.land (Z.shiftr x 24) 255))
  = x.
Proof.
  cbv zeta; apply Z.bits_inj'; intros n Hn.
  assert (n < 8 \/ 8 <= n < 16 \/ 16 <= n < 24 \/ 24 <= n < 32 \/ 32 <= n)
    as [H|[H|[H|[H|H]]]] by lia;
    bit_of v n.
Qed.

Lemma join_u64 (v : Z) :
  let x := uint 64 v in
  load_or 64 56
    (load_or 64 48
       (load_or 64 40
          (load_or 64 32
             (load_or 64 24
                (load_or 64 16
                   (load_or 64 8 (load 64 0 (uint 8 (Z.land x 255)))
                      (uint 8 (Z.land (Z.shiftr x 8) 255)))
                   (uint 8 (Z.land (Z.shiftr x 16) 255)))
                (uint 8 (Z.land (Z.shiftr x 24) 255)))
             (uint 8 (Z.land (Z.shiftr x 32) 255)))
          (uint 8 (Z.land (Z.shiftr x 40) 255)))
       (uint 8 (Z.land (Z.shiftr x 48) 255)))
    (uint 8 (Z.land (Z.shiftr x 56) 255))
  = x.
Proof.
  cbv zeta; apply Z.bits_inj'; intros n Hn.
  assert (n < 8 \/ 8 <= n < 16 \/ 16 <= n < 24 \/ 24 <= n < 32
          \/ 32 <= n < 40 \/ 40 <= n < 48 \/ 48 <= n < 56 \/ 56 <= n < 64
          \/ 64 <= n)
    as [H|[H|[H|[H|[H|[H|[H|[H|H]]]]]]]] by lia;
    bit_of v n.
Qed.

Lemma uint8_of_uint32 (v : Z) : uint 8 (uint 32 v) = uint 8 v.
Proof.
  apply Z.bits_inj'; intros n Hn.
  assert (n < 8 \/ 8 <= n) as [H|H] by lia; bit_of v n.
Qed.

(** Reads back the bytes that were just stored. *)
Ltac read_back :=
  repeat first
    [ rewrite get_put_other by lia
    | rewrite get_put_same by (rewrite ?put_byte_length; lia) ].

(** *** Assignments to a typed lvalue *)

Lemma width_pos (t : int_type) : 0 < width t.
Proof. destruct t; reflexivity. Qed.

Lemma uint_uint (bits z : Z) : uint bits (uint bits z) = uint bits z.
Proof. unfold uint; apply Zmod_mod. Qed.

(** A conversion keeps the bits that the type has. *)
Lemma uint_convert (t : int_type) (z : Z) :
  uint (width t) (convert t z) = uint (width t) z.
Proof.
  unfold convert, sint; destruct (is_signed t); [|apply uint_uint].
  destruct (uint (width t) z <? 2 ^ (width t - 1)); [apply uint_uint|].
  unfold uint.
  replace (z mod 2 ^ width t - 2 ^ width t)
    with (z mod 2 ^ width t + (-1) * 2 ^ width t) by lia.
  rewrite Z.mod_add by (apply Z.pow_nonzero; pose proof (width_pos t); lia).
  apply Z.mod_mod; apply Z.pow_nonzero; pose proof (width_pos t); lia.
Qed.

(** And depends on nothing else. *)
Lemma convert_mod (t : int_type) (a b : Z) :
  uint (width t) a = uint (width t) b -> convert t a = convert t b.
Proof. unfold convert, sint; intros ->; reflexivity. Qed.

Lemma uint_lor (bits a b : Z) :
  0 <= bits -> uint bits (Z.lor a b) = Z.lor (uint bits a) (uint bits b).
Proof.
  intros H; unfold uint; rewrite <- !Z.land_ones by exact H.
  apply Z.land_lor_distr_l.
Qed.

Lemma lor_mod (bits a a' b : Z) :
  0 <= bits -> uint bits a = uint bits a' ->
  uint bits (Z.lor a b) = uint bits (Z.lor a' b).
Proof. intros H E; rewrite !uint_lor, E by exact H; reflexivity. Qed.

Lemma load_or_mod (t : int_type) (bits shift a a' byte : Z) :
  uint (width t) a = uint (width t) a' ->
  uint (width t) (load_or bits shift a byte)
  = uint (width t) (load_or bits shift a' byte).
Proof. apply lor_mod; pose proof (width_pos t); lia. Qed.

(** Puts the conversions of a chain of assignments off to the end. *)
Ltac convert_last :=
  apply convert_mod;
  repeat first
    [ apply load_or_mod; rewrite uint_convert
    | apply lor_mod;
      [ match goal with |- 0 <= width ?t => pose proof (width_pos t); lia end
      | rewrite uint_convert ] ];
  reflexivity.

(** An unsigned value of [n] bits is kept by the conversion to an
    unsigned type of at least [n] bits and to a signed type of more. *)
Lemma convert_fits (t : int_type) (n z : Z) :
  0 <= n -> n <= width t - (if is_signed t then 1 else 0) ->
  convert t (uint n z) = uint n z.
Proof.
  intros Hn Hw.
  assert (0 <= uint n z < 2 ^ n) as Hu
    by (apply Z.mod_pos_bound, Z.pow_pos_nonneg; lia).
  unfold convert, sint; revert Hw; destruct (is_signed t); intros Hw;
    cbv iota in Hw.
  - assert (2 ^ n <= 2 ^ (width t - 1)) as H1
      by (apply Z.pow_le_mono_r; lia).
    assert (2 ^ (width t - 1) <= 2 ^ width t) as H2
      by (apply Z.pow_le_mono_r; pose proof (width_pos t); lia).
    cbv zeta.
    replace (uint (width t) (uint n z)) with (uint n z)
      by (symmetry; apply Z.mod_small; lia).
    destruct (Z.ltb_spec (uint n z) (2 ^ (width t - 1))); [reflexivity|lia].
  - assert (2 ^ n <= 2 ^ width t) as H1 by (apply Z.pow_le_mono_r; lia).
    apply Z.mod_small; lia.
Qed.

(** What a setter of [n] bytes stored within the capacity of an array,
    the getter of that width reads back at the same offset: the value,
    cut to [8 * n] bits, as the type of the lvalue takes it. *)
Definition round_trip (n : Z)
    (set : buffer -> Z -> Z -> Z -> outcome (buffer * Z))
    (get : int_type -> buffer -> Z -> Z -> Z -> outcome (Z * Z)) : Prop :=
  forall t bytes capacity offset val val0,
    0 <= offset -> offset + n <= capacity ->
    capacity <= Z.of_nat (List.length bytes) ->
    exists bytes',
      set (Some bytes) capacity offset val = Next (Some bytes', offset + n)
      /\ get t (Some bytes') capacity offset val0
         = Next (offset + n, convert t (uint (8 * n) val)).

(** Each getter reads back what the setter of its width stored,
    converted to the type of the lvalue: unchanged when the lvalue is
    unsigned and at least as wide, or signed and wider; with the top
    bit as the sign in a signed lvalue of the same width; cut short in
    a narrower one. *)
Theorem set_then_get_round_trip :
  round_trip 1 TRY_SET_BYTE TRY_GET_BYTE
  /\ round_trip 2 TRY_SET_U16_LE TRY_GET_U16_LE
  /\ round_trip 4 TRY_SET_U32_LE TRY_GET_U32_LE
  /\ round_trip 8 TRY_SET_U64_LE TRY_GET_U64_LE
  /\ (forall t n val,
        0 <= n -> n <= width t - (if is_signed t then 1 else 0) ->
        convert t (uint n val) = uint n val)
  /\ (forall t val,
        is_signed t = true ->
        convert t (uint (width t) val) = sint (width t) val).
Proof.
  split; [|split; [|split; [|split; [|split]]]];
    try (intros t bytes capacity offset val val0 H0 Hc Hl).
  - unfold TRY_SET_BYTE; walk.
    eexists; split; [reflexivity|].
    unfold TRY_GET_BYTE; walk. read_back.
    unfold assign; now rewrite uint8_of_uint32.
  - unfold TRY_SET_U16_LE; cbv zeta; walk.
    eexists; split;
      [replace (offset + 2) with (offset + 1 + 1) by lia; reflexivity|].
    unfold TRY_GET_U16_LE; walk.
    replace (offset + 1 + 1) with (offset + 2) by lia.
    read_back. unfold assign. f_equal; f_equal.
    change (8 * 2) with 16.
    etransitivity;
      [|apply (f_equal (convert t)); exact (join_u16 val)].
    convert_last.
  - unfold TRY_SET_U32_LE; cbv zeta; walk.
    eexists; split;
      [replace (offset + 4) with (offset + 1 + 1 + 1 + 1) by lia;
       reflexivity|].
    unfold TRY_GET_U32_LE; walk.
    replace (offset + 1 + 1 + 1 + 1) with (offset + 4) by lia.
    read_back. unfold assign. f_equal; f_equal.
    change (8 * 4) with 32.
    etransitivity;
      [|apply (f_equal (convert t)); exact (join_u32 val)].
    convert_last.
  - unfold TRY_SET_U64_LE; cbv zeta; walk.
    eexists; split;
      [replace (offset + 8)
         with (offset + 1 + 1 + 1 + 1 + 1 + 1 + 1 + 1) by lia;
       reflexivity|].
    unfold TRY_GET_U64_LE; walk.
    replace (offset + 1 + 1 + 1 + 1 + 1 + 1 + 1 + 1) with (offset + 8)
      by lia.
    read_back. unfold assign. f_equal; f_equal.
    change (8 * 8) with 64.
    etransitivity;
      [|apply (f_equal (convert t)); exact (join_u64 val)].
    convert_last.
  - intros t n val; apply convert_fits.
  - intros t val Hs; unfold convert; rewrite Hs.
    unfold sint; now rewrite uint_uint.
Qed.

(** Storing a 32-bit value is storing its low and then its high 16
    bits, also when the capacity cuts the store short. *)
Theorem set_u32_is_two_u16 (buf : buffer) (capacity offset val : Z) :
  TRY_SET_U32_LE buf capacity offset val
  = and_then (TRY_SET_U16_LE buf capacity offset val)
      (fun st => TRY_SET_U16_LE (fst st) capacity (snd st)
                   (Z.shiftr (uint 32 val) 16)).
Proof.
  assert (uint 8 (Z.land (uint 16 val) 255)
          = uint 8 (Z.land (uint 32 val) 255)) as L0.
  { apply Z.bits_inj'; intros n Hn.
    assert (n < 8 \/ 8 <= n) as [H|H] by lia; bit_of val n. }
  assert (uint 8 (Z.land (Z.shiftr (uint 16 val) 8) 255)
          = uint 8 (Z.land (Z.shiftr (uint 32 val) 8) 255)) as L8.
  { apply Z.bits_inj'; intros n Hn.
    assert (n < 8 \/ 8 <= n) as [H|H] by lia; bit_of val (n + 8). }
  assert (uint 8 (Z.land (uint 16 (Z.shiftr (uint 32 val) 16)) 255)
          = uint 8 (Z.land (Z.shiftr (uint 32 val) 16) 255)) as H0.
  { apply Z.bits_inj'; intros n Hn.
    assert (n < 8 \/ 8 <= n) as [H|H] by lia; bit_of val (n + 16). }
  assert (uint 8 (Z.land
                    (Z.shiftr (uint 16 (Z.shiftr (uint 32 val) 16)) 8) 255)
          = uint 8 (Z.land (Z.shiftr (uint 32 val) 24) 255)) as H8.
  { apply Z.bits_inj'; intros n Hn.
    assert (n < 8 \/ 8 <= n) as [H|H] by lia; bit_of val (n + 24). }
  unfold TRY_SET_U32_LE, TRY_SET_U16_LE; cbv zeta.
  rewrite L0, L8.
  rewrite ?H0, ?H8; walk; rewrite ?H0, ?H8; reflexivity.
Qed.

Lemma setters_write_in_place_witness :
  exists bytes',
    buffer_after (TRY_SET_U32_LE (Some [1; 2; 3; 4; 5; 6]) 4 2 305419896)
    = Some bytes'
    /\ List.length bytes' = List.length [1; 2; 3; 4; 5; 6]
    /\ forall i, i < 2 \/ 2 + 4 <= i \/ 4 <= i ->
                 get_byte bytes' i = get_byte [1; 2; 3; 4; 5; 6] i.
Proof.
  destruct setters_write_in_place as (_ & _ & H & _).
  apply (H [1; 2; 3; 4; 5; 6] 4 2 305419896); lia.
Defined.

Lemma set_then_get_round_trip_witness :
  (exists bytes',
     TRY_SET_U32_LE (Some [0; 0; 0; 0; 0; 0]) 6 1 (-2)
     = Next (Some bytes', 1 + 4)
     /\ TRY_GET_U32_LE int32_t (Some bytes') 6 1 0
        = Next (1 + 4, convert int32_t (uint (8 * 4) (-2))))
  /\ convert int32_t (uint (8 * 4) (-2)) = -2
  /\ convert uint32_t (uint (8 * 4) (-2)) = 4294967294.
Proof.
  destruct set_then_get_round_trip as (_ & _ & H & _).
  split; [|split; reflexivity].
  apply (H int32_t [0; 0; 0; 0; 0; 0] 6 1 (-2) 0); cbn; lia.
Defined.

(** * More of the engine *)

(** ** The heartbeat *)

(** [plc_heartbeat]: the clock is read, the state runner is entered when
    the PLC is in [dispatch], and the timer is armed for 200 ms after
    the reading whether or not that call succeeds.  [None] when the
    runner does not come to a yield within [fuel] state functions. *)
Definition plc_heartbeat {W attr : Type} (env : Env W attr) (fuel : nat)
    (w : W) (plc : plc_s W) : option (W * plc_s W) :=
  let '(w, now) := event_loop_time env w in
  match (if in_dispatch plc then plc_state_runner env fuel w plc
         else Some (w, plc)) with
  | Some (w, plc) =>
      let '(w, _) :=
        timer_event_wake_at env w (int64 (now + PLC_HEARTBEAT_INTERVAL_MS)) in
      Some (w, plc)
  | None => None
  end.

(** [n] heartbeats in a row. *)
Fixpoint heartbeats {W attr : Type} (env : Env W attr) (n fuel : nat)
    (w : W) (plc : plc_s W) : option (W * plc_s W) :=
  match n with
  | O => Some (w, plc)
  | S n =>
      match plc_heartbeat env fuel w plc with
      | Some (w, plc) => heartbeats env n fuel w plc
      | None => None
      end
  end.

(** ** The queue API *)

Section QueueAPI.

Variables (W attr : Type) (env : Env W attr).

Lemma unlink_splits (request : Z) (l : list (plc_request_s W)) :
  match unlink request l with
  | Some l' =>
      exists l1 r l2,
        l = l1 ++ r :: l2 /\ req_addr r = request
        /\ queued request l1 = false /\ l' = l1 ++ l2
  | None => queued request l = false
  end.
Proof.
  induction l as [|x l IH]; cbn; [reflexivity|].
  destruct (Z.eqb_spec (req_addr x) request) as [E|E].
  - exists [], x, l; repeat split; exact E.
  - destruct (unlink request l) as [l'|]; cbn; [|exact IH].
    destruct IH as (l1 & r & l2 & -> & Hr & Hq & ->).
    exists (x :: l1), r, l2; repeat split; [exact Hr|].
    cbn; apply Z.eqb_neq in E; now rewrite E.
Qed.

(** [plc_stop_request] answers [PLCTAG_ERR_NOT_FOUND] and changes
    nothing exactly when no queued object has the address; otherwise it
    answers ok and takes out the first such object, the others keeping
    their order, and touches no other field. *)
Theorem plc_stop_request_unlinks_first (plc : plc_s W) (request : Z) :
  (queued request (request_list plc) = false ->
   plc_stop_request plc request = (plc, PLCTAG_ERR_NOT_FOUND))
  /\ (queued request (request_list plc) = true ->
      exists l1 r l2,
        request_list plc = l1 ++ r :: l2 /\ req_addr r = request
        /\ queued request l1 = false
        /\ plc_stop_request plc request
           = (set_request_list (l1 ++ l2) plc, PLCTAG_STATUS_OK)).
Proof.
  unfold plc_stop_request.
  pose proof (unlink_splits request (request_list plc)) as H.
  destruct (unlink request (request_list plc)) as [l'|].
  - destruct H as (l1 & r & l2 & E & Hr & Hq & ->). split.
    + intros Hn. rewrite E in Hn. exfalso; clear - Hn Hr.
      induction l1 as [|x l1 IH]; cbn in Hn.
      * apply Z.eqb_eq in Hr; rewrite Hr in Hn; discriminate.
      * destruct (req_addr x =? request); [discriminate|auto].
    + intros _; exists l1, r, l2; repeat split; assumption.
  - split; [reflexivity|congruence].
Qed.

Lemma unlink_tail (request : Z) (l : list (plc_request_s W)) :
  forall A, map (@req_addr W) l = A ++ [request] -> ~ In request A ->
    exists l', unlink request l = Some l' /\ map (@req_addr W) l' = A.
Proof.
  induction l as [|x l IH]; intros A E Hn; cbn in *.
  - destruct A; discriminate.
  - destruct A as [|a A]; cbn in E; injection E as E1 E2.
    + rewrite E1, Z.eqb_refl. destruct l; [|discriminate].
      exists []; split; reflexivity.
    + destruct (Z.eqb_spec (req_addr x) request) as [E|E].
      * exfalso; apply Hn; left; congruence.
      * destruct (IH A E2) as (l' & -> & El');
          [intros Hin; apply Hn; now right|].
        exists (x :: l'); cbn; split; [reflexivity|]. congruence.
Qed.

Lemma queued_In (request : Z) (l : list (plc_request_s W)) :
  queued request l = false -> ~ In request (map (@req_addr W) l).
Proof.
  induction l as [|x l IH]; cbn; [tauto|].
  destruct (Z.eqb_spec (req_addr x) request) as [E|E]; [discriminate|].
  intros H [Hx|Hin]; [congruence|now apply IH].
Qed.

(** Where [plc_state_runner] stands after [n] state functions at most:
    it has yielded, or it is about to call the next one. *)
Fixpoint runner_progress (n : nat) (w : W) (plc : plc_s W) : W * plc_s W :=
  match n, state_func plc with
  | S n, Some s =>
      let '(w', plc', rc) := run_state env s w plc in
      if rc =?s PLCTAG_STATUS_PENDING then runner_progress n w' plc'
      else (w', plc')
  | _, _ => (w, plc)
  end.

Lemma runner_progress_result (fuel : nat) :
  forall w plc result,
    plc_state_runner env fuel w plc = Some result ->
    result = runner_progress fuel w plc.
Proof.
  induction fuel as [|fuel IH]; intros w plc result; [discriminate|].
  cbn [plc_state_runner runner_progress].
  destruct (state_func plc) as [s|]; [|discriminate].
  destruct (run_state env s w plc) as [[w1 p1] rc].
  destruct (rc =?s PLCTAG_STATUS_PENDING); [apply IH|congruence].
Qed.

(** More fuel does not change what the runner returns. *)
Lemma plc_state_runner_mono (fuel : nat) :
  forall fuel' w plc result,
    (fuel <= fuel')%nat ->
    plc_state_runner env fuel w plc = Some result ->
    plc_state_runner env fuel' w plc = Some result.
Proof.
  induction fuel as [|fuel IH]; intros fuel' w plc result Hle;
    [discriminate|].
  destruct fuel' as [|fuel']; [lia|].
  cbn [plc_state_runner].
  destruct (state_func plc) as [s|]; [|discriminate].
  destruct (run_state env s w plc) as [[w1 p1] rc].
  destruct (rc =?s PLCTAG_STATUS_PENDING); [apply IH; lia|congruence].
Qed.

Lemma runner_progress_keeps_queue (n : nat) :
  forall w plc s,
    state_func plc = Some s -> runs_from_dispatch s = true ->
    addrs (snd (runner_progress n w plc)) = addrs plc.
Proof.
  induction n as [|n IH]; intros w plc s Hs Hr; [reflexivity|].
  cbn [runner_progress]; rewrite Hs.
  pose proof (run_state_keeps_queue env s w plc Hr) as [Ha Hp].
  destruct (run_state env s w plc) as [[w1 p1] rc]; cbn [fst snd] in *.
  destruct (rc =?s PLCTAG_STATUS_PENDING) eqn:E; [|exact Ha].
  apply status_eqb_eq in E. destruct (Hp E) as (s1 & Hs1 & Hr1).
  rewrite (IH _ _ _ Hs1 Hr1); exact Ha.
Qed.

Lemma in_dispatch_state (plc : plc_s W) :
  in_dispatch plc = true -> state_func plc = Some st_dispatch_requests.
Proof.
  unfold in_dispatch; destruct (state_func plc) as [s|]; [|discriminate].
  unfold state_id_eqb.
  destruct (state_id_eq_dec s st_dispatch_requests) as [->|];
    [reflexivity|discriminate].
Qed.

Lemma unlink_last (request : Z) (r : plc_request_s W)
    (l : list (plc_request_s W)) :
  queued request l = false -> req_addr r = request ->
  unlink request (l ++ [r]) = Some l.
Proof.
  intros Hq Hr; induction l as [|x l IH]; cbn in *.
  - apply Z.eqb_eq in Hr; rewrite Hr; reflexivity.
  - destruct (req_addr x =? request); [discriminate|].
    rewrite (IH Hq); reflexivity.
Qed.

(** [plc_start_request] of a request that is not queued, followed by
    [plc_stop_request] of it.  [started] is the PLC with the request
    linked at the tail, before the state runner is entered.

    The runner is entered only when the PLC is in [dispatch], and it
    need not yield: it goes on for as long as state functions answer
    pending.  Wherever it stands, the queue holds the requests of
    before, in their order, and the new one behind them, so that
    stopping the request gives back the queue of before.  When the PLC
    is not in [dispatch] the call returns at once, and stopping the
    request gives back the PLC of before.  Whenever the call returns,
    it returns ok with the PLC at which the runner yielded; a larger
    bound on the number of state functions returns the same. *)
Theorem start_then_stop_restores_queue (w : W) (plc : plc_s W)
    (request client : Z) (b p : request_callback W) :
  queued request (request_list plc) = false ->
  let started :=
    set_request_list
      (request_list plc ++ [mk_request request client (-1) b p]) plc in
  (in_dispatch plc = true ->
   forall n : nat,
     exists plc'',
       plc_stop_request (snd (runner_progress n w started)) request
       = (plc'', PLCTAG_STATUS_OK)
       /\ addrs plc'' = addrs plc)
  /\ (in_dispatch plc = false ->
      (forall fuel : nat,
         plc_start_request env fuel w plc request client b p
         = Some (w, started, PLCTAG_STATUS_OK))
      /\ plc_stop_request started request = (plc, PLCTAG_STATUS_OK))
  /\ (forall (fuel : nat) (w' : W) (plc' : plc_s W) (rc : status),
        plc_start_request env fuel w plc request client b p
        = Some (w', plc', rc) ->
        rc = PLCTAG_STATUS_OK
        /\ (w', plc') = runner_progress (if in_dispatch plc then fuel else O)
                          w started
        /\ (exists plc'',
              plc_stop_request plc' request = (plc'', PLCTAG_STATUS_OK)
              /\ addrs plc'' = addrs plc)
        /\ (forall fuel' : nat,
              (fuel <= fuel')%nat ->
              plc_start_request env fuel' w plc request client b p
              = Some (w', plc', rc))).
Proof.
  intros Hq started.
  assert (addrs started = addrs plc ++ [request]) as Ea
    by (unfold addrs, started; cbn; rewrite map_app; reflexivity).
  assert (forall q : plc_s W, addrs q = addrs plc ++ [request] ->
            exists plc'',
              plc_stop_request q request = (plc'', PLCTAG_STATUS_OK)
              /\ addrs plc'' = addrs plc) as Hstop.
  { intros q Eq.
    destruct (unlink_tail request (request_list q) (addrs plc) Eq
                (queued_In request _ Hq)) as (l' & Hu & El').
    unfold plc_stop_request; rewrite Hu.
    eexists; split; [reflexivity|exact El']. }
  assert (in_dispatch started = in_dispatch plc) as Ed by reflexivity.
  split; [|split].
  - intros Hd n; apply Hstop.
    rewrite (runner_progress_keeps_queue n w started
               (in_dispatch_state started Hd) eq_refl).
    exact Ea.
  - intros Hd; split.
    + intros fuel; unfold plc_start_request, plc_start_request_block.
      rewrite Hq; fold started; rewrite Ed, Hd; reflexivity.
    + unfold plc_stop_request, started; cbn [request_list set_request_list].
      rewrite unlink_last by (exact Hq || reflexivity).
      destruct plc; reflexivity.
  - intros fuel w' plc' rc.
    unfold plc_start_request, plc_start_request_block.
    rewrite Hq; fold started; rewrite Ed.
    destruct (in_dispatch plc) eqn:Hd.
    + destruct (plc_state_runner env fuel w started) as [[w1 p1]|] eqn:Er;
        [|discriminate].
      intros [= <- <- <-].
      pose proof (runner_progress_result fuel w started Er) as Ep.
      split; [reflexivity|]. split; [exact Ep|]. split.
      * apply Hstop.
        replace p1 with (snd (runner_progress fuel w started))
          by (rewrite <- Ep; reflexivity).
        rewrite (runner_progress_keeps_queue fuel w started
                   (in_dispatch_state started Hd) eq_refl).
        exact Ea.
      * intros fuel' Hle.
        rewrite (plc_state_runner_mono w started Hle Er); reflexivity.
    + intros [= <- <- <-].
      split; [reflexivity|]. split; [reflexivity|]. split.
      * apply Hstop; exact Ea.
      * intros fuel' _; reflexivity.
Qed.

End QueueAPI.

(** A connected PLC in [dispatch] with nothing queued, before a 64-byte
    buffer. *)
Definition idle_in_dispatch : plc_s Sim.world :=
  Scenario.plc Scenario.packing_layer [] st_dispatch_requests 64 6000.

(** The request 101 is started there: the runner reserves, packs and
    sends, and yields in [tag_req_sent] after three state functions. *)
Lemma start_then_stop_restores_queue_witness :
  let started :=
    set_request_list
      [mk_request 101 5 (-1) (Sim.build_bytes 10) Sim.accept_response]
      idle_in_dispatch in
  let yielded := runner_progress Sim.env 3 Sim.start started in
  (exists plc'',
     plc_stop_request (snd yielded) 101 = (plc'', PLCTAG_STATUS_OK)
     /\ addrs plc'' = addrs idle_in_dispatch)
  /\ state_func (snd yielded) = Some st_tag_request_sent
  /\ plc_start_request Sim.env 3 Sim.start idle_in_dispatch 101 5
       (Sim.build_bytes 10) Sim.accept_response
     = Some (fst yielded, snd yielded, PLCTAG_STATUS_OK)
  /\ plc_start_request Sim.env 7 Sim.start idle_in_dispatch 101 5
       (Sim.build_bytes 10) Sim.accept_response
     = Some (fst yielded, snd yielded, PLCTAG_STATUS_OK).
Proof.
  cbv zeta.
  destruct (@start_then_stop_restores_queue _ _ Sim.env Sim.start
              idle_in_dispatch 101 5 (Sim.build_bytes 10)
              Sim.accept_response eq_refl) as (H1 & _ & H3).
  assert (plc_start_request Sim.env 3 Sim.start idle_in_dispatch 101 5
            (Sim.build_bytes 10) Sim.accept_response
          = Some (fst (runner_progress Sim.env 3 Sim.start
                         (set_request_list
                            [mk_request 101 5 (-1) (Sim.build_bytes 10)
                               Sim.accept_response] idle_in_dispatch)),
                  snd (runner_progress Sim.env 3 Sim.start
                         (set_request_list
                            [mk_request 101 5 (-1) (Sim.build_bytes 10)
                               Sim.accept_response] idle_in_dispatch)),
                  PLCTAG_STATUS_OK)) as E by (vm_compute; reflexivity).
  destruct (H3 _ _ _ _ E) as (_ & _ & _ & Hm).
  split; [exact (H1 eq_refl 3%nat)|].
  split; [reflexivity|].
  split; [exact E|].
  apply Hm; lia.
Defined.

(** *** The runner need not yield *)

(** The one-layer stack when it cannot be initialised. *)
Definition failing_layer : plc_layer_s Sim.world :=
  mk_layer (fun w => (w, PLCTAG_ERR_BAD_GATEWAY))
    (connect Scenario.packing_layer) (disconnect Scenario.packing_layer)
    (reserve_space Scenario.packing_layer)
    (build_layer Scenario.packing_layer)
    (layer_process_response Scenario.packing_layer).

(** A PLC in [dispatch] that has lost its connection, with a request
    queued and a retry time that has come. *)
Definition cannot_connect : plc_s Sim.world :=
  set_next_retry_time 1000
    (set_is_connected false
       (Scenario.plc failing_layer [Sim.request 101 (-1) 10]
          st_dispatch_requests 64 0)).

Lemma plc_state_runner_pending {W attr : Type} (env : Env W attr)
    (fuel : nat) (w w' : W) (plc plc' : plc_s W) (s : state_id) :
  state_func plc = Some s ->
  run_state env s w plc = (w', plc', PLCTAG_STATUS_PENDING) ->
  plc_state_runner env (S fuel) w plc = plc_state_runner env fuel w' plc'.
Proof.
  intros Hs Hr; cbn [plc_state_runner]; rewrite Hs, Hr; reflexivity.
Qed.

(** [dispatch] sends this PLC to [start_connect]; the stack fails to
    initialise and the engine backs off into [start_disconnect], which
    finds the PLC disconnected and sends it back to [dispatch]; the
    retry interval is 0, the retry time is the time of the failure, and
    [dispatch] does not wait.  Every state function answers pending,
    and the PLC is the same after three of them. *)
Lemma runner_need_not_yield (fuel : nat) :
  plc_state_runner Sim.env fuel Sim.start cannot_connect = None.
Proof.
  induction fuel as [fuel IH] using (well_founded_induction lt_wf).
  destruct fuel as [|[|[|fuel]]]; try reflexivity.
  rewrite (@plc_state_runner_pending _ _ Sim.env _ Sim.start Sim.start
             cannot_connect (NEXT_STATE st_start_connect cannot_connect)
             st_dispatch_requests eq_refl eq_refl).
  rewrite (@plc_state_runner_pending _ _ Sim.env _ Sim.start Sim.start
             (NEXT_STATE st_start_connect cannot_connect)
             (NEXT_STATE st_start_disconnect cannot_connect)
             st_start_connect eq_refl eq_refl).
  rewrite (@plc_state_runner_pending _ _ Sim.env _ Sim.start Sim.start
             (NEXT_STATE st_start_disconnect cannot_connect)
             cannot_connect st_start_disconnect eq_refl eq_refl).
  apply IH; lia.
Qed.

Lemma plc_stop_request_unlinks_first_witness :
  exists l1 r l2,
    request_list Scenario.three_requests = l1 ++ r :: l2
    /\ req_addr r = 102
    /\ queued 102 l1 = false
    /\ plc_stop_request Scenario.three_requests 102
       = (set_request_list (l1 ++ l2) Scenario.three_requests,
          PLCTAG_STATUS_OK).
Proof.
  apply (plc_stop_request_unlinks_first Scenario.three_requests 102).
  reflexivity.
Defined.

(** ** The idle timeout of the API *)

(** [plc_set_idle_timeout] takes 0 to 5000 ms: it stores the value and
    answers the value of before, and [plc_get_idle_timeout] then
    answers the new one; any other value is refused with
    [PLCTAG_ERR_OUT_OF_BOUNDS] and the stored value stays. *)
Theorem idle_timeout_set_then_get {W : Type} (plc : plc_s W) (t : Z) :
  (0 <= t <= 5000 ->
   snd (plc_set_idle_timeout (Some plc) t) = inr (idle_timeout_ms plc)
   /\ plc_get_idle_timeout (fst (plc_set_idle_timeout (Some plc) t)) = inr t)
  /\ (t < 0 \/ 5000 < t ->
      snd (plc_set_idle_timeout (Some plc) t) = inl PLCTAG_ERR_OUT_OF_BOUNDS
      /\ plc_get_idle_timeout (fst (plc_set_idle_timeout (Some plc) t))
         = inr (idle_timeout_ms plc)).
Proof.
  unfold plc_set_idle_timeout.
  destruct (Z.ltb_spec t 0), (Z.gtb_spec t 5000); cbn;
    split; intros Ht; try lia; split; reflexivity.
Qed.

Lemma idle_timeout_set_then_get_witness :
  snd (plc_set_idle_timeout (Some Scenario.three_requests) 100) = inr 5000
  /\ plc_get_idle_timeout
       (fst (plc_set_idle_timeout (Some Scenario.three_requests) 100))
     = inr 100.
Proof.
  apply (idle_timeout_set_then_get Scenario.three_requests 100); lia.
Defined.

(** ** The registry: what [plc_get] leaves *)

Section Registry.

Variables (W attr : Type) (env : Env W attr).

Lemma plc_get_port_range (host_segments : list string) (port p : Z) :
  plc_get_port env host_segments port = Some p ->
  p = port \/ 1 <= p <= 65535.
Proof.
  unfold plc_get_port.
  destruct (nth_error host_segments 1) as [seg|]; [|intros [= <-]; now left].
  destruct (Z.of_nat (String.length seg) =? 0); [intros [= <-]; now left|].
  destruct (str_to_int env seg) as [rc p'].
  destruct (rc <>?s PLCTAG_STATUS_OK); [discriminate|].
  destruct (Z.leb_spec p' 0); [discriminate|].
  destruct (Z.gtb_spec p' 65535); [discriminate|].
  cbn; intros [= <-]; right; lia.
Qed.

(** A PLC that [plc_get] has made and linked: [ret] is its address and
    it is the head of the list [l'].  It is the PLC that the dialect
    constructor left, but for four fields: it starts in [dispatch]; its
    idle timeout and, unless the gateway names a port, its port are the
    attributes [idle_timeout_ms] and [default_port] of the bag as the
    constructor left it; its host is a copy of a non-empty string, or
    null. *)
Definition made (plc_list : registry W) (attribs : attr)
    (constructor : W -> plc_s W -> attr -> W * plc_s W * attr * status)
    (l' : registry W) (ret : option Z) : Prop :=
  exists a plc w0 plc_key w1 plc1 attribs1,
    ret = Some a /\ l' = (a, plc) :: plc_list
    /\ constructor w0 (set_key plc_key blank_plc) attribs
       = (w1, plc1, attribs1, PLCTAG_STATUS_OK)
    /\ plc
       = set_state_func (Some st_dispatch_requests)
           (set_port (port plc)
              (set_idle_timeout_ms (idle_timeout_ms plc)
                 (set_host (host plc) plc1)))
    /\ idle_timeout_ms plc
       = attr_get_int env attribs1 "idle_timeout_ms" DEFAULT_IDLE_TIMEOUT_MS
    /\ (port plc = attr_get_int env attribs1 "default_port" 0
        \/ 1 <= port plc <= 65535)
    /\ match host plc with
       | Some h => h <> EmptyString
       | None => True
       end.

Lemma plc_get_create_made (w : W) (plc_list : registry W) (plc_key : string)
    (attribs : attr)
    (constructor : W -> plc_s W -> attr -> W * plc_s W * attr * status) :
  let '(_, l', rc, ret) :=
    plc_get_create env w plc_list plc_key attribs constructor in
  rc = PLCTAG_STATUS_OK -> made plc_list attribs constructor l' ret.
Proof.
  unfold plc_get_create.
  destruct (rc_alloc env w) as [w1 [a|]]; [|discriminate].
  destruct (mutex_create env w1) as [w2 rc2].
  destruct (rc2 <>?s PLCTAG_STATUS_OK) eqn:E2;
    [intros ->; discriminate|].
  destruct (constructor w2 (set_key plc_key blank_plc) attribs)
    as [[[w3 plc3] attribs3] rc3] eqn:Ec.
  destruct (rc3 <>?s PLCTAG_STATUS_OK) eqn:E3;
    [intros ->; discriminate|].
  assert (rc3 = PLCTAG_STATUS_OK) as ->
    by (destruct rc3; try reflexivity; discriminate).
  destruct (attr_get_str env attribs3 "gateway" None) as [host_args|];
    [|discriminate].
  destruct (Z.of_nat (String.length host_args) =? 0); [discriminate|].
  destruct (str_split env host_args ":") as [segs|]; [|discriminate].
  destruct (nth_error segs 0) as [h|]; [|discriminate].
  destruct (Z.eqb_spec (Z.of_nat (String.length h)) 0) as [Eh|Eh];
    [discriminate|].
  destruct (str_dup env w3 h) as [w4 copied].
  destruct (plc_get_port env segs _) as [p|] eqn:Ep; [|discriminate].
  destruct (timer_event_create env w4) as [w5 rc5].
  destruct (rc5 <>?s PLCTAG_STATUS_OK) eqn:E5;
    [intros ->; discriminate|].
  destruct (time_ms env w5) as [w6 now].
  destruct (timer_event_wake_at env w6 _) as [w7 rc7].
  destruct (rc7 <>?s PLCTAG_STATUS_OK) eqn:E7;
    [intros ->; discriminate|].
  intros _.
  eexists _, _, _, _, _, _, _.
  split; [reflexivity|]. split; [reflexivity|]. split; [exact Ec|].
  cbn. split; [reflexivity|]. split; [reflexivity|]. split.
  - apply plc_get_port_range in Ep. destruct Ep as [->|Ep]; auto.
  - destruct copied; [|exact I].
    intros ->; apply Eh; reflexivity.
Qed.


End Registry.


(** ** More invariants of the state machine *)

Section Machine.

Variables (W attr : Type) (env : Env W attr).

Lemma DISCONNECT_ON_ERROR_connected (w : W) (p : plc_s W) :
  is_connected (snd (fst (DISCONNECT_ON_ERROR env w p))) = is_connected p.
Proof. unfold DISCONNECT_ON_ERROR; repeat break_match; reflexivity. Qed.

Lemma send_tag_request_connected (w : W) (p : plc_s W) (data_end : Z) :
  is_connected (snd (fst (send_tag_request env w p data_end)))
  = is_connected p.
Proof.
  unfold send_tag_request, back_to_dispatch, DISCONNECT_ON_ERROR.
  repeat break_match; reflexivity.
Qed.

Lemma build_tag_request_loop_connected (current : list (plc_request_s W)) :
  forall packed w p data_start data_end old_data_end id first_try,
    is_connected
      (snd (fst (build_tag_request_loop env current packed w p data_start
                   data_end old_data_end id first_try)))
    = is_connected p.
Proof.
  induction current as [|request rest IH]; intros; cbn [build_tag_request_loop];
    unfold back_to_dispatch.
  - destruct (is_terminating p); reflexivity.
  - destruct (is_terminating p); [reflexivity|].
    repeat match goal with
      | |- context [if ?b then _ else _] => destruct b
      end;
      rewrite ?DISCONNECT_ON_ERROR_connected, ?send_tag_request_connected,
        ?IH; reflexivity.
Qed.

(** Only [build_layer_connect_request] marks a PLC connected, and when
    it does it yields with the PLC back in [dispatch]: no other state
    function turns [is_connected] from false to true. *)
Theorem only_connect_marks_connected (s : state_id) (w : W) (p : plc_s W) :
  is_connected p = false ->
  is_connected (snd (fst (run_state env s w p))) = true ->
  s = st_build_layer_connect_request
  /\ snd (run_state env s w p) = PLCTAG_STATUS_OK
  /\ state_func (snd (fst (run_state env s w p)))
     = Some st_dispatch_requests.
Proof.
  intros Hc.
  destruct s; cbn [run_state];
    try (unfold state_build_tag_request;
         rewrite build_tag_request_loop_connected; congruence);
    unfold state_dispatch_requests, state_reserve_space_for_tag_request,
      state_tag_request_sent, state_tag_response_ready, state_start_connect,
      state_build_layer_connect_request, state_layer_connect_request_sent,
      state_layer_connect_response_ready, state_start_disconnect,
      state_build_layer_disconnect_request,
      state_layer_disconnect_request_sent,
      state_layer_disconnect_response_ready, state_terminate,
      DISCONNECT_ON_ERROR, RESET_ON_ERROR, reset_plc, back_to_dispatch;
    repeat break_match; cbn; intros Ht;
    try congruence;
    try (repeat split; reflexivity);
    match goal with
    | H : _ = (_, ?q, _) |- _ =>
        injection H as <- <- <-; cbn in Ht; congruence
    | H : (?rc =?s PLCTAG_STATUS_OK) = true |- _ =>
        apply status_eqb_eq in H; repeat split; assumption
    end.
Qed.

(** The addresses of the queue after a state function are those of
    before; only [tag_resp_ready] can differ, by the head it took off. *)
Theorem only_tag_response_ready_dequeues (s : state_id) (w : W)
    (p : plc_s W) :
  let p' := snd (fst (run_state env s w p)) in
  addrs p' = addrs p
  \/ (s = st_tag_response_ready
      /\ exists request rest,
           request_list p = request :: rest
           /\ addrs p' = map (@req_addr W) rest).
Proof.
  cbv zeta.
  destruct s; cbn [run_state];
    try (left; apply build_tag_request_loop_keeps_queue; reflexivity);
    unfold state_dispatch_requests, state_reserve_space_for_tag_request,
      state_tag_request_sent, state_tag_response_ready, state_start_connect,
      state_build_layer_connect_request, state_layer_connect_request_sent,
      state_layer_connect_response_ready, state_start_disconnect,
      state_build_layer_disconnect_request,
      state_layer_disconnect_request_sent,
      state_layer_disconnect_response_ready, state_terminate,
      DISCONNECT_ON_ERROR, RESET_ON_ERROR, reset_plc, back_to_dispatch;
    repeat break_match; unfold addrs; cbn in *;
    try (left; reflexivity);
    try (match goal with
         | H : _ = (_, ?q, _) |- _ =>
             injection H as <- <- <-; left; reflexivity
         end);
    (right; split; [reflexivity|]; eexists _, _; split;
     [eassumption|reflexivity]).
Qed.

(** Whatever the layers, the callbacks and the socket answer, a run of
    the state runner leaves the capacity of the buffer, the layer stack
    and the two idle fields as they were. *)
Theorem runner_keeps_buffer_and_stack (fuel : nat) :
  forall (w w' : W) (p p' : plc_s W),
    plc_state_runner env fuel w p = Some (w', p') ->
    data_capacity p' = data_capacity p
    /\ top_layer p' = top_layer p
    /\ idle_timeout_ms p' = idle_timeout_ms p
    /\ next_idle_timeout p' = next_idle_timeout p.
Proof.
  induction fuel as [|fuel IH]; intros w w' p p'; cbn [plc_state_runner];
    [discriminate|].
  destruct (state_func p) as [s|]; [|discriminate].
  pose proof (run_state_frame env s w p) as (F1 & F2 & F3 & F4).
  destruct (run_state env s w p) as [[w1 p1] rc]; cbn [fst snd] in *.
  destruct (rc =?s PLCTAG_STATUS_PENDING).
  - intros H; destruct (IH _ _ _ _ H) as (G1 & G2 & G3 & G4).
    repeat split; congruence.
  - intros [= <- <-]; repeat split; assumption.
Qed.

End Machine.

(** ** Winding down, waiting and parking *)

(** The states that look at [is_terminating] before anything else, with
    [dispatch] and [start_disconnect]. *)
Definition winds_down (s : state_id) : bool :=
  match s with
  | st_dispatch_requests | st_build_tag_request | st_tag_response_ready
  | st_start_connect | st_build_layer_connect_request
  | st_layer_connect_request_sent | st_layer_connect_response_ready
  | st_start_disconnect => true
  | _ => false
  end.

(** The states that are entered from a socket completion and ask the
    socket for its status first; the second component tells whether
    [CHECK_TERMINATION] comes before that. *)
Definition polls_socket (s : state_id) : option bool :=
  match s with
  | st_tag_request_sent | st_layer_disconnect_request_sent
  | st_layer_disconnect_response_ready => Some false
  | st_tag_response_ready | st_build_layer_connect_request
  | st_layer_connect_request_sent | st_layer_connect_response_ready =>
      Some true
  | _ => None
  end.

Section Winding.

Variables (W attr : Type) (env : Env W attr).

(** A terminating PLC that is not connected, in [dispatch],
    [start_disconnect] or any state that begins with
    [CHECK_TERMINATION]: the state runner parks it in [terminate]
    within two state functions.  Only [state_func] changes, and the one
    call that leaves plc.c is the clock reading of [dispatch]; once in
    [terminate] the runner changes nothing any more. *)
Theorem terminating_plc_parks_in_terminate (fuel : nat) (s : state_id)
    (w : W) (p : plc_s W) :
  is_terminating p = true -> is_connected p = false ->
  state_func p = Some s -> winds_down s = true ->
  plc_state_runner env (S (S fuel)) w p
  = Some (fst (event_loop_time env w), NEXT_STATE st_terminate p)
  /\ forall w2,
       plc_state_runner env (S fuel) w2 (NEXT_STATE st_terminate p)
       = Some (w2, NEXT_STATE st_terminate p).
Proof.
  intros Ht Hc Hs Hw. split; [|reflexivity].
  assert (state_dispatch_requests env w (NEXT_STATE st_dispatch_requests p)
          = (fst (event_loop_time env w), NEXT_STATE st_terminate p,
             PLCTAG_STATUS_OK)) as Hd.
  { unfold state_dispatch_requests; cbn.
    destruct (event_loop_time env w); rewrite Ht, Hc; reflexivity. }
  assert (forall fuel',
            plc_state_runner env (S fuel') w (NEXT_STATE st_dispatch_requests p)
            = Some (fst (event_loop_time env w), NEXT_STATE st_terminate p))
    as Hr.
  { intros fuel'; cbn [plc_state_runner NEXT_STATE state_func set_state_func
                         run_state].
    change (set_state_func (Some st_dispatch_requests) p)
      with (NEXT_STATE st_dispatch_requests p).
    rewrite Hd; reflexivity. }
  destruct s; try discriminate;
    cbn [plc_state_runner]; rewrite Hs; cbn [run_state].
  - unfold state_dispatch_requests.
    destruct (event_loop_time env w) as [w1 now]; rewrite Ht, Hc.
    reflexivity.
  - unfold state_build_tag_request.
    destruct (request_list p); cbn [build_tag_request_loop];
      rewrite Ht; unfold back_to_dispatch; cbn [status_eqb];
      change (PLCTAG_STATUS_PENDING =?s PLCTAG_STATUS_PENDING) with true;
      cbv iota; apply Hr.
  - unfold state_tag_response_ready; rewrite Ht; unfold back_to_dispatch.
    change (PLCTAG_STATUS_PENDING =?s PLCTAG_STATUS_PENDING) with true;
      cbv iota; apply Hr.
  - unfold state_start_connect; rewrite Ht; unfold back_to_dispatch.
    change (PLCTAG_STATUS_PENDING =?s PLCTAG_STATUS_PENDING) with true;
      cbv iota; apply Hr.
  - unfold state_build_layer_connect_request; rewrite Ht;
      unfold back_to_dispatch.
    change (PLCTAG_STATUS_PENDING =?s PLCTAG_STATUS_PENDING) with true;
      cbv iota; apply Hr.
  - unfold state_layer_connect_request_sent; rewrite Ht;
      unfold back_to_dispatch.
    change (PLCTAG_STATUS_PENDING =?s PLCTAG_STATUS_PENDING) with true;
      cbv iota; apply Hr.
  - unfold state_layer_connect_response_ready; rewrite Ht;
      unfold back_to_dispatch.
    change (PLCTAG_STATUS_PENDING =?s PLCTAG_STATUS_PENDING) with true;
      cbv iota; apply Hr.
  - unfold state_start_disconnect; rewrite Hc; unfold back_to_dispatch.
    cbn [negb].
    change (PLCTAG_STATUS_PENDING =?s PLCTAG_STATUS_PENDING) with true;
      cbv iota; apply Hr.
Qed.

(** A wake-up that finds the socket operation still pending is dropped:
    the state function yields and the PLC is exactly as it was, no layer
    and no callback having been called.  (In the four states that begin
    with [CHECK_TERMINATION] this is for a PLC that is not
    terminating.) *)
Theorem spurious_wakeup_is_dropped (s : state_id) (w w1 : W) (p : plc_s W)
    (checks_first : bool) :
  polls_socket s = Some checks_first ->
  checks_first && is_terminating p = false ->
  socket_status env w (socket p) = (w1, PLCTAG_STATUS_PENDING) ->
  run_state env s w p = (w1, p, PLCTAG_STATUS_OK).
Proof.
  intros Hp Ht Hs.
  destruct s; try discriminate; injection Hp as <-; cbn in Ht;
    cbn [run_state];
    unfold state_tag_request_sent, state_tag_response_ready,
      state_build_layer_connect_request, state_layer_connect_request_sent,
      state_layer_connect_response_ready,
      state_layer_disconnect_request_sent,
      state_layer_disconnect_response_ready;
    rewrite ?Ht, Hs; reflexivity.
Qed.

(** A connect attempt that comes before [next_retry_time] is put off:
    from [start_connect] the runner goes back to [dispatch] and yields
    there.  No socket is created and no layer initialised; the only
    calls that leave plc.c are three readings of the clock. *)
Theorem early_connect_is_put_off (fuel : nat) (w : W) (p : plc_s W) :
  is_terminating p = false -> is_connected p = false ->
  state_func p = Some st_start_connect ->
  let '(w1, now1) := event_loop_time env w in
  let '(w2, _) := event_loop_time env w1 in
  let '(w3, now3) := event_loop_time env w2 in
  now1 < next_retry_time p -> now3 < next_retry_time p ->
  plc_state_runner env (S (S fuel)) w p
  = Some (w3, NEXT_STATE st_dispatch_requests p).
Proof.
  intros Ht Hc Hs.
  destruct (event_loop_time env w) as [w1 now1] eqn:E1.
  destruct (event_loop_time env w1) as [w2 now2] eqn:E2.
  destruct (event_loop_time env w2) as [w3 now3] eqn:E3.
  intros H1 H3.
  cbn [plc_state_runner]; rewrite Hs; cbn [run_state].
  unfold state_start_connect; rewrite Ht, E1.
  replace (next_retry_time p >? now1) with true
    by (symmetry; apply Z.gtb_lt; lia).
  unfold back_to_dispatch.
  change (PLCTAG_STATUS_PENDING =?s PLCTAG_STATUS_PENDING) with true;
    cbv iota.
  cbn [state_func NEXT_STATE set_state_func run_state].
  unfold state_dispatch_requests; cbn.
  rewrite E2, Ht, Hc; cbn. rewrite E3.
  replace (next_retry_time p >? now3) with true
    by (symmetry; apply Z.gtb_lt; lia).
  reflexivity.
Qed.

Lemma plc_heartbeat_outside_dispatch (fuel : nat) (w : W) (p : plc_s W) :
  in_dispatch p = false ->
  exists w', plc_heartbeat env fuel w p = Some (w', p).
Proof.
  intros H; unfold plc_heartbeat; rewrite H.
  destruct (event_loop_time env w) as [w1 now].
  destruct (timer_event_wake_at env w1 _) as [w2 rc].
  eexists; reflexivity.
Qed.

Lemma heartbeats_outside_dispatch (n fuel : nat) :
  forall (w : W) (p : plc_s W),
    in_dispatch p = false ->
    exists w', heartbeats env n fuel w p = Some (w', p).
Proof.
  induction n as [|n IH]; intros w p H; cbn [heartbeats].
  - eexists; reflexivity.
  - destruct (plc_heartbeat_outside_dispatch fuel w p H) as [w1 ->].
    now apply IH.
Qed.

(** When the stack reports the disconnect complete, either from
    [build_layer_disconnect_request] (its [disconnect] answers ok) or
    from [layer_disconnect_response_ready] (its [process_response]
    answers ok), the state function marks the PLC disconnected and
    yields without assigning [state_func].  The heartbeat enters the
    state machine only from [dispatch], so however many heartbeats
    follow, the PLC stays exactly as the state function left it. *)
Theorem finished_disconnect_parks_the_engine (w : W) (p : plc_s W) :
  let finished (s : state_id) (answer : status) :=
    state_func p = Some s -> answer = PLCTAG_STATUS_OK ->
    let '(_, p', rc) := run_state env s w p in
    rc = PLCTAG_STATUS_OK /\ is_connected p' = false
    /\ state_func p' = Some s
    /\ forall n fuel w0,
         exists w', heartbeats env n fuel w0 p' = Some (w', p') in
  finished st_build_layer_disconnect_request
    (res_rc (disconnect (top_layer p) w (data p) (data_capacity p) 0
               (data_capacity p)))
  /\ (forall w1,
        socket_status env w (socket p) = (w1, PLCTAG_STATUS_OK) ->
        finished st_layer_disconnect_response_ready
          (res_rc (layer_process_response (top_layer p) w1 (data p)
                     (data_capacity p) 0 (payload_end p)
                     (current_request_id p)))).
Proof.
  cbv zeta; split.
  - intros Hs Hok; cbn [run_state].
    unfold state_build_layer_disconnect_request; rewrite Hok; cbn.
    repeat split; [exact Hs|].
    intros n fuel w0; apply heartbeats_outside_dispatch.
    unfold in_dispatch; cbn; rewrite Hs; reflexivity.
  - intros w1 Hsock Hs Hok; cbn [run_state].
    unfold state_layer_disconnect_response_ready; rewrite Hsock; cbn.
    rewrite Hok; cbn.
    repeat split; [exact Hs|].
    intros n fuel w0; apply heartbeats_outside_dispatch.
    unfold in_dispatch; cbn; rewrite Hs; reflexivity.
Qed.

End Winding.

(** ** Request ids *)

Section Ids.

Variables (W attr : Type) (env : Env W attr).

Lemma send_tag_request_sent (w : W) (p : plc_s W) (data_end : Z) :
  let '(_, p', rc) := send_tag_request env w p data_end in
  state_func p' = Some st_tag_request_sent ->
  rc = PLCTAG_STATUS_OK /\ request_list p' = request_list p
  /\ payload_end p' = data_end.
Proof.
  unfold send_tag_request, back_to_dispatch, DISCONNECT_ON_ERROR.
  repeat break_match; cbn; intros H; try discriminate; repeat split.
Qed.

Lemma build_tag_request_loop_ids (current : list (plc_request_s W)) :
  forall packed w p data_start data_end old_data_end id first_try c,
    match packed with
    | [] => id = c
    | r :: _ => req_id r = c
    end ->
    let '(_, p', rc) :=
      build_tag_request_loop env current packed w p data_start data_end
        old_data_end id first_try in
    state_func p' = Some st_tag_request_sent ->
    rc = PLCTAG_STATUS_OK
    /\ exists request rest,
         request_list p' = request :: rest /\ req_id request = c.
Proof.
  induction current as [|request rest IH];
    intros packed w p data_start data_end old_data_end id first_try c Hc;
    cbn [build_tag_request_loop]; unfold back_to_dispatch.
  - destruct (is_terminating p); cbn; discriminate.
  - destruct (is_terminating p); [cbn; discriminate|].
    set (r := build_request request w (context request) (data p)
                (data_capacity p) data_start data_end id).
    assert (forall w0 q, let '(_, p', _) := DISCONNECT_ON_ERROR env w0 q in
                         state_func p' <> Some st_tag_request_sent) as Hd.
    { intros w0 q; unfold DISCONNECT_ON_ERROR; repeat break_match;
        cbn; discriminate. }
    destruct ((res_rc r <>?s PLCTAG_STATUS_OK)
              && (res_rc r <>?s PLCTAG_ERR_TOO_SMALL)).
    { specialize (Hd (res_world r) (wrote r p)).
      destruct (DISCONNECT_ON_ERROR env _ _) as [[? ?] ?]; tauto. }
    destruct ((res_rc r =?s PLCTAG_ERR_TOO_SMALL) && first_try).
    { specialize (Hd (res_world r) (wrote r p)).
      destruct (DISCONNECT_ON_ERROR env _ _) as [[? ?] ?]; tauto. }
    set (q := set_request_list (packed ++ set_req_id id request :: rest)
                (wrote r p)).
    assert (exists request0 rest0,
              request_list q = request0 :: rest0 /\ req_id request0 = c)
      as Hq.
    { unfold q; cbn. destruct packed as [|r0 packed]; cbn.
      - eexists _, _; split; [reflexivity|]; cbn; exact Hc.
      - eexists _, _; split; [reflexivity|]; exact Hc. }
    match goal with
    | |- context [build_layer ?l ?a ?b ?c ?d ?e ?f] =>
        set (r2 := build_layer l a b c d e f)
    end.
    assert (forall data_end0,
              let '(_, p', rc) :=
                send_tag_request env (res_world r2) (wrote r2 q) data_end0 in
              state_func p' = Some st_tag_request_sent ->
              rc = PLCTAG_STATUS_OK
              /\ exists request0 rest0,
                   request_list p' = request0 :: rest0
                   /\ req_id request0 = c) as Hsend.
    { intros data_end0.
      pose proof (send_tag_request_sent (res_world r2) (wrote r2 q)
                    data_end0) as Hs.
      destruct (send_tag_request env _ _ _) as [[w' p'] rc].
      intros Hst; destruct (Hs Hst) as (Hrc & Hl & _).
      split; [exact Hrc|]. rewrite Hl; exact Hq. }
    destruct ((res_rc r2 <>?s PLCTAG_STATUS_OK)
              && (res_rc r2 <>?s PLCTAG_STATUS_PENDING)).
    { specialize (Hd (res_world r2) (wrote r2 q)).
      destruct (DISCONNECT_ON_ERROR env _ _) as [[? ?] ?]; tauto. }
    destruct (res_rc r2 =?s PLCTAG_STATUS_OK); [apply Hsend|].
    destruct rest as [|r3 rest]; [apply Hsend|].
    apply IH. destruct packed as [|r0 packed]; cbn; exact Hc.
Qed.

(** Whenever [build_tag_req] leaves for [tag_req_sent], it has armed
    the write and yields, the queue holds the same requests in the same
    order, and the request at the head carries the request id that
    [reserve_space] handed out ([current_request_id]): the id the
    response path compares first. *)
Theorem sent_frame_head_carries_reserved_id (w : W) (p : plc_s W) :
  let result := state_build_tag_request env w p in
  state_func (snd (fst result)) = Some st_tag_request_sent ->
  snd result = PLCTAG_STATUS_OK
  /\ addrs (snd (fst result)) = addrs p
  /\ exists request rest,
       request_list (snd (fst result)) = request :: rest
       /\ req_id request = current_request_id p.
Proof.
  cbv zeta; unfold state_build_tag_request.
  pose proof (build_tag_request_loop_ids (request_list p) [] w p
                (payload_start p) (payload_end p) (payload_end p)
                (current_request_id p) true (current_request_id p) eq_refl)
    as H.
  pose proof (build_tag_request_loop_keeps_queue env (request_list p) [] w p
                p (payload_start p) (payload_end p) (payload_end p)
                (current_request_id p) true eq_refl eq_refl) as [Ha _].
  destruct (build_tag_request_loop env _ _ _ _ _ _ _ _ _) as [[w' p'] rc].
  cbn [fst snd] in *. intros Hs; destruct (H Hs) as (Hrc & Hh).
  repeat split; assumption.
Qed.

End Ids.

(** ** Runs of the engine properties *)

Module Runs.

Import Sim.

(** The environment with a socket whose last operation is still under
    way. *)
Definition env_pending : Env world attrs :=
  mk_env (time_ms env) (event_loop_time env) (socket_create env)
    (socket_close env) (fun w _ => (w, PLCTAG_STATUS_PENDING))
    (socket_callback_when_connection_ready env)
    (socket_callback_when_write_done env)
    (socket_callback_when_read_done env)
    (mem_realloc env)
    get_str get_int (str_concat env) (str_dup env) split to_int
    (rc_alloc env)
    (rc_inc env) (rc_dec env) (mutex_create env) (timer_event_create env)
    (timer_event_wake_at env) (timer_event_snooze env).

(** The socket is open and the one-layer stack is about to be asked for
    its connect request. *)
Definition connecting : plc_s world :=
  set_is_connected false
    (Scenario.plc Scenario.packing_layer [] st_build_layer_connect_request
       64 0).

(** A response has arrived for a PLC that lost its connection and is
    being destroyed. *)
Definition going_away : plc_s world :=
  set_is_terminating true
    (set_is_connected false
       (Scenario.two_in_flight Scenario.packing_layer 0)).

(** A connect attempt 1000 ms before the retry time. *)
Definition early_connect : plc_s world :=
  NEXT_STATE st_start_connect Scenario.waiting_for_retry.

(** The one-layer stack is about to be asked for its disconnect
    request. *)
Definition disconnecting : plc_s world :=
  Scenario.plc Scenario.packing_layer []
    st_build_layer_disconnect_request 64 0.

End Runs.

Lemma only_connect_marks_connected_witness :
  st_build_layer_connect_request = st_build_layer_connect_request
  /\ snd (run_state Sim.env st_build_layer_connect_request Sim.start
            Runs.connecting) = PLCTAG_STATUS_OK
  /\ state_func
       (snd (fst (run_state Sim.env st_build_layer_connect_request
                    Sim.start Runs.connecting)))
     = Some st_dispatch_requests.
Proof.
  apply (@only_connect_marks_connected _ _ Sim.env
           st_build_layer_connect_request Sim.start Runs.connecting);
    reflexivity.
Defined.

Lemma runner_keeps_buffer_and_stack_witness :
  let p' :=
    snd (fst (state_build_tag_request Sim.env Sim.start
                Scenario.three_requests)) in
  data_capacity p' = data_capacity Scenario.three_requests
  /\ top_layer p' = top_layer Scenario.three_requests
  /\ idle_timeout_ms p' = idle_timeout_ms Scenario.three_requests
  /\ next_idle_timeout p' = next_idle_timeout Scenario.three_requests.
Proof.
  apply (@runner_keeps_buffer_and_stack _ _ Sim.env 1 Sim.start
           (fst (fst (state_build_tag_request Sim.env Sim.start
                        Scenario.three_requests)))
           Scenario.three_requests).
  vm_compute; reflexivity.
Defined.

Lemma terminating_plc_parks_in_terminate_witness :
  plc_state_runner Sim.env 2 Sim.start Runs.going_away
  = Some (fst (event_loop_time Sim.env Sim.start),
          NEXT_STATE st_terminate Runs.going_away)
  /\ forall w2,
       plc_state_runner Sim.env 1 w2
         (NEXT_STATE st_terminate Runs.going_away)
       = Some (w2, NEXT_STATE st_terminate Runs.going_away).
Proof.
  apply (@terminating_plc_parks_in_terminate _ _ Sim.env 0
           st_tag_response_ready Sim.start Runs.going_away);
    reflexivity.
Defined.

Lemma spurious_wakeup_is_dropped_witness :
  run_state Runs.env_pending st_tag_response_ready Sim.start
    (Scenario.two_in_flight Scenario.packing_layer 0)
  = (Sim.start, Scenario.two_in_flight Scenario.packing_layer 0,
     PLCTAG_STATUS_OK).
Proof.
  apply (@spurious_wakeup_is_dropped _ _ Runs.env_pending
           st_tag_response_ready Sim.start Sim.start
           (Scenario.two_in_flight Scenario.packing_layer 0) true);
    reflexivity.
Defined.

Lemma early_connect_is_put_off_witness :
  plc_state_runner Sim.env 2 Sim.start Runs.early_connect
  = Some (Sim.start, NEXT_STATE st_dispatch_requests Runs.early_connect).
Proof.
  apply (@early_connect_is_put_off _ _ Sim.env 0 Sim.start
           Runs.early_connect); reflexivity.
Defined.

Lemma finished_disconnect_parks_the_engine_witness :
  is_connected
    (snd (fst (run_state Sim.env st_build_layer_disconnect_request
                 Sim.start Runs.disconnecting))) = false
  /\ forall n fuel w0,
       exists w',
         heartbeats Sim.env n fuel w0
           (snd (fst (run_state Sim.env st_build_layer_disconnect_request
                        Sim.start Runs.disconnecting)))
         = Some (w',
                 snd (fst (run_state Sim.env
                             st_build_layer_disconnect_request Sim.start
                             Runs.disconnecting))).
Proof.
  destruct (@finished_disconnect_parks_the_engine _ _ Sim.env Sim.start
              Runs.disconnecting) as [H _].
  specialize (H eq_refl eq_refl).
  destruct (run_state Sim.env st_build_layer_disconnect_request Sim.start
              Runs.disconnecting) as [[w' p'] rc].
  destruct H as (_ & Hc & _ & Hh). split; assumption.
Defined.

Lemma sent_frame_head_carries_reserved_id_witness :
  snd (state_build_tag_request Sim.env Sim.start Scenario.three_requests)
  = PLCTAG_STATUS_OK
  /\ addrs
       (snd (fst (state_build_tag_request Sim.env Sim.start
                    Scenario.three_requests)))
     = addrs Scenario.three_requests
  /\ exists request rest,
       request_list
         (snd (fst (state_build_tag_request Sim.env Sim.start
                      Scenario.three_requests)))
       = request :: rest
       /\ req_id request = current_request_id Scenario.three_requests.
Proof.
  apply (@sent_frame_head_carries_reserved_id _ _ Sim.env Sim.start
           Scenario.three_requests).
  reflexivity.
Defined.

